(** * smart_coverage: scripts/utils/markdown_to_html.py

    A shallow embedding of the Markdown-to-HTML converter and the proofs of
    its specification.

    A Python [str] is a sequence of code points; it is modelled as a list of
    characters (code points 0..255).  The calls into Python's [re] module are
    modelled by a backtracking matcher for the fragment of the pattern
    language the script uses: sequences of single-character items carrying a
    quantifier, capture groups, and the anchors [^] and [$].  The matcher
    explores alternatives in the order of Python's engine (a greedy quantifier
    tries the longest run first, a lazy one the shortest), so the match it
    returns is the one [re] returns. *)

From Stdlib Require Import List Ascii String Bool Arith Lia.
Import ListNotations.

Local Open Scope list_scope.

(** ** Strings *)

Definition str := list ascii.

Definition txt (s : string) : str := list_ascii_of_string s.

Definition LF : ascii := ascii_of_nat 10.
Definition DQ : ascii := ascii_of_nat 34.
Definition BSLASH : ascii := ascii_of_nat 92.
Definition BTICK : ascii := ascii_of_nat 96.

(** [quoted s] is [s] between two double quotes. *)
Definition quoted (s : str) : str := DQ :: s ++ [DQ].

Definition chr_eqb (a b : ascii) : bool := Ascii.eqb a b.

Fixpoint str_eqb (a b : str) : bool :=
  match a, b with
  | [], [] => true
  | x :: a', y :: b' => chr_eqb x y && str_eqb a' b'
  | _, _ => false
  end.

(** [s.startswith(p)] *)
Fixpoint startswith (p s : str) : bool :=
  match p, s with
  | [], _ => true
  | x :: p', y :: s' => chr_eqb x y && startswith p' s'
  | _ :: _, [] => false
  end.

(** [s.split(sep)] for a one-character separator: never the empty list. *)
Fixpoint split (sep : ascii) (s : str) : list str :=
  match s with
  | [] => [[]]
  | x :: s' =>
      if chr_eqb x sep then [] :: split sep s'
      else match split sep s' with
           | l :: ls => (x :: l) :: ls
           | [] => [[x]]
           end
  end.

(** [sep.join(ls)] *)
Fixpoint join (sep : str) (ls : list str) : str :=
  match ls with
  | [] => []
  | [l] => l
  | l :: ls' => l ++ sep ++ join sep ls'
  end.

(** The code points below 256 that [str.strip()] removes: the characters for
    which [str.isspace] holds. *)
Definition is_space (c : ascii) : bool :=
  let n := nat_of_ascii c in
  ((9 <=? n) && (n <=? 13)) || ((28 <=? n) && (n <=? 32))
  || (n =? 133) || (n =? 160).

Fixpoint lstrip (s : str) : str :=
  match s with
  | [] => []
  | x :: s' => if is_space x then lstrip s' else s
  end.

Definition rstrip (s : str) : str := rev (lstrip (rev s)).

(** [s.strip()] *)
Definition strip (s : str) : str := rstrip (lstrip s).

(** Truth value of a string: non-empty. *)
Definition truthy (s : str) : bool :=
  match s with [] => false | _ :: _ => true end.

(** [s.replace(old, new)]: every non-overlapping occurrence of [old], from
    the left.  [skip] counts the characters of an occurrence just replaced
    that are still to be passed over. *)
Fixpoint replace_from (old new : str) (skip : nat) (s : str) : str :=
  match s with
  | [] => []
  | x :: s' =>
      match skip with
      | S k => replace_from old new k s'
      | O =>
          if startswith old s
          then new ++ replace_from old new (List.length old - 1) s'
          else x :: replace_from old new 0 s'
      end
  end.

Definition replace (old new s : str) : str :=
  match old with
  | [] => new ++ flat_map (fun x => x :: new) s
  | _ :: _ => replace_from old new 0 s
  end.

(** ** Outcomes: a value, or the exception [re.error] *)

Inductive outcome (A : Type) : Type :=
| Ok (a : A)
| ReError (group : nat).

Arguments Ok {A} a.
Arguments ReError {A} group.

Definition bind {A B : Type} (m : outcome A) (k : A -> outcome B) : outcome B :=
  match m with
  | Ok a => k a
  | ReError g => ReError g
  end.

Notation "x <- m ;; k" := (bind m (fun x => k))
  (at level 61, m at next level, right associativity).

(** ** The regular expressions of [re] *)

Module Re.

(** A character class. *)
Definition cls := ascii -> bool.

Definition chr (c : ascii) : cls := fun x => chr_eqb x c.
(** [[\s\S]] *)
Definition any : cls := fun _ => true.
(** [.] ; it matches a newline only under [re.DOTALL] *)
Definition dot (dotall : bool) : cls := fun x => dotall || negb (chr_eqb x LF).
(** [[^...]] *)
Definition none_of (l : str) : cls := fun x => negb (existsb (chr_eqb x) l).
Definition in_range (lo hi : nat) : cls :=
  fun x => (lo <=? nat_of_ascii x) && (nat_of_ascii x <=? hi).
(** [[0-9]] *)
Definition digit : cls := in_range 48 57.
(** [[a-zA-Z]] *)
Definition alpha : cls := fun x => in_range 97 122 x || in_range 65 90 x.

(** Quantifiers: [x], [x?], [x*], [x+], [x*?]. *)
Inductive quant := Once | Opt | Star | Plus | LazyStar.

Inductive item :=
| Chars (q : quant) (c : cls)
| Open (g : nat)
| Close (g : nat)
| Bol
| Eol.

Definition regex := list item.

(** A literal string in a pattern. *)
Definition lit (s : string) : regex := map (fun c => Chars Once (chr c)) (txt s).

(** The state of a match attempt: the character before the current
    position, the number of characters taken since the attempt began, the
    groups that are open with the text each has taken so far (reversed), and
    the groups that are closed. *)
Record mstate := MState {
  prev : option ascii;
  len : nat;
  opened : list (nat * str);
  caps : list (nat * str)
}.

Definition start (before : option ascii) : mstate :=
  MState before 0 [] [].

Definition take (x : ascii) (st : mstate) : mstate :=
  MState (Some x) (S (len st))
         (map (fun gt => (fst gt, x :: snd gt)) (opened st)) (caps st).

Definition open_group (g : nat) (st : mstate) : mstate :=
  MState (prev st) (len st) ((g, []) :: opened st) (caps st).

Fixpoint lookup (g : nat) (l : list (nat * str)) : option str :=
  match l with
  | [] => None
  | (h, t) :: l' => if Nat.eqb g h then Some t else lookup g l'
  end.

Fixpoint remove (g : nat) (l : list (nat * str)) : list (nat * str) :=
  match l with
  | [] => []
  | (h, t) :: l' => if Nat.eqb g h then l' else (h, t) :: remove g l'
  end.

Definition close_group (g : nat) (st : mstate) : mstate :=
  match lookup g (opened st) with
  | Some t => MState (prev st) (len st) (remove g (opened st)) ((g, rev t) :: caps st)
  | None => st
  end.

(** [^]: at the start of the text, and under [re.MULTILINE] after a newline. *)
Definition at_bol (multiline : bool) (st : mstate) : bool :=
  match prev st with
  | None => true
  | Some c => multiline && chr_eqb c LF
  end.

(** [$]: at the end of the text or before its final newline, and under
    [re.MULTILINE] before any newline. *)
Definition at_eol (multiline : bool) (s : str) : bool :=
  match s with
  | [] => true
  | c :: s' => chr_eqb c LF && (multiline || match s' with [] => true | _ => false end)
  end.

Section Matcher.

Context {R : Type}.

(** Greedy repetition: take while the class allows, then try the rest of the
    pattern, giving characters back one at a time. *)
Fixpoint greedy (c : cls) (k : mstate -> str -> option R)
         (st : mstate) (s : str) : option R :=
  match s with
  | x :: s' =>
      if c x then
        match greedy c k (take x st) s' with
        | Some r => Some r
        | None => k st s
        end
      else k st s
  | [] => k st s
  end.

(** Lazy repetition: try the rest of the pattern first, take one more
    character only when that fails. *)
Fixpoint lazy (c : cls) (k : mstate -> str -> option R)
         (st : mstate) (s : str) : option R :=
  match k st s with
  | Some r => Some r
  | None =>
      match s with
      | x :: s' => if c x then lazy c k (take x st) s' else None
      | [] => None
      end
  end.

End Matcher.

(** One match attempt at the current position.  [must_advance] refuses an
    empty match (the engine sets it when the previous match was empty and
    ended here). *)
Fixpoint run (multiline must_advance : bool) (p : regex)
         (st : mstate) (s : str) : option (mstate * str) :=
  match p with
  | [] => if must_advance && (len st =? 0) then None else Some (st, s)
  | Chars Once c :: p' =>
      match s with
      | x :: s' => if c x then run multiline must_advance p' (take x st) s' else None
      | [] => None
      end
  | Chars Opt c :: p' =>
      match s with
      | x :: s' =>
          if c x then
            match run multiline must_advance p' (take x st) s' with
            | Some r => Some r
            | None => run multiline must_advance p' st s
            end
          else run multiline must_advance p' st s
      | [] => run multiline must_advance p' st s
      end
  | Chars Star c :: p' => greedy c (run multiline must_advance p') st s
  | Chars Plus c :: p' =>
      match s with
      | x :: s' =>
          if c x then greedy c (run multiline must_advance p') (take x st) s' else None
      | [] => None
      end
  | Chars LazyStar c :: p' => lazy c (run multiline must_advance p') st s
  | Open g :: p' => run multiline must_advance p' (open_group g st) s
  | Close g :: p' => run multiline must_advance p' (close_group g st) s
  | Bol :: p' => if at_bol multiline st then run multiline must_advance p' st s else None
  | Eol :: p' => if at_eol multiline s then run multiline must_advance p' st s else None
  end.

(** [re.match(p, s)]: an attempt at the start of [s] only. *)
Definition re_match (multiline : bool) (p : regex) (s : str) : option mstate :=
  option_map fst (run multiline false p (start None) s).

(** Replacement templates: literal text and group references [\g]. *)
Inductive piece := Text (s : str) | Ref (g : nat).

Definition template := list piece.

Fixpoint groups (p : regex) : list nat :=
  match p with
  | [] => []
  | Open g :: p' => g :: groups p'
  | _ :: p' => groups p'
  end.

(** The first reference of the template to a group the pattern does not
    have; compiling such a template raises [re.error]. *)
Fixpoint bad_reference (p : regex) (t : template) : option nat :=
  match t with
  | [] => None
  | Text _ :: t' => bad_reference p t'
  | Ref g :: t' =>
      if existsb (Nat.eqb g) (groups p) then bad_reference p t' else Some g
  end.

(** A group that took no part in the match expands to the empty string. *)
Fixpoint expand (t : template) (st : mstate) : str :=
  match t with
  | [] => []
  | Text s :: t' => s ++ expand t' st
  | Ref g :: t' =>
      match lookup g (caps st) with
      | Some s => s ++ expand t' st
      | None => expand t' st
      end
  end.

(** The scan of [re.sub]: search from the left, copy the text between the
    matches, resume at the end of each match.  [before] is the character
    before the current position; [skip] counts the characters of the last
    match that are still to be passed over. *)
Fixpoint sub_scan (multiline : bool) (p : regex) (t : template)
         (before : option ascii) (skip : nat) (s : str) : str :=
  match s with
  | [] =>
      match skip with
      | S _ => []
      | O =>
          match run multiline false p (start before) [] with
          | Some (st, _) => expand t st
          | None => []
          end
      end
  | x :: s' =>
      match skip with
      | S k => sub_scan multiline p t (Some x) k s'
      | O =>
          match run multiline false p (start before) s with
          | Some (st, _) =>
              expand t st ++
              match len st with
              | S k => sub_scan multiline p t (Some x) k s'
              | O =>
                  match run multiline true p (start before) s with
                  | Some (st', _) =>
                      expand t st' ++ sub_scan multiline p t (Some x) (len st' - 1) s'
                  | None => x :: sub_scan multiline p t (Some x) 0 s'
                  end
              end
          | None => x :: sub_scan multiline p t (Some x) 0 s'
          end
      end
  end.

(** [re.sub(p, t, s, flags)] *)
Definition re_sub (multiline : bool) (p : regex) (t : template) (s : str) : outcome str :=
  match bad_reference p t with
  | Some g => ReError g
  | None => Ok (sub_scan multiline p t None 0 s)
  end.

End Re.

Import Re.

(** ** convert_markdown_to_html *)

(** *** The patterns and the replacement templates, in the order of use *)

(** Three backticks and [dart], [\n?], group 1 = [[\s\S]*?], three backticks. *)
Definition fence_dart : regex :=
  lit "```dart" ++ [Chars Opt (chr LF); Open 1; Chars LazyStar any; Close 1]
  ++ lit "```".

(** Three backticks, group 1 = [[a-zA-Z]*], [\n?], group 2 = [[\s\S]*?],
    three backticks. *)
Definition fence_tagged : regex :=
  lit "```" ++ [Open 1; Chars Star alpha; Close 1; Chars Opt (chr LF);
                Open 2; Chars LazyStar any; Close 2]
  ++ lit "```".

(** Three backticks, [\n?], group 1 = [[\s\S]*?], three backticks. *)
Definition fence_plain : regex :=
  lit "```" ++ [Chars Opt (chr LF); Open 1; Chars LazyStar any; Close 1]
  ++ lit "```".

(** [<pre class="language-dart line-numbers"><code class="language-dart">\1</code></pre>] *)
Definition pre_dart : template :=
  [Text (txt "<pre class=" ++ quoted (txt "language-dart line-numbers")
         ++ txt "><code class=" ++ quoted (txt "language-dart") ++ txt ">");
   Ref 1;
   Text (txt "</code></pre>")].

(** [<pre class="language-\1 line-numbers"><code class="language-\1">\2</code></pre>] *)
Definition pre_tagged : template :=
  [Text (txt "<pre class=" ++ DQ :: txt "language-");
   Ref 1;
   Text (txt " line-numbers" ++ DQ :: txt "><code class=" ++ DQ :: txt "language-");
   Ref 1;
   Text (DQ :: txt ">");
   Ref 2;
   Text (txt "</code></pre>")].

(** [`([^`\n]+)`] and [<code>\1</code>] *)
Definition inline_span : regex :=
  lit "`" ++ [Open 1; Chars Plus (none_of [BTICK; LF]); Close 1] ++ lit "`".

Definition code_element : template :=
  [Text (txt "<code>"); Ref 1; Text (txt "</code>")].

(** [^# (.+)$], [^## (.+)$], ... and [<h1>\1</h1>], ...; [marks] is the run
    of [#] characters and [tag] the element's name. *)
Definition header_line (marks : string) : regex :=
  [Bol] ++ lit marks ++ lit " " ++ [Open 1; Chars Plus (dot false); Close 1; Eol].

Definition header_element (tag : string) : template :=
  [Text (txt "<" ++ txt tag ++ txt ">"); Ref 1; Text (txt "</" ++ txt tag ++ txt ">")].

(** [^- ] *)
Definition bullet_marker : regex := [Bol] ++ lit "- ".

(** [^[0-9]+\\. ]: digits, a backslash, any character but a newline, a space *)
Definition numbered_marker : regex :=
  [Bol; Chars Plus digit; Chars Once (chr BSLASH); Chars Once (dot false)] ++ lit " ".

(** [\*\*([^\*]+)\*\*] and [<strong>\1</strong>] *)
Definition bold_span : regex :=
  lit "**" ++ [Open 1; Chars Plus (none_of (txt "*")); Close 1] ++ lit "**".

Definition strong_element : template :=
  [Text (txt "<strong>"); Ref 1; Text (txt "</strong>")].

(** [\*([^\*]+)\*] and [<em>\1</em>] *)
Definition italic_span : regex :=
  lit "*" ++ [Open 1; Chars Plus (none_of (txt "*")); Close 1] ++ lit "*".

Definition em_element : template :=
  [Text (txt "<em>"); Ref 1; Text (txt "</em>")].

(** [\[([^\]]+)\]\(([^\)]+)\)] and [<a href="\2">\1</a>] *)
Definition link_span : regex :=
  lit "[" ++ [Open 1; Chars Plus (none_of (txt "]")); Close 1] ++ lit "](" ++
  [Open 2; Chars Plus (none_of (txt ")")); Close 2] ++ lit ")".

Definition anchor_element : template :=
  [Text (txt "<a href=" ++ [DQ]); Ref 2; Text (DQ :: txt ">"); Ref 1; Text (txt "</a>")].

(** *** The stages *)

(** Handle code blocks first (multiline): the three substitutions, all under
    [re.MULTILINE | re.DOTALL]. *)
Definition fenced_dart (content : str) : outcome str :=
  re_sub true fence_dart pre_dart content.

Definition fenced_tagged (content : str) : outcome str :=
  re_sub true fence_tagged pre_tagged content.

Definition fenced_plain (content : str) : outcome str :=
  re_sub true fence_plain pre_dart content.

Definition code_blocks (content : str) : outcome str :=
  content <- fenced_dart content ;;
  content <- fenced_tagged content ;;
  fenced_plain content.

(** Handle inline code. *)
Definition inline_code (content : str) : outcome str :=
  re_sub false inline_span code_element content.

(** Handle headers, under [re.MULTILINE]. *)
Definition headers (content : str) : outcome str :=
  content <- re_sub true (header_line "#") (header_element "h1") content ;;
  content <- re_sub true (header_line "##") (header_element "h2") content ;;
  content <- re_sub true (header_line "###") (header_element "h3") content ;;
  re_sub true (header_line "####") (header_element "h4") content.

(** Handle lists: the state of the loop over the lines. *)
Record scan := Scan {
  result : list str;
  in_ul : bool;
  in_ol : bool
}.

Definition append (line : str) (sc : scan) : scan :=
  Scan (result sc ++ [line]) (in_ul sc) (in_ol sc).

Definition set_in_ul (b : bool) (sc : scan) : scan := Scan (result sc) b (in_ol sc).
Definition set_in_ol (b : bool) (sc : scan) : scan := Scan (result sc) (in_ul sc) b.

Definition matched (m : option mstate) : bool :=
  match m with Some _ => true | None => false end.

(** The branch of the [if]/[elif]/[else] a line takes. *)
Inductive kind := Bullet | Numbered | Other.

Definition classify (line : str) : kind :=
  if matched (re_match false bullet_marker line) then Bullet
  else if matched (re_match false numbered_marker line) then Numbered
  else Other.

Definition li (s : str) : str := txt "<li>" ++ s ++ txt "</li>".

(** The body of the loop. *)
Definition scan_line (sc : scan) (line : str) : outcome scan :=
  match classify line with
  | Bullet =>
      let sc := if negb (in_ul sc) then set_in_ul true (append (txt "<ul>") sc) else sc in
      let sc := if in_ol sc then set_in_ol false (append (txt "</ol>") sc) else sc in
      Ok (append (li (skipn 2 line)) sc)
  | Numbered =>
      let sc := if negb (in_ol sc) then set_in_ol true (append (txt "<ol>") sc) else sc in
      let sc := if in_ul sc then set_in_ul false (append (txt "</ul>") sc) else sc in
      cleaned_line <- re_sub false numbered_marker [] line ;;
      Ok (append (li cleaned_line) sc)
  | Other =>
      let sc := if in_ul sc then set_in_ul false (append (txt "</ul>") sc) else sc in
      let sc := if in_ol sc then set_in_ol false (append (txt "</ol>") sc) else sc in
      Ok (append line sc)
  end.

Fixpoint scan_lines (sc : scan) (lines : list str) : outcome scan :=
  match lines with
  | [] => Ok sc
  | line :: lines' => sc <- scan_line sc line ;; scan_lines sc lines'
  end.

(** The loop and the closing of a list still open after it. *)
Definition list_lines (lines : list str) : outcome (list str) :=
  sc <- scan_lines (Scan [] false false) lines ;;
  let sc := if in_ul sc then append (txt "</ul>") sc else sc in
  let sc := if in_ol sc then append (txt "</ol>") sc else sc in
  Ok (result sc).

Definition lists (content : str) : outcome str :=
  result <- list_lines (split LF content) ;;
  Ok (join [LF] result).

(** Handle bold and italic. *)
Definition emphasis (content : str) : outcome str :=
  content <- re_sub false bold_span strong_element content ;;
  re_sub false italic_span em_element content.

(** Handle links. *)
Definition links (content : str) : outcome str :=
  re_sub false link_span anchor_element content.

(** Wrap paragraphs. *)
Definition wrap_line (line : str) : str :=
  if truthy (strip line) && negb (startswith (txt "<") line)
     && negb (str_eqb line (txt "<br>"))
  then txt "<p>" ++ line ++ txt "</p>"
  else line.

Definition wrap_paragraphs (content : str) : str :=
  join [LF] (map wrap_line (split LF content)).

Definition convert_markdown_to_html (content : str) : outcome str :=
  content <- code_blocks content ;;
  content <- inline_code content ;;
  content <- headers content ;;
  content <- lists content ;;
  content <- emphasis content ;;
  content <- links content ;;
  Ok (wrap_paragraphs content).

(** ** convert_file: the text written when a template is given

    The two assignments of the template branch,
    [final_html = template.replace('{{TITLE}}', title)] and then
    [final_html = final_html.replace('{{CONTENT}}', html_content)]; the
    files are read before and written after them. *)
Definition TITLE : str := txt "{{TITLE}}".
Definition CONTENT : str := txt "{{CONTENT}}".

Definition final_html (template title html_content : str) : str :=
  let final_html := replace TITLE title template in
  let final_html := replace CONTENT html_content final_html in
  final_html.

(** ** Vocabulary of the statements

    Notions the properties below are stated with; the converter does not
    use them. *)

(** The state after taking the characters of [l] one after the other. *)
Definition takes (l : str) (st : mstate) : mstate :=
  fold_left (fun st x => take x st) l st.

(** The longest prefix of [s] inside the class [c], and what follows it. *)
Fixpoint while (c : cls) (s : str) : str :=
  match s with
  | x :: s' => if c x then x :: while c s' else []
  | [] => []
  end.

Fixpoint after (c : cls) (s : str) : str :=
  match s with
  | x :: s' => if c x then after c s' else s
  | [] => []
  end.

(** The character that opens a placeholder, and a text without it. *)
Definition LBRACE : ascii := ascii_of_nat 123.

Definition brace_free (s : str) : Prop := Forall (fun x => chr_eqb x LBRACE = false) s.







(** A text without a newline: a line. *)
Definition one_line (s : str) : Prop := Forall (fun x => chr_eqb x LF = false) s.

(** A text with a character that [strip] keeps. *)
Definition has_text (s : str) : bool := existsb (fun x => negb (is_space x)) s.

(** What [numbered_marker] accepts at the start of a line: digits, a
    backslash, one character that is not a newline, a space. *)
Definition numbered_shape (line : str) : Prop :=
  exists ds c rest,
    ds <> [] /\ forallb digit ds = true /\ c <> LF /\
    line = ds ++ BSLASH :: c :: " "%char :: rest.

(** The narrower reading: digits, a backslash, a period, a space. *)
Definition period_shape (line : str) : Prop :=
  exists ds rest,
    ds <> [] /\ forallb digit ds = true /\
    line = ds ++ BSLASH :: "."%char :: " "%char :: rest.

(** The fence: three backticks. *)
Definition FENCE : str := txt "```".

(** A fence begins somewhere in [s]. *)
Fixpoint occurs (s : str) : bool :=
  startswith FENCE s || match s with [] => false | _ :: s' => occurs s' end.

(** A fence begins somewhere in [s] and another begins after its end: an
    opening fence with a closing one. *)
Fixpoint twice (s : str) : bool :=
  (startswith FENCE s && occurs (skipn 3 s))
  || match s with [] => false | _ :: s' => twice s' end.

(** A text without a backtick. *)
Definition tick_free (s : str) : bool := forallb (fun x => negb (chr_eqb x BTICK)) s.

(** A continuation of the matcher that returns a suffix of its input and
    counts what it took. *)
Definition consumes (k : mstate -> str -> option (mstate * str)) : Prop :=
  forall st s st' rest, k st s = Some (st', rest) ->
    exists u, s = u ++ rest /\ len st' = len st + List.length u.

(** The end of a fence pattern: the body group, lazily, up to the closing
    fence. *)
Definition body_to_fence (g : nat) : regex :=
  [Open g; Chars LazyStar any; Close g] ++ lit "```".

(** The tag group and what follows it. *)
Definition after_tag : regex :=
  Close 1 :: Chars Opt (chr LF) :: body_to_fence 2.

(** The output of the second fence substitution. *)
Definition tagged (b : option ascii) (s : str) : str :=
  sub_scan true fence_tagged pre_tagged b 0 s.

(** [fence_tagged] after its first backtick. *)
Definition fence_tagged_tail : regex :=
  lit "``" ++ [Open 1; Chars Star alpha; Close 1; Chars Opt (chr LF);
               Open 2; Chars LazyStar any; Close 2] ++ lit "```".

(** ** Vocabulary of the further properties *)

(** The character before the position reached after passing over [u],
    when [b] was the character before [u]. *)
Definition last_of (b : option ascii) (u : str) : option ascii :=
  fold_left (fun _ x => Some x) u b.

(** A continuation of the matcher that returns a suffix of its input, counts
    what it took and remembers the last character taken. *)
Definition tracks (k : mstate -> str -> option (mstate * str)) : Prop :=
  forall st s st' rest, k st s = Some (st', rest) ->
    exists u, s = u ++ rest /\ len st' = len st + List.length u
              /\ prev st' = last_of (prev st) u.

(** A pattern that cannot match a text unless it begins with [c]. *)
Definition needs (c : ascii) (p : regex) : Prop :=
  forall ml adv st s,
    match s with [] => True | x :: _ => chr_eqb x c = false end ->
    run ml adv p st s = None.

(** A text without [c]. *)
Definition lacks (c : ascii) (s : str) : Prop := Forall (fun x => chr_eqb x c = false) s.

(** A text with none of the characters the rewriting stages react to. *)
Definition plain (s : str) : Prop :=
  lacks BTICK s /\ lacks "#" s /\ lacks "*" s /\ lacks "[" s.

(** The number of lines equal to [t]. *)
Definition count (t : str) (ls : list str) : nat := List.length (filter (str_eqb t) ls).

(** A line that is none of the four list tags. *)
Definition no_list_tag (line : str) : bool :=
  negb (str_eqb (txt "<ul>") line) && negb (str_eqb (txt "</ul>") line)
  && negb (str_eqb (txt "<ol>") line) && negb (str_eqb (txt "</ol>") line).

(** A numbered item as the scanner reads it: digits, a backslash, one
    character, a space, the text of the item. *)
Definition numbered_line (e : str * ascii * str) : str :=
  let '(ds, c, item) := e in ds ++ BSLASH :: c :: " "%char :: item.

Definition marker_ok (e : str * ascii * str) : Prop :=
  let '(ds, c, _) := e in ds <> [] /\ forallb digit ds = true /\ c <> LF.

Definition item_of (e : str * ascii * str) : str := snd e.

Definition is_bullet (k : kind) : bool := match k with Bullet => true | _ => false end.
Definition is_numbered (k : kind) : bool := match k with Numbered => true | _ => false end.

(** The text without one newline at its front. *)
Definition drop_newline (s : str) : str :=
  match s with
  | x :: s' => if chr_eqb x LF then s' else s
  | [] => []
  end.

(** What follows [p] at the front of [s]. *)
Definition after_prefix (p s : str) : option str :=
  if startswith p s then Some (skipn (List.length p) s) else None.

(** One header substitution on one line: the marks, a space and at least
    one more character. *)
Definition heading (marks tag : string) (line : str) : str :=
  match after_prefix (txt marks ++ txt " ") line with
  | Some (x :: text) => txt "<" ++ txt tag ++ txt ">" ++ (x :: text) ++ txt "</" ++ txt tag ++ txt ">"
  | _ => line
  end.

(** The heading a line stands for, if any. *)
Definition heading_of (line : str) : str :=
  match after_prefix (txt "# ") line with
  | Some (x :: text) => txt "<h1>" ++ (x :: text) ++ txt "</h1>"
  | _ =>
  match after_prefix (txt "## ") line with
  | Some (x :: text) => txt "<h2>" ++ (x :: text) ++ txt "</h2>"
  | _ =>
  match after_prefix (txt "### ") line with
  | Some (x :: text) => txt "<h3>" ++ (x :: text) ++ txt "</h3>"
  | _ =>
  match after_prefix (txt "#### ") line with
  | Some (x :: text) => txt "<h4>" ++ (x :: text) ++ txt "</h4>"
  | _ => line
  end end end end.

(** ** convert_file

    The files and the two output streams are outside the program.  What an
    operation on them gives (its result, [FileNotFoundError], or another
    exception of class [Exception]) is taken from the environment; what the
    function does to the environment is the list of its effects, in order,
    and the way it ends.  During one call the environment answers the same
    operation on the same arguments in the same way. *)

(** The outcome of an operation: done, [FileNotFoundError], or another
    exception with its text. *)
Inductive io (A : Type) : Type :=
| Done (a : A)
| FileNotFound
| Failed (e : str).

Arguments Done {A} a.
Arguments FileNotFound {A}.
Arguments Failed {A} e.

(** A file opened for writing (it is created, or emptied when it exists), a
    text written to it, a line printed to the standard output, a line
    printed to the standard error. *)
Inductive event :=
| Opened (path : str)
| Written (path text : str)
| Printed (text : str)
| Complained (text : str).

(** The function returns, [sys.exit] ends the program, or an exception
    leaves the function: [FileNotFoundError], or another with its text. *)
Inductive ending :=
| Returned
| Exited (status : nat)
| NotFoundRaised
| Raised (e : str).

(** Truth value of an optional path: neither [None] nor the empty string. *)
Definition is_set (path : option str) : bool :=
  match path with Some (_ :: _) => true | _ => false end.

(** The path of an argument that is given. *)
Definition path_of (path : option str) : str :=
  match path with Some p => p | None => txt "None" end.

(** A step of the function: from the effects so far to the effects after
    it, with its value or the exception it raises. *)
Definition action (A : Type) : Type := list event -> list event * io A.

Definition pass {A : Type} (a : A) : action A := fun log => (log, Done a).

(** One step after the other; an exception ends the sequence. *)
Definition and_then {A B : Type} (m : action A) (k : A -> action B) : action B :=
  fun log =>
    match m log with
    | (log, Done a) => k a log
    | (log, FileNotFound) => (log, FileNotFound)
    | (log, Failed e) => (log, Failed e)
    end.

Notation "x <~ m ;; k" := (and_then m (fun x => k))
  (at level 61, m at next level, right associativity).

(** An operation that leaves [ev] behind when it is done and nothing when
    it raises. *)
Definition perform (r : io unit) (ev : event) : action unit :=
  fun log =>
    match r with
    | Done _ => (log ++ [ev], Done tt)
    | FileNotFound => (log, FileNotFound)
    | Failed e => (log, Failed e)
    end.

(** [try: body except FileNotFoundError: handler] *)
Definition except_not_found {A : Type} (body handler : action A) : action A :=
  fun log =>
    match body log with
    | (log, FileNotFound) => handler log
    | r => r
    end.

Definition converted (input_file output_file : str) : str :=
  txt "Converted " ++ input_file ++ txt " to " ++ output_file.

Definition converted_using (input_file output_file template_file : str) : str :=
  converted input_file output_file ++ txt " using template " ++ template_file.

Definition warning_text (template_file : option str) : str :=
  txt "Warning: Template file '" ++ path_of template_file
  ++ txt "' not found, using basic HTML".

Definition not_found_text (input_file : str) : str :=
  txt "Error: File '" ++ input_file ++ txt "' not found".

Definition failure_text (e : str) : str := txt "Error converting file: " ++ e.

Definition template_warning (template_file : option str) : event :=
  Complained (warning_text template_file).

Section Files.

(** [open(path, 'r', encoding='utf-8')], [read()] and the end of the
    [with] block *)
Variable read_text : str -> io str.
(** [open(path, 'w', encoding='utf-8')] *)
Variable open_write : str -> io unit.
(** [f.write(text)] into the file opened at the path, and the end of the
    [with] block, which closes it *)
Variable write_text : str -> str -> io unit.
(** [print(text)] *)
Variable print_out : str -> io unit.
(** [print(text, file=sys.stderr)] *)
Variable print_err : str -> io unit.
(** The text of a [re.error] *)
Variable error_text : nat -> str.

Definition read_file (path : str) : action str := fun log => (log, read_text path).

Definition open_file (path : str) : action unit := perform (open_write path) (Opened path).

Definition write_file (path text : str) : action unit :=
  perform (write_text path text) (Written path text).

Definition print_line (text : str) : action unit := perform (print_out text) (Printed text).

Definition complain (text : str) : action unit := perform (print_err text) (Complained text).

(** The call of [convert_markdown_to_html]. *)
Definition transform (content : str) : action str :=
  fun log =>
    (log, match convert_markdown_to_html content with
          | Ok html_content => Done html_content
          | ReError g => Failed (error_text g)
          end).

(** Use template if provided: the inner [try].  The value tells whether
    the function returned there. *)
Definition use_template (input_file : str) (output_file template_file : option str)
           (title html_content : str) : action bool :=
  except_not_found
    (template <~ read_file (path_of template_file) ;;
     _ <~ open_file (path_of output_file) ;;
     _ <~ write_file (path_of output_file) (final_html template title html_content) ;;
     _ <~ print_line (converted_using input_file (path_of output_file)
                        (path_of template_file)) ;;
     pass true)
    (_ <~ complain (warning_text template_file) ;;
     pass false).

(** Fallback to basic HTML. *)
Definition basic_html (input_file : str) (output_file : option str) (html_content : str)
  : action unit :=
  if is_set output_file then
    _ <~ open_file (path_of output_file) ;;
    _ <~ write_file (path_of output_file) html_content ;;
    print_line (converted input_file (path_of output_file))
  else print_line html_content.

(** The body of the outer [try]. *)
Definition convert_body (input_file : str) (output_file template_file : option str)
           (title : str) : action unit :=
  content <~ read_file input_file ;;
  html_content <~ transform content ;;
  returned <~ (if is_set template_file && is_set output_file
               then use_template input_file output_file template_file title html_content
               else pass false) ;;
  if (returned : bool) then pass tt else basic_html input_file output_file html_content.

(** A handler of the outer [try]: the complaint and [sys.exit(1)]; an
    exception of the complaint itself leaves the function. *)
Definition exit_after (text : str) (log : list event) : list event * ending :=
  match complain text log with
  | (log, Done _) => (log, Exited 1)
  | (log, FileNotFound) => (log, NotFoundRaised)
  | (log, Failed e) => (log, Raised e)
  end.

Definition convert_file (input_file : str) (output_file template_file : option str)
           (title : str) : list event * ending :=
  match convert_body input_file output_file template_file title [] with
  | (log, Done _) => (log, Returned)
  | (log, FileNotFound) => exit_after (not_found_text input_file) log
  | (log, Failed e) => exit_after (failure_text e) log
  end.

End Files.

Definition is_opened (e : event) : bool := match e with Opened _ => true | _ => false end.
Definition is_written (e : event) : bool := match e with Written _ _ => true | _ => false end.
Definition is_complaint (e : event) : bool := match e with Complained _ => true | _ => false end.

(** Environments for the examples: a directory that holds [in.md] alone, one
    that holds [in.md] and the template [t.html]; every path can be opened
    for writing, or none because its directory is missing; a write or a
    print that goes through, a write that fails on a full disk, a print
    into a closed pipe, and a confirmation that raises
    [FileNotFoundError]. *)
Definition only_input (path : str) : io str :=
  if str_eqb path (txt "in.md") then Done (txt "# T") else FileNotFound.

Definition input_and_template (path : str) : io str :=
  if str_eqb path (txt "in.md") then Done (txt "# T")
  else if str_eqb path (txt "t.html") then Done (txt "<html>{{TITLE}}:{{CONTENT}}</html>")
  else FileNotFound.

Definition every_path_opens (path : str) : io unit := Done tt.

Definition no_directory (path : str) : io unit := FileNotFound.

Definition every_write_done (path text : str) : io unit := Done tt.


Definition every_line_printed (text : str) : io unit := Done tt.

Definition broken_pipe (text : str) : io unit := Failed (txt "Broken pipe").

Definition confirmation_not_found (text : str) : io unit :=
  if startswith (txt "Converted ") text then FileNotFound else Done tt.

Definition no_text (group : nat) : str := [].

(** * Properties *)

(** ** Characters *)

Lemma chr_eqb_eq a b : chr_eqb a b = true -> a = b.
Proof. apply Ascii.eqb_eq. Qed.

Lemma chr_eqb_neq a b : chr_eqb a b = false <-> a <> b.
Proof. apply Ascii.eqb_neq. Qed.

Lemma chr_eqb_refl a : chr_eqb a a = true.
Proof. apply Ascii.eqb_refl. Qed.

Lemma chr_eqb_sym a b : chr_eqb a b = chr_eqb b a.
Proof. apply Ascii.eqb_sym. Qed.

Lemma digit_is_no_marker x :
  digit x = true -> chr BSLASH x = false /\ chr "-" x = false.
Proof.
  destruct x as [[] [] [] [] [] [] [] []]; vm_compute; intros H;
    first [discriminate H | split; reflexivity].
Qed.


Lemma startswith_trans p q s :
  startswith p q = true -> startswith q s = true -> startswith p s = true.
Proof.
  revert q s. induction p as [|x p IH]; intros q s; simpl; [reflexivity|].
  destruct q as [|y q]; [discriminate|].
  destruct s as [|z s]; simpl; [intros _ H; discriminate|].
  intros H1 H2. apply andb_prop in H1 as [E1 H1]. apply andb_prop in H2 as [E2 H2].
  apply chr_eqb_eq in E1, E2. subst. rewrite chr_eqb_refl.
  eapply IH; eassumption.
Qed.

(** ** The matcher *)

Lemma takes_caps l : forall st, caps (takes l st) = caps st.
Proof.
  induction l as [|x l IH]; intros st; simpl; [reflexivity|].
  change (caps (takes l (take x st)) = caps st). rewrite IH. reflexivity.
Qed.

Lemma takes_len l : forall st, len (takes l st) = len st + List.length l.
Proof.
  induction l as [|x l IH]; intros st; simpl; [lia|].
  change (len (takes l (take x st)) = len st + S (List.length l)).
  rewrite IH. simpl. lia.
Qed.

Lemma takes_opened l : forall st,
  opened (takes l st) = map (fun gt => (fst gt, rev l ++ snd gt)) (opened st).
Proof.
  induction l as [|x l IH]; intros st; simpl.
  - rewrite <- (map_id (opened st)) at 1. apply map_ext. intros [g t]. reflexivity.
  - change (opened (takes l (take x st)) =
            map (fun gt => (fst gt, (rev l ++ [x]) ++ snd gt)) (opened st)).
    rewrite IH. simpl. rewrite map_map. apply map_ext. intros [g t]. simpl.
    rewrite <- app_assoc. reflexivity.
Qed.

Lemma while_after c s : while c s ++ after c s = s.
Proof.
  induction s as [|x s IH]; simpl; [reflexivity|].
  destruct (c x); simpl; [rewrite IH|]; reflexivity.
Qed.

Lemma while_all c s : forallb c (while c s) = true.
Proof.
  induction s as [|x s IH]; simpl; [reflexivity|].
  destruct (c x) eqn:E; simpl; [rewrite E, IH|]; reflexivity.
Qed.

Lemma while_stops c l x s :
  forallb c l = true -> c x = false ->
  while c (l ++ x :: s) = l /\ after c (l ++ x :: s) = x :: s.
Proof.
  induction l as [|y l IH]; simpl; intros Hl Hx.
  - rewrite Hx. auto.
  - apply andb_prop in Hl as [Hy Hl]. rewrite Hy.
    destruct (IH Hl Hx) as [-> ->]. auto.
Qed.

(** When what follows a greedy repetition cannot begin with a character of
    the repeated class, the repetition takes the whole run and nothing is
    given back. *)
Lemma greedy_whole_run (R : Type) (c : cls) (k : mstate -> str -> option R) :
  (forall st x s, c x = true -> k st (x :: s) = None) ->
  forall s st, greedy c k st s = k (takes (while c s) st) (after c s).
Proof.
  intros Hk. induction s as [|x s IH]; intros st; simpl; [reflexivity|].
  destruct (c x) eqn:E; simpl; [|reflexivity].
  rewrite IH.
  change (fold_left (fun st0 x0 => take x0 st0) (while c s) (take x st))
    with (takes (while c s) (take x st)).
  destruct (k (takes (while c s) (take x st)) (after c s)) eqn:K; [reflexivity|].
  apply Hk, E.
Qed.

(** A match of the inline-code pattern: a backtick, a non-empty body free of
    backticks and newlines held by group 1, a backtick. *)
Lemma inline_span_match before adv s st rest :
  run false adv inline_span (start before) s = Some (st, rest) ->
  exists body,
    body <> [] /\ forallb (none_of [BTICK; LF]) body = true /\
    s = BTICK :: body ++ BTICK :: rest /\ lookup 1 (caps st) = Some body.
Proof.
  intros H.
  destruct s as [|x s]; [discriminate|].
  cbn [inline_span lit txt list_ascii_of_string map app run] in H.
  destruct (chr "`" x) eqn:Ex; [|discriminate].
  apply chr_eqb_eq in Ex. subst x.
  destruct s as [|y s]; [discriminate|].
  destruct (none_of [BTICK; LF] y) eqn:Ey; [|discriminate].
  rewrite greedy_whole_run in H.
  2:{ intros st0 x0 s0 Hx0. cbn [run]. unfold none_of in Hx0. simpl in Hx0.
      apply negb_true_iff in Hx0. apply orb_false_iff in Hx0 as [Hx0 _].
      unfold chr. change "`"%char with BTICK. rewrite Hx0. reflexivity. }
  cbn [run] in H.
  destruct (after (none_of [BTICK; LF]) s) as [|z s'] eqn:A; [discriminate|].
  destruct (chr "`" z) eqn:Ez; [|discriminate].
  apply chr_eqb_eq in Ez. subst z.
  rewrite andb_false_r in H. injection H as <- <-.
  exists (y :: while (none_of [BTICK; LF]) s).
  split; [discriminate|]. split; [simpl; rewrite Ey; apply while_all|].
  split.
  - rewrite <- (while_after (none_of [BTICK; LF]) s) at 1. rewrite A. reflexivity.
  - unfold close_group. rewrite takes_opened. simpl.
    rewrite rev_app_distr, rev_involutive. reflexivity.
Qed.

(** ** The markers of the list scanner *)

Lemma bullet_marker_match line :
  matched (re_match false bullet_marker line) = true <->
  exists rest, line = txt "- " ++ rest.
Proof.
  unfold re_match.
  cbn [bullet_marker lit txt list_ascii_of_string map app run at_bol start prev].
  destruct line as [|x [|y s]].
  - split; [discriminate|]. intros [rest E]. discriminate.
  - destruct (chr "-" x); (split; [discriminate|]); intros [rest E]; discriminate.
  - destruct (chr "-" x) eqn:Ex.
    + destruct (chr " " y) eqn:Ey.
      * apply chr_eqb_eq in Ex, Ey. subst. split; [exists s; reflexivity|reflexivity].
      * split; [discriminate|]. intros [rest E]. injection E as -> -> _. discriminate.
    + split; [discriminate|]. intros [rest E]. injection E as -> _ _. discriminate.
Qed.

Lemma numbered_marker_match line :
  matched (re_match false numbered_marker line) = true <-> numbered_shape line.
Proof.
  unfold re_match, numbered_shape.
  cbn [numbered_marker lit txt list_ascii_of_string map app run at_bol start prev].
  destruct line as [|x s].
  { split; [discriminate|]. intros (ds & c & rest & Hds & _ & _ & E).
    destruct ds; [congruence|discriminate]. }
  destruct (digit x) eqn:Dx.
  - rewrite greedy_whole_run.
    2:{ intros st0 x0 s0 Hx0. cbn [run].
        destruct (digit_is_no_marker _ Hx0) as [-> _]. reflexivity. }
    cbn [run]. split.
    + intros H.
      destruct (after digit s) as [|a [|c [|b rest]]] eqn:A; try discriminate;
        destruct (chr BSLASH a) eqn:Ea; try discriminate;
        destruct (dot false c) eqn:Ec; try discriminate.
      destruct (chr " " b) eqn:Eb; try discriminate.
      apply chr_eqb_eq in Ea, Eb. subst a b.
      exists (x :: while digit s), c, rest.
      split; [discriminate|]. split; [simpl; rewrite Dx; apply while_all|].
      split.
      * unfold dot in Ec. simpl in Ec. apply negb_true_iff, chr_eqb_neq in Ec. exact Ec.
      * rewrite <- (while_after digit s) at 1. rewrite A. reflexivity.
    + intros (ds & c & rest & Hds & Dds & Hc & E).
      destruct ds as [|d ds]; [congruence|]. simpl in E. injection E as -> ->.
      simpl in Dds. apply andb_prop in Dds as [_ Dds].
      destruct (while_stops digit ds BSLASH (c :: " "%char :: rest) Dds eq_refl) as [_ ->].
      assert (Ec : dot false c = true)
        by (unfold dot; simpl; apply negb_true_iff, chr_eqb_neq, Hc).
      change (chr BSLASH BSLASH) with true. cbv iota. rewrite Ec.
      change (chr " " " "%char) with true. reflexivity.
  - split; [discriminate|]. intros (ds & c & rest & Hds & Dds & _ & E).
    destruct ds as [|d ds]; [congruence|]. simpl in E. injection E as -> ->.
    simpl in Dds. rewrite Dx in Dds. discriminate.
Qed.

Lemma classify_numbered line : classify line = Numbered <-> numbered_shape line.
Proof.
  unfold classify. split.
  - destruct (matched (re_match false bullet_marker line)); [discriminate|].
    destruct (matched (re_match false numbered_marker line)) eqn:N; [|discriminate].
    intros _. apply numbered_marker_match, N.
  - intros H. pose proof (proj2 (numbered_marker_match line) H) as N.
    destruct (matched (re_match false bullet_marker line)) eqn:B.
    + apply bullet_marker_match in B as [rest ->].
      destruct H as (ds & c & r & Hds & Dds & _ & E).
      destruct ds as [|d ds]; [congruence|]. injection E as <- _.
      simpl in Dds. discriminate.
    + rewrite N. reflexivity.
Qed.

(** ** Lines: [split] and [join] *)

Lemma split_cons sep s : exists l ls, split sep s = l :: ls.
Proof.
  induction s as [|x s (l & ls & E)]; simpl; [eauto|].
  destruct (chr_eqb x sep); [eauto|]. rewrite E. eauto.
Qed.

Lemma split_lines s : Forall one_line (split LF s).
Proof.
  induction s as [|x s IH]; simpl.
  - repeat constructor.
  - destruct (chr_eqb x LF) eqn:E.
    + constructor; [constructor|exact IH].
    + destruct (split LF s) as [|l ls]; [repeat constructor; exact E|].
      inversion IH; subst. constructor; [constructor; assumption|assumption].
Qed.

Lemma split_one_line l : one_line l -> split LF l = [l].
Proof.
  induction 1 as [|x l Hx _ IH]; simpl; [reflexivity|].
  rewrite Hx, IH. reflexivity.
Qed.

Lemma split_line_then l s : one_line l -> split LF (l ++ LF :: s) = l :: split LF s.
Proof.
  induction 1 as [|x l Hx _ IH]; simpl; [reflexivity|].
  rewrite Hx, IH. reflexivity.
Qed.

Lemma split_join ls : ls <> [] -> Forall one_line ls -> split LF (join [LF] ls) = ls.
Proof.
  induction ls as [|l ls IH]; intros Hne Hall; [congruence|].
  inversion Hall as [|? ? Hl Hls]; subst.
  destruct ls as [|l2 ls].
  - simpl. apply split_one_line, Hl.
  - change (join [LF] (l :: l2 :: ls)) with (l ++ LF :: join [LF] (l2 :: ls)).
    rewrite split_line_then by exact Hl.
    rewrite IH; [reflexivity|discriminate|exact Hls].
Qed.

Lemma join_split s : join [LF] (split LF s) = s.
Proof.
  induction s as [|x s IH]; simpl; [reflexivity|].
  destruct (chr_eqb x LF) eqn:E.
  - apply chr_eqb_eq in E. subst x.
    destruct (split_cons LF s) as (l & ls & El). rewrite El in *.
    change (join [LF] ([] :: l :: ls)) with (LF :: join [LF] (l :: ls)).
    rewrite IH. reflexivity.
  - destruct (split LF s) as [|l ls] eqn:El.
    + simpl in IH. subst s. reflexivity.
    + destruct ls as [|l2 ls]; simpl in *; rewrite IH; reflexivity.
Qed.

(** ** [strip] *)

Lemma lstrip_text s : has_text s = true -> has_text (lstrip s) = true.
Proof.
  unfold has_text. induction s as [|x s IH]; simpl; [discriminate|].
  destruct (is_space x) eqn:E; simpl; [exact IH|]. rewrite E. reflexivity.
Qed.

Lemma has_text_rev s : has_text (rev s) = has_text s.
Proof.
  unfold has_text. induction s as [|x s IH]; simpl; [reflexivity|].
  rewrite existsb_app, IH. simpl. rewrite orb_false_r. apply orb_comm.
Qed.

Lemma strip_text s : has_text s = true -> truthy (strip s) = true.
Proof.
  intros H. unfold strip, rstrip.
  assert (T : has_text (rev (lstrip (rev (lstrip s)))) = true).
  { rewrite has_text_rev. apply lstrip_text. rewrite has_text_rev. apply lstrip_text, H. }
  destruct (rev (lstrip (rev (lstrip s)))); [discriminate|reflexivity].
Qed.

Lemma strip_blank s : has_text s = false -> strip s = [].
Proof.
  intros H. unfold strip, rstrip.
  assert (L : lstrip s = []).
  { unfold has_text in H. induction s as [|x s IH]; simpl in *; [reflexivity|].
    apply orb_false_iff in H as [Hx H]. apply negb_false_iff in Hx. rewrite Hx. auto. }
  rewrite L. reflexivity.
Qed.

(** ** The paragraph pass *)

Lemma one_line_app a b : one_line a -> one_line b -> one_line (a ++ b).
Proof. intros Ha Hb. apply Forall_app. split; assumption. Qed.

Lemma wrap_line_one_line l : one_line l -> one_line (wrap_line l).
Proof.
  intros H. unfold wrap_line.
  destruct (truthy (strip l) && negb (startswith (txt "<") l)
            && negb (str_eqb l (txt "<br>"))); [|exact H].
  repeat apply one_line_app; try exact H; repeat constructor.
Qed.

(** The guard of the pass: a line that begins with [<] is left alone. *)
Lemma wrap_line_markup l : startswith (txt "<") l = true -> wrap_line l = l.
Proof.
  intros H. unfold wrap_line. rewrite H. simpl. rewrite andb_false_r. reflexivity.
Qed.

Lemma wrap_line_again l : wrap_line (wrap_line l) = wrap_line l.
Proof.
  unfold wrap_line at 2 3.
  destruct (truthy (strip l) && negb (startswith (txt "<") l)
            && negb (str_eqb l (txt "<br>"))) eqn:E.
  - apply wrap_line_markup. reflexivity.
  - unfold wrap_line. rewrite E. reflexivity.
Qed.

Lemma wrap_paragraphs_lines content :
  split LF (wrap_paragraphs content) = map wrap_line (split LF content).
Proof.
  unfold wrap_paragraphs. apply split_join.
  - destruct (split_cons LF content) as (l & ls & ->). discriminate.
  - apply Forall_map. eapply Forall_impl; [|apply split_lines].
    intros l. apply wrap_line_one_line.
Qed.

Lemma wrap_line_indented c rest :
  is_space c = true -> has_text (c :: rest) = true ->
  wrap_line (c :: rest) = txt "<p>" ++ (c :: rest) ++ txt "</p>".
Proof.
  intros Hc Ht. unfold wrap_line. rewrite (strip_text _ Ht).
  assert (N : chr_eqb "<" c = false) by (apply chr_eqb_neq; intros <-; discriminate Hc).
  assert (N' : chr_eqb c "<" = false) by (rewrite chr_eqb_sym; exact N).
  change (startswith (txt "<") (c :: rest)) with (chr_eqb "<" c && true).
  change (str_eqb (c :: rest) (txt "<br>")) with (chr_eqb c "<" && str_eqb rest (txt "br>")).
  rewrite N, N'. reflexivity.
Qed.

(** ** [replace] *)

Section Replace.

Variables (old' new : str).
Let old : str := LBRACE :: old'.



(** Text without a brace is copied. *)
Lemma replace_from_miss a s :
  brace_free a -> replace_from old new 0 (a ++ s) = a ++ replace_from old new 0 s.
Proof.
  induction 1 as [|x a Hx _ IH]; [reflexivity|].
  cbn [app replace_from]. unfold old at 1. cbn [startswith].
  rewrite chr_eqb_sym, Hx. simpl. f_equal. exact IH.
Qed.

End Replace.







(** ** [re.error] is never raised *)

Lemma re_sub_returns ml p t :
  bad_reference p t = None -> forall s, re_sub ml p t s = Ok (sub_scan ml p t None 0 s).
Proof. intros H s. unfold re_sub. rewrite H. reflexivity. Qed.

Lemma scan_line_returns sc line : exists sc', scan_line sc line = Ok sc'.
Proof.
  unfold scan_line. destruct (classify line).
  - eexists. reflexivity.
  - rewrite re_sub_returns by reflexivity. eexists. reflexivity.
  - eexists. reflexivity.
Qed.

Lemma scan_lines_returns lines : forall sc, exists sc', scan_lines sc lines = Ok sc'.
Proof.
  induction lines as [|l lines IH]; intros sc; simpl; [eauto|].
  destruct (scan_line_returns sc l) as [sc1 ->]. simpl. apply IH.
Qed.

(** ** What a match consumes *)

Lemma greedy_consumes c k : consumes k -> consumes (greedy c k).
Proof.
  intros Hk st s. revert st. induction s as [|x s IH]; intros st st' rest H; simpl in H.
  - apply Hk, H.
  - destruct (c x); [|apply Hk, H].
    destruct (greedy c k (take x st) s) as [[st1 r1]|] eqn:G; [|apply Hk, H].
    injection H as -> ->. destruct (IH _ _ _ G) as (u & -> & L).
    exists (x :: u). split; [reflexivity|]. rewrite L. simpl. lia.
Qed.

Lemma lazy_consumes c k : consumes k -> consumes (lazy c k).
Proof.
  intros Hk st s. revert st. induction s as [|x s IH]; intros st st' rest H; simpl in H.
  - destruct (k st []) eqn:K; [|discriminate]. injection H as ->. apply Hk, K.
  - destruct (k st (x :: s)) eqn:K.
    + injection H as ->. apply Hk, K.
    + destruct (c x); [|discriminate]. destruct (IH _ _ _ H) as (u & -> & L).
      exists (x :: u). split; [reflexivity|]. rewrite L. simpl. lia.
Qed.

Lemma len_close_group g st : len (close_group g st) = len st.
Proof. unfold close_group. destruct (lookup g (opened st)); reflexivity. Qed.

Lemma run_consumes ml adv p : consumes (run ml adv p).
Proof.
  induction p as [|i p IH]; intros st s st' rest H.
  - simpl in H. destruct (adv && (len st =? 0)); [discriminate|].
    injection H as <- <-. exists []. simpl. split; [reflexivity|lia].
  - assert (Step : forall x s1, run ml adv p (take x st) s1 = Some (st', rest) ->
              exists u, x :: s1 = u ++ rest /\ len st' = len st + List.length u).
    { intros x s1 H1. destruct (IH _ _ _ _ H1) as (u & -> & L).
      exists (x :: u). split; [reflexivity|]. rewrite L. simpl. lia. }
    destruct i as [q c|g|g| |]; cbn [run] in H.
    + destruct q.
      * destruct s as [|x s]; [discriminate|]. destruct (c x); [|discriminate]. auto.
      * destruct s as [|x s]; [apply IH, H|]. destruct (c x); [|apply IH, H].
        destruct (run ml adv p (take x st) s) as [r|] eqn:G; [|apply IH, H].
        injection H as ->. auto.
      * apply (greedy_consumes c _ IH), H.
      * destruct s as [|x s]; [discriminate|]. destruct (c x); [|discriminate].
        destruct (greedy_consumes c _ IH _ _ _ _ H) as (u & -> & L).
        exists (x :: u). split; [reflexivity|]. rewrite L. simpl. lia.
      * apply (lazy_consumes c _ IH), H.
    + apply IH in H. exact H.
    + apply IH in H. rewrite len_close_group in H. exact H.
    + destruct (at_bol ml st); [apply IH, H|discriminate].
    + destruct (at_eol ml s); [apply IH, H|discriminate].
Qed.

(** ** Fences in a text *)

Lemma occurs_cons x s : occurs (x :: s) = startswith FENCE (x :: s) || occurs s.
Proof. reflexivity. Qed.

Lemma twice_cons x s :
  twice (x :: s) = (startswith FENCE (x :: s) && occurs (skipn 3 (x :: s))) || twice s.
Proof. reflexivity. Qed.

Lemma occurs_app_r u s : occurs s = true -> occurs (u ++ s) = true.
Proof.
  intros H. induction u as [|x u IH]; [exact H|].
  simpl app. rewrite occurs_cons, IH. apply orb_true_r.
Qed.

Lemma no_tick_no_fence x s : chr_eqb x BTICK = false -> startswith FENCE (x :: s) = false.
Proof.
  intros H. change (startswith FENCE (x :: s))
    with (chr_eqb BTICK x && startswith (txt "``") s).
  rewrite chr_eqb_sym, H. reflexivity.
Qed.

Lemma tick_free_prefix a s :
  tick_free a = true -> occurs (a ++ s) = occurs s /\ twice (a ++ s) = twice s.
Proof.
  induction a as [|x a IH]; intros H; [auto|].
  simpl in H. apply andb_prop in H as [Hx Ha]. apply negb_true_iff in Hx.
  destruct (IH Ha) as [IH1 IH2].
  simpl app. rewrite occurs_cons, twice_cons, (no_tick_no_fence _ _ Hx), IH1, IH2. auto.
Qed.

(** A fence cannot reach across a character that is not a backtick. *)
Lemma fence_stops a y b :
  chr_eqb y BTICK = false -> startswith FENCE (a ++ y :: b) = startswith FENCE a.
Proof.
  intros Hy. assert (Hy' : chr_eqb BTICK y = false) by (rewrite chr_eqb_sym; exact Hy).
  destruct a as [|a1 [|a2 [|a3 a]]]; cbn [app FENCE txt list_ascii_of_string startswith].
  - change "`"%char with BTICK. rewrite Hy'. reflexivity.
  - change "`"%char with BTICK. rewrite Hy'. destruct (chr_eqb BTICK a1); reflexivity.
  - change "`"%char with BTICK. rewrite Hy'.
    destruct (chr_eqb BTICK a1), (chr_eqb BTICK a2); reflexivity.
  - reflexivity.
Qed.

Lemma fence_free_prefix body y s :
  occurs body = false -> chr_eqb y BTICK = false ->
  occurs (body ++ y :: s) = occurs s /\ twice (body ++ y :: s) = twice s.
Proof.
  intros Hb Hy. induction body as [|x body IH].
  - simpl app. rewrite occurs_cons, twice_cons, (no_tick_no_fence _ _ Hy). auto.
  - rewrite occurs_cons in Hb. apply orb_false_iff in Hb as [Hx Hb].
    destruct (IH Hb) as [IH1 IH2].
    change ((x :: body) ++ y :: s) with (x :: body ++ y :: s).
    rewrite occurs_cons, twice_cons.
    change (x :: body ++ y :: s) with ((x :: body) ++ y :: s).
    rewrite (fence_stops _ _ _ Hy), Hx, IH1, IH2. auto.
Qed.

(** ** The fence patterns *)

Lemma startswith_fence s :
  startswith FENCE s = true -> exists rest, s = FENCE ++ rest.
Proof.
  destruct s as [|a [|b [|c rest]]]; try discriminate;
    cbn [FENCE txt list_ascii_of_string startswith]; intros H;
    repeat (apply andb_prop in H as [? H]); try discriminate.
  repeat match goal with E : chr_eqb _ _ = true |- _ => apply chr_eqb_eq in E end.
  subst. exists rest. reflexivity.
Qed.

Lemma closing_fence_none ml adv g st s :
  startswith FENCE s = false -> run ml adv (Close g :: lit "```") st s = None.
Proof.
  cbn [lit txt list_ascii_of_string map run FENCE startswith]. unfold chr.
  intros H.
  destruct s as [|a [|b [|c rest]]]; try reflexivity;
    rewrite !(chr_eqb_sym _ "`");
    repeat match goal with |- context [chr_eqb "`" ?x] => destruct (chr_eqb "`" x) end;
    try reflexivity; discriminate H.
Qed.

Lemma closing_fence_some ml adv g st rest :
  exists st', run ml adv (Close g :: lit "```") st (FENCE ++ rest) = Some (st', rest)
              /\ caps st' = caps (close_group g st).
Proof.
  eexists. cbn [lit txt list_ascii_of_string map run FENCE app].
  change (chr "`" "`"%char) with true. cbv iota. cbn [take len Nat.eqb].
  rewrite andb_false_r. split; reflexivity.
Qed.

Lemma lazy_body_none ml adv g s : forall st,
  occurs s = false -> lazy any (run ml adv (Close g :: lit "```")) st s = None.
Proof.
  induction s as [|x s IH]; intros st H.
  - cbn [lazy]. rewrite closing_fence_none by reflexivity. reflexivity.
  - rewrite occurs_cons in H. apply orb_false_iff in H as [Hx H].
    cbn [lazy]. rewrite closing_fence_none by exact Hx. cbn [any]. apply IH, H.
Qed.

Lemma startswith_more p a b : startswith p a = true -> startswith p (a ++ b) = true.
Proof.
  revert a. induction p as [|x p IH]; intros a H; [reflexivity|].
  destruct a as [|y a]; [discriminate|]. simpl in *.
  apply andb_prop in H as [E H]. rewrite E. simpl. apply IH, H.
Qed.

Lemma lazy_body_some ml adv g s : forall st,
  occurs s = true ->
  exists body rest st',
    lazy any (run ml adv (Close g :: lit "```")) st s = Some (st', rest)
    /\ s = body ++ FENCE ++ rest
    /\ occurs body = false
    /\ caps st' = caps (close_group g (takes body st)).
Proof.
  induction s as [|x s IH]; intros st H; [discriminate|].
  rewrite occurs_cons in H.
  destruct (startswith FENCE (x :: s)) eqn:Hx.
  - destruct (startswith_fence _ Hx) as [rest E].
    destruct (closing_fence_some ml adv g st rest) as (st' & R & C).
    exists [], rest, st'. cbn [lazy]. rewrite E, R. auto.
  - simpl in H. destruct (IH (take x st) H) as (body & rest & st' & L & E & B & C).
    exists (x :: body), rest, st'. cbn [lazy].
    rewrite closing_fence_none by exact Hx. cbn [any]. rewrite L.
    split; [reflexivity|]. split; [rewrite E; reflexivity|]. split; [|exact C].
    rewrite occurs_cons, B, orb_false_r.
    destruct (startswith FENCE (x :: body)) eqn:F; [|reflexivity].
    apply (startswith_more _ _ (FENCE ++ rest)) in F.
    change ((x :: body) ++ FENCE ++ rest) with (x :: body ++ FENCE ++ rest) in F.
    rewrite <- E in F. congruence.
Qed.

(** The body group up to the closing fence, from a state without an open
    group. *)
Lemma body_to_fence_none ml adv g st s :
  occurs s = false -> run ml adv (body_to_fence g) st s = None.
Proof.
  intros H. unfold body_to_fence. cbn [app run].
  change (run ml adv (lit "```")) with (run ml adv (lit "```")).
  apply (lazy_body_none ml adv g s (open_group g st) H).
Qed.

Lemma body_to_fence_some ml adv g st s :
  opened st = [] -> occurs s = true ->
  exists body rest st',
    run ml adv (body_to_fence g) st s = Some (st', rest)
    /\ occurs body = false
    /\ caps st' = (g, body) :: caps st.
Proof.
  intros O H. unfold body_to_fence. cbn [app run].
  destruct (lazy_body_some ml adv g s (open_group g st) H)
    as (body & rest & st' & L & _ & B & C).
  exists body, rest, st'. split; [exact L|]. split; [exact B|].
  rewrite C. unfold close_group. rewrite takes_opened, takes_caps.
  cbn [open_group opened caps map fst snd lookup]. rewrite Nat.eqb_refl, O.
  cbn [caps]. rewrite app_nil_r, rev_involutive. reflexivity.
Qed.

(** The optional newline before the body. *)
Lemma newline_body_none ml adv g st s :
  occurs s = false ->
  run ml adv (Chars Opt (chr LF) :: body_to_fence g) st s = None.
Proof.
  intros H. cbn [run]. destruct s as [|x s]; [apply body_to_fence_none, H|].
  rewrite (body_to_fence_none ml adv g st (x :: s) H).
  rewrite occurs_cons in H. apply orb_false_iff in H as [_ H].
  rewrite (body_to_fence_none ml adv g (take x st) s H).
  destruct (chr LF x); reflexivity.
Qed.

Lemma newline_body_some ml adv g st s :
  opened st = [] -> occurs s = true ->
  exists body rest st',
    run ml adv (Chars Opt (chr LF) :: body_to_fence g) st s = Some (st', rest)
    /\ occurs body = false
    /\ caps st' = (g, body) :: caps st.
Proof.
  intros O H. cbn [run].
  destruct (body_to_fence_some ml adv g st s O H) as (body & rest & st' & R & B & C).
  destruct s as [|x s]; [discriminate|].
  destruct (chr LF x); [|eauto 6].
  destruct (occurs s) eqn:Hs.
  - destruct (body_to_fence_some ml adv g (take x st) s) as (body1 & rest1 & st1 & R1 & B1 & C1);
      [unfold take; cbn [opened]; rewrite O; reflexivity|exact Hs|].
    rewrite R1. exists body1, rest1, st1. auto.
  - rewrite (body_to_fence_none ml adv g (take x st) s Hs). eauto 6.
Qed.

Lemma alpha_is_no_tick x : alpha x = true -> chr_eqb x BTICK = false.
Proof.
  destruct x as [[] [] [] [] [] [] [] []]; vm_compute; intros H;
    first [discriminate H | reflexivity].
Qed.

Lemma after_tag_none ml adv st s : occurs s = false -> run ml adv after_tag st s = None.
Proof. intros H. unfold after_tag. cbn [run]. apply newline_body_none, H. Qed.

Lemma after_tag_some ml adv st acc s :
  opened st = [(1, acc)] -> caps st = [] -> occurs s = true ->
  exists body rest st',
    run ml adv after_tag st s = Some (st', rest)
    /\ occurs body = false
    /\ caps st' = [(2, body); (1, rev acc)].
Proof.
  intros O C H. unfold after_tag. cbn [run].
  destruct (newline_body_some ml adv 2 (close_group 1 st) s) as (body & rest & st' & R & B & C');
    [unfold close_group; rewrite O; reflexivity|exact H|].
  exists body, rest, st'. split; [exact R|]. split; [exact B|].
  rewrite C'. unfold close_group. rewrite O. cbn [lookup Nat.eqb caps]. rewrite C. reflexivity.
Qed.

Lemma tag_none ml adv s : forall st,
  occurs s = false -> greedy alpha (run ml adv after_tag) st s = None.
Proof.
  induction s as [|x s IH]; intros st H; cbn [greedy].
  - apply after_tag_none, H.
  - rewrite (after_tag_none ml adv st (x :: s) H).
    rewrite occurs_cons in H. apply orb_false_iff in H as [_ H].
    rewrite (IH (take x st) H). destruct (alpha x); reflexivity.
Qed.

Lemma tag_some ml adv s : forall st acc,
  opened st = [(1, acc)] -> caps st = [] -> occurs s = true ->
  exists tag body rest st',
    greedy alpha (run ml adv after_tag) st s = Some (st', rest)
    /\ tick_free tag = true
    /\ occurs body = false
    /\ caps st' = [(2, body); (1, rev acc ++ tag)].
Proof.
  induction s as [|x s IH]; intros st acc O C H; [discriminate|].
  cbn [greedy]. destruct (alpha x) eqn:A.
  - pose proof (alpha_is_no_tick x A) as T.
    rewrite occurs_cons, (no_tick_no_fence _ _ T) in H. simpl in H.
    destruct (IH (take x st) (x :: acc)) as (tag & body & rest & st' & G & Ht & B & C');
      [unfold take; cbn [opened]; rewrite O; reflexivity|exact C|exact H|].
    rewrite G. exists (x :: tag), body, rest, st'.
    split; [reflexivity|]. split; [simpl; rewrite T; exact Ht|]. split; [exact B|].
    rewrite C'. simpl. rewrite <- app_assoc. reflexivity.
  - destruct (after_tag_some ml adv st acc (x :: s) O C H) as (body & rest & st' & R & B & C').
    exists [], body, rest, st'. rewrite app_nil_r. auto.
Qed.

Lemma fence_tagged_unfold ml adv b r :
  run ml adv fence_tagged (start b) (FENCE ++ r)
  = greedy alpha (run ml adv after_tag)
      (open_group 1 (take BTICK (take BTICK (take BTICK (start b))))) r.
Proof. reflexivity. Qed.

Lemma fence_plain_unfold ml adv b r :
  run ml adv fence_plain (start b) (FENCE ++ r)
  = run ml adv (Chars Opt (chr LF) :: body_to_fence 1)
      (take BTICK (take BTICK (take BTICK (start b)))) r.
Proof. reflexivity. Qed.

Lemma no_fence_no_match ml adv p b s :
  startswith FENCE s = false -> run ml adv (lit "```" ++ p) (start b) s = None.
Proof.
  cbn [lit txt list_ascii_of_string map app run FENCE startswith]. unfold chr.
  intros H.
  destruct s as [|x [|y [|z rest]]]; try reflexivity;
    rewrite !(chr_eqb_sym _ "`");
    repeat match goal with |- context [chr_eqb "`" ?x] => destruct (chr_eqb "`" x) end;
    try reflexivity; discriminate H.
Qed.

Lemma fence_tagged_none ml adv b s :
  startswith FENCE s && occurs (skipn 3 s) = false ->
  run ml adv fence_tagged (start b) s = None.
Proof.
  intros H. destruct (startswith FENCE s) eqn:F.
  - destruct (startswith_fence _ F) as [r ->]. simpl in H.
    rewrite fence_tagged_unfold. apply tag_none, H.
  - apply (no_fence_no_match ml adv _ b s F).
Qed.

Lemma fence_tagged_some ml adv b s st' rest :
  run ml adv fence_tagged (start b) s = Some (st', rest) ->
  exists tag body,
    tick_free tag = true /\ occurs body = false /\ caps st' = [(2, body); (1, tag)].
Proof.
  intros H. destruct (startswith FENCE s) eqn:F.
  - destruct (startswith_fence _ F) as [r ->]. rewrite fence_tagged_unfold in H.
    destruct (occurs r) eqn:Hr.
    + destruct (tag_some ml adv r
                  (open_group 1 (take BTICK (take BTICK (take BTICK (start b))))) [])
        as (tag & body & rest1 & st1 & G & Ht & B & C); [reflexivity|reflexivity|exact Hr|].
      rewrite G in H. injection H as <- <-. exists tag, body. auto.
    + rewrite tag_none in H by exact Hr. discriminate.
  - unfold fence_tagged in H. rewrite no_fence_no_match in H by exact F. discriminate.
Qed.

Lemma fence_plain_none ml adv b s :
  startswith FENCE s && occurs (skipn 3 s) = false ->
  run ml adv fence_plain (start b) s = None.
Proof.
  intros H. destruct (startswith FENCE s) eqn:F.
  - destruct (startswith_fence _ F) as [r ->]. simpl in H.
    rewrite fence_plain_unfold. apply newline_body_none, H.
  - apply (no_fence_no_match ml adv _ b s F).
Qed.

(** ** The scan of [re.sub] *)

Lemma sub_scan_skip ml p t k : forall s b,
  k <= List.length s ->
  exists b', sub_scan ml p t b k s = sub_scan ml p t b' 0 (skipn k s).
Proof.
  induction k as [|k IH]; intros s b Hk; [exists b; reflexivity|].
  destruct s as [|x s]; [simpl in Hk; lia|].
  simpl in Hk. destruct (IH s (Some x)) as [b' E]; [lia|].
  exists b'. exact E.
Qed.

(** A match of a pattern that starts with a literal character is not
    empty. *)
Lemma literal_first_len ml adv c p st s st' rest :
  run ml adv (Chars Once c :: p) st s = Some (st', rest) ->
  exists u, s = u ++ rest /\ len st' = len st + List.length u /\ 0 < List.length u.
Proof.
  intros H. destruct (run_consumes ml adv _ _ _ _ _ H) as (u & E & L).
  exists u. split; [exact E|]. split; [exact L|].
  cbn [run] in H. destruct s as [|x s]; [discriminate|]. destruct (c x); [|discriminate].
  destruct (run_consumes ml adv _ _ _ _ _ H) as (v & _ & L').
  rewrite L' in L. simpl in L. lia.
Qed.

Section Scan.

Variables (c : cls) (p : regex) (t : template).
Let pat : regex := Chars Once c :: p.

Lemma scan_end b : sub_scan true pat t b 0 [] = [].
Proof. reflexivity. Qed.

Lemma scan_miss b x s :
  run true false pat (start b) (x :: s) = None ->
  sub_scan true pat t b 0 (x :: s) = x :: sub_scan true pat t (Some x) 0 s.
Proof. intros H. cbn [sub_scan]. rewrite H. reflexivity. Qed.

Lemma scan_hit b s st rest :
  run true false pat (start b) s = Some (st, rest) ->
  exists u b',
    s = u ++ rest /\ 0 < List.length u /\
    sub_scan true pat t b 0 s = expand t st ++ sub_scan true pat t b' 0 rest.
Proof.
  intros H. destruct (literal_first_len _ _ _ _ _ _ _ _ H) as (u & E & L & Hu).
  destruct s as [|x s]; [destruct u; [simpl in Hu; lia|discriminate]|].
  cbn [sub_scan]. rewrite H. simpl in L. rewrite L.
  destruct u as [|y u]; [simpl in Hu; lia|]. injection E as <- ->.
  cbn [List.length].
  destruct (sub_scan_skip true pat t (List.length u) (u ++ rest) (Some x)) as [b' Eb];
    [rewrite length_app; lia|].
  exists (x :: u), b'. split; [reflexivity|]. split; [simpl; lia|].
  rewrite Eb, skipn_app, skipn_all, Nat.sub_diag. reflexivity.
Qed.

End Scan.

(** ** The third fence substitution finds nothing *)

Lemma tick_free_app a b : tick_free a = true -> tick_free b = true -> tick_free (a ++ b) = true.
Proof. intros Ha Hb. unfold tick_free. rewrite forallb_app. apply andb_true_intro; auto. Qed.

Lemma occurs_skip x s : chr_eqb x BTICK = false -> occurs (x :: s) = occurs s.
Proof. intros H. rewrite occurs_cons, (no_tick_no_fence _ _ H). reflexivity. Qed.

Lemma twice_skip x s : chr_eqb x BTICK = false -> twice (x :: s) = twice s.
Proof. intros H. rewrite twice_cons, (no_tick_no_fence _ _ H). reflexivity. Qed.

(** The element written for a block holds no fence, and no fence reaches
    across its ends. *)
Lemma pre_tagged_clean st tag body out :
  caps st = [(2, body); (1, tag)] -> tick_free tag = true -> occurs body = false ->
  occurs (expand pre_tagged st ++ out) = occurs out
  /\ twice (expand pre_tagged st ++ out) = twice out
  /\ startswith [BTICK] (expand pre_tagged st ++ out) = false.
Proof.
  intros C Ht Hb. unfold pre_tagged. cbn [expand]. rewrite C. cbn [lookup Nat.eqb].
  rewrite <- !app_assoc. cbn [txt list_ascii_of_string app].
  split; [|split; [|reflexivity]].
  - repeat first
      [ rewrite occurs_skip by reflexivity
      | rewrite (proj1 (tick_free_prefix tag _ Ht))
      | rewrite (proj1 (fence_free_prefix body "<"%char _ Hb eq_refl)) ].
    reflexivity.
  - repeat first
      [ rewrite twice_skip by reflexivity
      | rewrite (proj2 (tick_free_prefix tag _ Ht))
      | rewrite (proj2 (fence_free_prefix body "<"%char _ Hb eq_refl)) ].
    reflexivity.
Qed.

Lemma tagged_miss b x s :
  run true false fence_tagged (start b) (x :: s) = None ->
  tagged b (x :: s) = x :: tagged (Some x) s.
Proof. exact (scan_miss (chr "`") fence_tagged_tail pre_tagged b x s). Qed.

Lemma tagged_hit b s st rest :
  run true false fence_tagged (start b) s = Some (st, rest) ->
  exists u b',
    s = u ++ rest /\ 0 < List.length u /\
    tagged b s = expand pre_tagged st ++ tagged b' rest.
Proof. exact (scan_hit (chr "`") fence_tagged_tail pre_tagged b s st rest). Qed.

Lemma tagged_tick b s :
  startswith [BTICK] (tagged b s) = true ->
  exists s', s = BTICK :: s' /\ tagged b s = BTICK :: tagged (Some BTICK) s'.
Proof.
  intros H. destruct s as [|x s]; [discriminate|].
  destruct (run true false fence_tagged (start b) (x :: s)) as [[st rest]|] eqn:R.
  - destruct (tagged_hit _ _ _ _ R) as (u & b' & _ & _ & E).
    destruct (fence_tagged_some _ _ _ _ _ _ R) as (tag & body & Ht & Hb & C).
    rewrite E, (proj2 (proj2 (pre_tagged_clean _ _ _ (tagged b' rest) C Ht Hb))) in H.
    discriminate.
  - rewrite (tagged_miss _ _ _ R) in *. cbn [startswith] in H. rewrite andb_true_r in H.
    apply chr_eqb_eq in H. subst x. eauto.
Qed.

Lemma startswith_head c p s : startswith (c :: p) s = true -> startswith [c] s = true.
Proof.
  destruct s as [|x s]; [discriminate|]. cbn [startswith]. intros H.
  apply andb_prop in H as [-> _]. reflexivity.
Qed.

Lemma startswith_tail c p x s : startswith (c :: p) (x :: s) = true -> startswith p s = true.
Proof. cbn [startswith]. intros H. apply andb_prop in H as [_ H]. exact H. Qed.

Lemma tagged_fence b s :
  startswith FENCE (tagged b s) = true ->
  exists s', s = FENCE ++ s' /\ tagged b s = FENCE ++ tagged (Some BTICK) s'.
Proof.
  change FENCE with [BTICK; BTICK; BTICK]. intros H.
  destruct (tagged_tick b s (startswith_head _ _ _ H)) as (s1 & -> & E1).
  rewrite E1 in H. apply startswith_tail in H.
  destruct (tagged_tick (Some BTICK) s1 (startswith_head _ _ _ H)) as (s2 & -> & E2).
  rewrite E2 in H. apply startswith_tail in H.
  destruct (tagged_tick (Some BTICK) s2 H) as (s3 & -> & E3).
  exists s3. rewrite E1, E2, E3. split; reflexivity.
Qed.

Lemma occurs_fence s : startswith FENCE s = true -> occurs s = true.
Proof. intros H. destruct s; [discriminate|]. rewrite occurs_cons, H. reflexivity. Qed.

Lemma fence_tagged_complete ml adv b r :
  occurs r = true -> run ml adv fence_tagged (start b) (FENCE ++ r) <> None.
Proof.
  intros H. rewrite fence_tagged_unfold.
  destruct (tag_some ml adv r
              (open_group 1 (take BTICK (take BTICK (take BTICK (start b))))) [])
    as (tag & body & rest & st' & G & _); [reflexivity|reflexivity|exact H|].
  rewrite G. discriminate.
Qed.

(** The output of the second substitution holds no fence followed by
    another: there is nothing in it for the third to match. *)
Lemma tagged_spent n : forall s b,
  List.length s < n ->
  twice (tagged b s) = false /\ (occurs (tagged b s) = true -> occurs s = true).
Proof.
  induction n as [|n IH]; intros s b Hn; [lia|].
  destruct s as [|x s]; [split; [reflexivity|discriminate]|].
  simpl List.length in Hn.
  destruct (run true false fence_tagged (start b) (x :: s)) as [[st rest]|] eqn:R.
  - destruct (tagged_hit _ _ _ _ R) as (u & b' & E & Hu & T).
    destruct (fence_tagged_some _ _ _ _ _ _ R) as (tag & body & Ht & Hb & C).
    destruct (pre_tagged_clean _ _ _ (tagged b' rest) C Ht Hb) as (O1 & O2 & _).
    assert (Hr : List.length rest < n).
    { apply (f_equal (@List.length ascii)) in E. rewrite length_app in E. simpl in E. lia. }
    destruct (IH rest b' Hr) as [I1 I2].
    rewrite T, O1, O2. split; [exact I1|].
    intros H. rewrite E. apply occurs_app_r, I2, H.
  - rewrite (tagged_miss _ _ _ R).
    assert (Hs : List.length s < n) by lia.
    destruct (IH s (Some x) Hs) as [I1 I2].
    assert (F : startswith FENCE (x :: tagged (Some x) s) = true ->
                exists s3, x :: s = FENCE ++ s3 /\
                  x :: tagged (Some x) s = FENCE ++ tagged (Some BTICK) s3).
    { intros H. rewrite <- (tagged_miss _ _ _ R) in *. apply tagged_fence, H. }
    split.
    + rewrite twice_cons, I1, orb_false_r.
      destruct (startswith FENCE (x :: tagged (Some x) s)) eqn:H; [|reflexivity].
      destruct (F eq_refl) as (s3 & E & T). rewrite T. cbn [andb].
      change (skipn 3 (FENCE ++ tagged (Some BTICK) s3)) with (tagged (Some BTICK) s3).
      destruct (occurs (tagged (Some BTICK) s3)) eqn:O; [|reflexivity].
      assert (H3 : List.length s3 < n).
      { apply (f_equal (@List.length ascii)) in E. rewrite length_app in E. simpl in E. lia. }
      destruct (IH s3 (Some BTICK) H3) as [_ J]. rewrite E in R.
      destruct (fence_tagged_complete true false b s3 (J O) R).
    + rewrite occurs_cons. intros H. apply orb_prop in H as [H|H].
      * destruct (F H) as (s3 & E & _). rewrite E. apply occurs_fence. reflexivity.
      * rewrite occurs_cons, (I2 H). apply orb_true_r.
Qed.

(** A text without a fence followed by another is left as it is by the
    third substitution. *)
Lemma plain_idle out : forall b,
  twice out = false -> sub_scan true fence_plain pre_dart b 0 out = out.
Proof.
  induction out as [|x out IH]; intros b H; [reflexivity|].
  rewrite twice_cons in H. apply orb_false_iff in H as [H1 H2].
  cbn [sub_scan]. rewrite (fence_plain_none true false b (x :: out) H1).
  rewrite (IH (Some x) H2). reflexivity.
Qed.

Theorem third_fence_pass_idle content out :
  fenced_tagged content = Ok out -> fenced_plain out = Ok out.
Proof.
  unfold fenced_tagged, fenced_plain. rewrite !re_sub_returns by reflexivity.
  intros H. injection H as <-. f_equal.
  apply plain_idle.
  apply (tagged_spent (S (List.length content)) content None). lia.
Qed.

(** ** Every fence without a tag *)

Lemma lazy_body_exact ml adv g body rest : forall st,
  tick_free body = true ->
  lazy any (run ml adv (Close g :: lit "```")) st (body ++ FENCE ++ rest)
  = run ml adv (Close g :: lit "```") (takes body st) (FENCE ++ rest).
Proof.
  induction body as [|x body IH]; intros st H.
  - cbn [app takes fold_left].
    destruct (closing_fence_some ml adv g st rest) as (st' & R & _).
    change (FENCE ++ rest) with (BTICK :: BTICK :: BTICK :: rest) in *.
    cbn [lazy]. rewrite R. reflexivity.
  - simpl in H. apply andb_prop in H as [Hx H]. apply negb_true_iff in Hx.
    cbn [app lazy]. rewrite closing_fence_none by (apply no_tick_no_fence, Hx).
    cbn [any]. apply IH, H.
Qed.

Lemma dart_scan_body body : forall b,
  tick_free body = true ->
  sub_scan true fence_dart pre_dart b 0 (body ++ FENCE) = body ++ FENCE.
Proof.
  induction body as [|x body IH]; intros b H; [reflexivity|].
  simpl in H. apply andb_prop in H as [Hx H]. apply negb_true_iff in Hx.
  cbn [app sub_scan].
  assert (R : run true false fence_dart (start b) (x :: body ++ FENCE) = None).
  { unfold fence_dart. apply no_fence_no_match, no_tick_no_fence, Hx. }
  rewrite R, (IH (Some x) H). reflexivity.
Qed.

Lemma untagged_fence_dart_pass body :
  tick_free body = true ->
  fenced_dart (FENCE ++ LF :: body ++ FENCE) = Ok (FENCE ++ LF :: body ++ FENCE).
Proof.
  intros H. unfold fenced_dart. rewrite re_sub_returns by reflexivity. f_equal.
  change (sub_scan true fence_dart pre_dart None 0 (FENCE ++ LF :: body ++ FENCE))
    with (FENCE ++ LF :: sub_scan true fence_dart pre_dart (Some LF) 0 (body ++ FENCE)).
  rewrite dart_scan_body by exact H. reflexivity.
Qed.

Lemma after_tag_newline ml adv st s :
  run ml adv after_tag st (LF :: s)
  = match lazy any (run ml adv (Close 2 :: lit "```"))
            (open_group 2 (take LF (close_group 1 st))) s with
    | Some r => Some r
    | None => lazy any (run ml adv (Close 2 :: lit "```"))
                (open_group 2 (close_group 1 st)) (LF :: s)
    end.
Proof. reflexivity. Qed.

Lemma untagged_fence_match body :
  tick_free body = true ->
  exists st,
    run true false fence_tagged (start None) (FENCE ++ LF :: body ++ FENCE) = Some (st, [])
    /\ caps st = [(2, body); (1, [])].
Proof.
  intros H. rewrite fence_tagged_unfold.
  cbn [greedy]. change (alpha LF) with false. cbv iota.
  rewrite after_tag_newline.
  pose proof (lazy_body_exact true false 2 body []) as L. rewrite app_nil_r in L.
  rewrite L by exact H.
  match goal with |- context [run true false _ ?st0 FENCE] =>
    destruct (closing_fence_some true false 2 st0 []) as (st' & R & C) end.
  rewrite app_nil_r in R. rewrite R. exists st'. split; [reflexivity|].
  rewrite C. unfold close_group. rewrite takes_opened, takes_caps. simpl.
  rewrite app_nil_r, rev_involutive. reflexivity.
Qed.

Lemma untagged_fence_any_body body :
  tick_free body = true ->
  code_blocks (FENCE ++ LF :: body ++ FENCE)
  = Ok (txt "<pre class=" ++ quoted (txt "language- line-numbers")
        ++ txt "><code class=" ++ quoted (txt "language-") ++ txt ">"
        ++ body ++ txt "</code></pre>").
Proof.
  intros H. unfold code_blocks.
  rewrite untagged_fence_dart_pass by exact H. cbn [bind].
  assert (T : fenced_tagged (FENCE ++ LF :: body ++ FENCE)
              = Ok (txt "<pre class=" ++ quoted (txt "language- line-numbers")
                    ++ txt "><code class=" ++ quoted (txt "language-") ++ txt ">"
                    ++ body ++ txt "</code></pre>")).
  { unfold fenced_tagged. rewrite re_sub_returns by reflexivity. f_equal.
    destruct (untagged_fence_match body H) as (st & R & C).
    destruct (tagged_hit _ _ _ _ R) as (u & b' & _ & _ & E).
    unfold tagged in E. rewrite E. unfold pre_tagged. cbn [expand]. rewrite C.
    cbn [lookup Nat.eqb sub_scan]. 
    change (run true false fence_tagged (start b') []) with (@None (mstate * str)).
    cbv iota. rewrite app_nil_r. cbn [txt list_ascii_of_string app quoted].
    reflexivity. }
  rewrite T. cbn [bind]. exact (third_fence_pass_idle _ _ T).
Qed.

(** * The specification *)

(** ** Fenced code blocks *)

Example dart_fence :
  convert_markdown_to_html (txt "```dart" ++ [LF] ++ txt "x" ++ [LF] ++ txt "```")
  = Ok (txt "<pre class=" ++ quoted (txt "language-dart line-numbers")
        ++ txt "><code class=" ++ quoted (txt "language-dart") ++ txt ">x"
        ++ [LF] ++ txt "</code></pre>").
Proof. vm_compute. reflexivity. Qed.

Example python_fence :
  convert_markdown_to_html (txt "```python" ++ [LF] ++ txt "x" ++ [LF] ++ txt "```")
  = Ok (txt "<pre class=" ++ quoted (txt "language-python line-numbers")
        ++ txt "><code class=" ++ quoted (txt "language-python") ++ txt ">x"
        ++ [LF] ++ txt "</code></pre>").
Proof. vm_compute. reflexivity. Qed.

(** The second substitution already takes a fence without a tag: its tag
    group matches the empty string. *)
Example untagged_fence_taken_by_second_pass :
  fenced_tagged (txt "```" ++ [LF] ++ txt "x" ++ [LF] ++ txt "```")
  = Ok (txt "<pre class=" ++ quoted (txt "language- line-numbers")
        ++ txt "><code class=" ++ quoted (txt "language-") ++ txt ">x"
        ++ [LF] ++ txt "</code></pre>").
Proof. vm_compute. reflexivity. Qed.

(** What the third substitution does when it is reached. *)
Example untagged_fence_third_pass_alone :
  fenced_plain (txt "```" ++ [LF] ++ txt "x" ++ [LF] ++ txt "```")
  = Ok (txt "<pre class=" ++ quoted (txt "language-dart line-numbers")
        ++ txt "><code class=" ++ quoted (txt "language-dart") ++ txt ">x"
        ++ [LF] ++ txt "</code></pre>").
Proof. vm_compute. reflexivity. Qed.

(** C1: a fenced block is to get the class suffix [dart] when its fence is
    tagged [dart], the tag when it has another one, and [dart] when it has
    none.  On the fence without a tag the converter leaves the suffix
    empty: the block is consumed by the second substitution, and the third,
    which would give [dart], finds nothing left. *)
Theorem untagged_fence_class_suffix_is_empty :
  convert_markdown_to_html (txt "```" ++ [LF] ++ txt "x" ++ [LF] ++ txt "```")
  = Ok (txt "<pre class=" ++ quoted (txt "language- line-numbers")
        ++ txt "><code class=" ++ quoted (txt "language-") ++ txt ">x"
        ++ [LF] ++ txt "</code></pre>").
Proof. vm_compute. reflexivity. Qed.

(** ** The list scanner *)

(** A numbered line met while a bullet run is open: [<ol>] is appended
    first, [</ul>] after it. *)
Lemma numbered_line_in_bullet_run sc line :
  classify line = Numbered -> in_ul sc = true -> in_ol sc = false ->
  exists item,
    scan_line sc line
    = Ok (Scan (result sc ++ [txt "<ol>"; txt "</ul>"; item]) false true).
Proof.
  intros K U O. unfold scan_line. rewrite K, O. cbn [negb].
  rewrite re_sub_returns by reflexivity. cbn [bind].
  eexists. unfold append, set_in_ul, set_in_ol. cbn [result in_ul in_ol].
  rewrite U. cbn [result in_ul in_ol]. rewrite <- !app_assoc. reflexivity.
Qed.

(** A bullet line met while a numbered run is open: [<ul>] is appended
    first, [</ol>] after it. *)
Lemma bullet_line_in_numbered_run sc line :
  classify line = Bullet -> in_ul sc = false -> in_ol sc = true ->
  scan_line sc line
  = Ok (Scan (result sc ++ [txt "<ul>"; txt "</ol>"; li (skipn 2 line)]) true false).
Proof.
  intros K U O. unfold scan_line. rewrite K, U. cbn [negb].
  unfold append, set_in_ul, set_in_ol. cbn [result in_ul in_ol].
  rewrite O. cbn [result in_ul in_ol]. rewrite <- !app_assoc. reflexivity.
Qed.

(** C2: on a switch of list kind the closing tag of the open run is to come
    before the opening tag of the new run.  For a bullet line followed by a
    numbered line the scanner emits [<ol>] and only then [</ul>]. *)
Theorem numbered_run_opens_before_bullet_run_closes :
  list_lines [txt "- a"; txt "1\. b"]
  = Ok [txt "<ul>"; txt "<li>a</li>"; txt "<ol>"; txt "</ul>"; txt "<li>b</li>";
        txt "</ol>"]
  /\ convert_markdown_to_html (txt "- a" ++ [LF] ++ txt "1\. b")
     = Ok (txt "<ul>" ++ [LF] ++ txt "<li>a</li>" ++ [LF] ++ txt "<ol>" ++ [LF]
           ++ txt "</ul>" ++ [LF] ++ txt "<li>b</li>" ++ [LF] ++ txt "</ol>").
Proof. split; vm_compute; reflexivity. Qed.

(** ** The whole transform *)

(** C3: the end-to-end scenario gives, in order, the heading, a blank line,
    the paragraph with the emphasis, a blank line, the opening list tag, the
    two items and the closing list tag. *)
Theorem end_to_end_scenario :
  convert_markdown_to_html
    (txt "# Title" ++ [LF; LF] ++ txt "Some *text*." ++ [LF; LF]
     ++ txt "- one" ++ [LF] ++ txt "- two" ++ [LF])
  = Ok (join [LF]
          [txt "<h1>Title</h1>"; [];
           txt "<p>Some <em>text</em>.</p>"; [];
           txt "<ul>"; txt "<li>one</li>"; txt "<li>two</li>"; txt "</ul>"; []])
  /\ join [LF]
          [txt "<h1>Title</h1>"; [];
           txt "<p>Some <em>text</em>.</p>"; [];
           txt "<ul>"; txt "<li>one</li>"; txt "<li>two</li>"; txt "</ul>"; []]
     = txt "<h1>Title</h1>" ++ [LF; LF] ++ txt "<p>Some <em>text</em>.</p>" ++ [LF; LF]
       ++ txt "<ul>" ++ [LF] ++ txt "<li>one</li>" ++ [LF] ++ txt "<li>two</li>" ++ [LF]
       ++ txt "</ul>" ++ [LF].
Proof. split; vm_compute; reflexivity. Qed.

(** ** Numbered items *)

(** C4, as the code has it: a line is a numbered item exactly when it starts
    with one or more digits, a backslash, one character of any kind other
    than a newline, and a space; [1. item] is not one and passes through the
    scanner unchanged. *)
Theorem numbered_item_is_digits_backslash_any_space : forall line,
  (classify line = Numbered <-> numbered_shape line)
  /\ classify (txt "1. item") = Other
  /\ list_lines [txt "1. item"] = Ok [txt "1. item"].
Proof.
  intros line. split; [apply classify_numbered|].
  split; vm_compute; reflexivity.
Qed.

(** The character after the backslash need not be a period. *)
Lemma numbered_item_without_period :
  classify (txt "1\x item") = Numbered
  /\ ~ period_shape (txt "1\x item")
  /\ list_lines [txt "1\x item"] = Ok [txt "<ol>"; txt "<li>item</li>"; txt "</ol>"].
Proof.
  split; [vm_compute; reflexivity|]. split; [|vm_compute; reflexivity].
  intros (ds & rest & Hds & Dds & E).
  destruct ds as [|d [|d' ds]]; [congruence| |].
  - simpl in E. discriminate E.
  - simpl in E. injection E as _ <- _. simpl in Dds.
    rewrite andb_false_r in Dds. discriminate Dds.
Qed.

(** ** Links *)

(** C5, as the code has it: the link rewriter turns [[text](http://x)] into
    the anchor, and the paragraph pass leaves that line alone, because it
    begins with [<]; the anchor is the final output. *)
Theorem isolated_link_stays_bare :
  links (txt "[text](http://x)")
  = Ok (txt "<a href=" ++ quoted (txt "http://x") ++ txt ">text</a>")
  /\ wrap_paragraphs (txt "<a href=" ++ quoted (txt "http://x") ++ txt ">text</a>")
     = txt "<a href=" ++ quoted (txt "http://x") ++ txt ">text</a>"
  /\ convert_markdown_to_html (txt "[text](http://x)")
     = Ok (txt "<a href=" ++ quoted (txt "http://x") ++ txt ">text</a>").
Proof. repeat split; vm_compute; reflexivity. Qed.

(** The output for the isolated link is not the anchor inside a paragraph. *)
Lemma isolated_link_is_not_wrapped :
  ~ (links (txt "[text](http://x)")
     = Ok (txt "<a href=" ++ quoted (txt "http://x") ++ txt ">text</a>")
     /\ convert_markdown_to_html (txt "[text](http://x)")
        = Ok (txt "<p><a href=" ++ quoted (txt "http://x") ++ txt ">text</a></p>")).
Proof. intros [_ H]. vm_compute in H. discriminate H. Qed.

(** ** Paragraphs *)

(** C6, as the code has it: a second run of the paragraph pass changes
    nothing.  Every line the first run wrapped begins with [<], and the pass
    leaves such lines alone, so no [<p>] line is wrapped again. *)
Theorem wrap_paragraphs_idempotent : forall content,
  wrap_paragraphs (wrap_paragraphs content) = wrap_paragraphs content.
Proof.
  intros content.
  unfold wrap_paragraphs at 1. rewrite wrap_paragraphs_lines, map_map.
  unfold wrap_paragraphs. f_equal.
  apply map_ext. intros l. apply wrap_line_again.
Qed.

(** No document has, after the pass, a [<p>] line that the pass would wrap
    once more. *)
Lemma p_line_never_rewrapped :
  ~ exists content line,
      In line (split LF (wrap_paragraphs content)) /\
      startswith (txt "<p>") line = true /\
      wrap_line line = txt "<p>" ++ line ++ txt "</p>".
Proof.
  intros (content & line & _ & Hp & Hw).
  rewrite wrap_line_markup in Hw.
  - apply (f_equal (@List.length ascii)) in Hw.
    rewrite !length_app in Hw. simpl in Hw. lia.
  - apply (startswith_trans (txt "<") (txt "<p>")); [reflexivity|exact Hp].
Qed.

(** C9: in the paragraph pass blankness is decided on the trimmed line and
    the markup check on the line as it stands.  The trimmed line is empty
    exactly when the line has no character that is not whitespace; a line
    that begins with a whitespace character is wrapped when it has such a
    character, whatever follows the indentation, and left as it is when it
    has none; the line of two spaces and [<ul>] becomes a paragraph. *)
Theorem indented_line_is_wrapped : forall content i c rest,
  nth_error (split LF content) i = Some (c :: rest) ->
  is_space c = true ->
  truthy (strip (c :: rest)) = has_text (c :: rest)
  /\ wrap_line (c :: rest)
     = (if has_text (c :: rest) then txt "<p>" ++ (c :: rest) ++ txt "</p>" else c :: rest)
  /\ nth_error (split LF (wrap_paragraphs content)) i
     = Some (if has_text (c :: rest)
             then txt "<p>" ++ (c :: rest) ++ txt "</p>" else c :: rest)
  /\ wrap_paragraphs (txt "  <ul>") = txt "<p>  <ul></p>".
Proof.
  intros content i c rest Hi Hc.
  assert (W : wrap_line (c :: rest)
              = (if has_text (c :: rest)
                 then txt "<p>" ++ (c :: rest) ++ txt "</p>" else c :: rest)).
  { destruct (has_text (c :: rest)) eqn:Ht.
    - exact (wrap_line_indented c rest Hc Ht).
    - unfold wrap_line. rewrite (strip_blank _ Ht). reflexivity. }
  split.
  - destruct (has_text (c :: rest)) eqn:Ht.
    + exact (strip_text _ Ht).
    + rewrite (strip_blank _ Ht). reflexivity.
  - split; [exact W|]. split; [|vm_compute; reflexivity].
    rewrite wrap_paragraphs_lines, nth_error_map, Hi. cbn [option_map]. rewrite W.
    reflexivity.
Qed.

Lemma indented_line_is_wrapped_witness :
  nth_error (split LF (txt "a" ++ [LF] ++ txt "  <ul>" ++ [LF] ++ txt "   ")) 1
  = Some (txt "  <ul>")
  /\ nth_error (split LF (txt "a" ++ [LF] ++ txt "  <ul>" ++ [LF] ++ txt "   ")) 2
     = Some (txt "   ")
  /\ is_space " " = true
  /\ truthy (strip (txt "  <ul>")) = true
  /\ truthy (strip (txt "   ")) = false
  /\ nth_error
       (split LF (wrap_paragraphs (txt "a" ++ [LF] ++ txt "  <ul>" ++ [LF] ++ txt "   "))) 1
     = Some (txt "<p>  <ul></p>")
  /\ nth_error
       (split LF (wrap_paragraphs (txt "a" ++ [LF] ++ txt "  <ul>" ++ [LF] ++ txt "   "))) 2
     = Some (txt "   ").
Proof.
  pose (doc := txt "a" ++ [LF] ++ txt "  <ul>" ++ [LF] ++ txt "   ").
  assert (A : nth_error (split LF doc) 1 = Some (txt "  <ul>")) by reflexivity.
  assert (B : nth_error (split LF doc) 2 = Some (txt "   ")) by reflexivity.
  assert (S : is_space " " = true) by reflexivity.
  destruct (indented_line_is_wrapped doc 1 " "%char (txt " <ul>") A S) as (T1 & _ & N1 & _).
  destruct (indented_line_is_wrapped doc 2 " "%char (txt "  ") B S) as (T2 & _ & N2 & _).
  split; [exact A|]. split; [exact B|]. split; [exact S|].
  split; [exact T1|]. split; [exact T2|]. split; [exact N1|exact N2].
Defined.

(** ** No failure *)

(** C7: for every input string the transform returns a string; no
    substitution raises [re.error], whatever the input. *)
Theorem convert_markdown_to_html_returns : forall content,
  exists html, convert_markdown_to_html content = Ok html.
Proof.
  intros content.
  unfold convert_markdown_to_html, code_blocks, fenced_dart, fenced_tagged, fenced_plain,
    inline_code, headers, lists, list_lines, emphasis, links.
  repeat (rewrite re_sub_returns by reflexivity; cbn [bind]).
  match goal with |- context [scan_lines ?sc ?ls] =>
    destruct (scan_lines_returns ls sc) as [sc' ->] end.
  cbn [bind]. eexists. reflexivity.
Qed.

(** ** The template *)

Example template_scenario :
  final_html (txt "<html>{{TITLE}}{{CONTENT}}</html>") (txt "T") (txt "<p>x</p>")
  = txt "<html>T<p>x</p></html>".
Proof. vm_compute. reflexivity. Qed.



(** ** Inline code *)

(** C10: the inline-code rewriter converts a span only when a character
    stands between the backticks: every match of its pattern holds a
    non-empty body, and the stage leaves two adjacent backticks as they
    are. *)
Theorem inline_code_needs_a_character : forall before adv s st rest,
  run false adv inline_span (start before) s = Some (st, rest) ->
  (exists body,
     body <> [] /\ forallb (none_of [BTICK; LF]) body = true /\
     s = BTICK :: body ++ BTICK :: rest /\ lookup 1 (caps st) = Some body)
  /\ inline_code (txt "``") = Ok (txt "``").
Proof.
  intros before adv s st rest H. split.
  - eapply inline_span_match, H.
  - vm_compute. reflexivity.
Qed.

Lemma inline_code_needs_a_character_witness :
  run false false inline_span (start None) (txt "`a`")
  = Some (MState (Some BTICK) 3 [] [(1, txt "a")], [])
  /\ (exists body,
        body <> [] /\ forallb (none_of [BTICK; LF]) body = true /\
        txt "`a`" = BTICK :: body ++ [BTICK] /\ Some (txt "a") = Some body)
  /\ inline_code (txt "``") = Ok (txt "``").
Proof.
  split; [reflexivity|].
  apply (inline_code_needs_a_character None false (txt "`a`")
           (MState (Some BTICK) 3 [] [(1, txt "a")]) []).
  reflexivity.
Defined.

(** * Further properties *)

(** ** The scan of [re.sub], in general *)

Lemma last_of_app b u v : last_of b (u ++ v) = last_of (last_of b u) v.
Proof. unfold last_of. apply fold_left_app. Qed.

Lemma last_of_cons b x u : last_of b (x :: u) = last_of (Some x) u.
Proof. reflexivity. Qed.

Lemma prev_close_group g st : prev (close_group g st) = prev st.
Proof. unfold close_group. destruct (lookup g (opened st)); reflexivity. Qed.

Lemma greedy_tracks c k : tracks k -> tracks (greedy c k).
Proof.
  intros Hk st s. revert st. induction s as [|x s IH]; intros st st' rest H; simpl in H.
  - apply Hk, H.
  - destruct (c x); [|apply Hk, H].
    destruct (greedy c k (take x st) s) as [[st1 r1]|] eqn:G; [|apply Hk, H].
    injection H as -> ->. destruct (IH _ _ _ G) as (u & -> & L & P).
    exists (x :: u). split; [reflexivity|]. rewrite L, P. simpl. split; [lia|reflexivity].
Qed.

Lemma lazy_tracks c k : tracks k -> tracks (lazy c k).
Proof.
  intros Hk st s. revert st. induction s as [|x s IH]; intros st st' rest H; simpl in H.
  - destruct (k st []) eqn:K; [|discriminate]. injection H as ->. apply Hk, K.
  - destruct (k st (x :: s)) eqn:K.
    + injection H as ->. apply Hk, K.
    + destruct (c x); [|discriminate]. destruct (IH _ _ _ H) as (u & -> & L & P).
      exists (x :: u). split; [reflexivity|]. rewrite L, P. simpl. split; [lia|reflexivity].
Qed.

Lemma run_tracks ml adv p : tracks (run ml adv p).
Proof.
  induction p as [|i p IH]; intros st s st' rest H.
  - simpl in H. destruct (adv && (len st =? 0)); [discriminate|].
    injection H as <- <-. exists []. simpl. repeat split; lia.
  - assert (Step : forall x s1, run ml adv p (take x st) s1 = Some (st', rest) ->
              exists u, x :: s1 = u ++ rest /\ len st' = len st + List.length u
                        /\ prev st' = last_of (prev st) u).
    { intros x s1 H1. destruct (IH _ _ _ _ H1) as (u & -> & L & P).
      exists (x :: u). split; [reflexivity|]. rewrite L, P. simpl. split; [lia|reflexivity]. }
    destruct i as [q c|g|g| |]; cbn [run] in H.
    + destruct q.
      * destruct s as [|x s]; [discriminate|]. destruct (c x); [|discriminate]. auto.
      * destruct s as [|x s]; [apply IH, H|]. destruct (c x); [|apply IH, H].
        destruct (run ml adv p (take x st) s) as [r|] eqn:G; [|apply IH, H].
        injection H as ->. auto.
      * apply (greedy_tracks c _ IH), H.
      * destruct s as [|x s]; [discriminate|]. destruct (c x); [|discriminate].
        destruct (greedy_tracks c _ IH _ _ _ _ H) as (u & -> & L & P).
        exists (x :: u). split; [reflexivity|]. rewrite L, P. simpl. split; [lia|reflexivity].
      * apply (lazy_tracks c _ IH), H.
    + apply IH in H. exact H.
    + apply IH in H. rewrite len_close_group, prev_close_group in H. exact H.
    + destruct (at_bol ml st); [apply IH, H|discriminate].
    + destruct (at_eol ml s); [apply IH, H|discriminate].
Qed.

(** Passing over the characters of a match. *)
Lemma sub_scan_pass ml p t k : forall s b,
  k <= List.length s ->
  sub_scan ml p t b k s = sub_scan ml p t (last_of b (firstn k s)) 0 (skipn k s).
Proof.
  induction k as [|k IH]; intros s b Hk; [reflexivity|].
  destruct s as [|x s]; [simpl in Hk; lia|].
  simpl in Hk. cbn [sub_scan firstn skipn]. rewrite IH by lia. reflexivity.
Qed.

(** After a match that is not empty the scan writes the replacement and
    goes on behind the match. *)
Lemma sub_scan_hit ml p t b s st rest :
  run ml false p (start b) s = Some (st, rest) -> 0 < len st ->
  sub_scan ml p t b 0 s = expand t st ++ sub_scan ml p t (prev st) 0 rest.
Proof.
  intros H L. destruct (run_tracks _ _ _ _ _ _ _ H) as (u & E & Lu & P).
  simpl in Lu, P. destruct u as [|y u]; [simpl in Lu; lia|].
  subst s. simpl in Lu. cbn [app sub_scan]. cbn [app] in H. rewrite H, Lu.
  rewrite sub_scan_pass by (rewrite length_app; lia).
  rewrite firstn_app, firstn_all, Nat.sub_diag, skipn_app, skipn_all, Nat.sub_diag.
  cbn [firstn skipn app]. rewrite app_nil_r, P. reflexivity.
Qed.

(** Where no attempt succeeds the scan copies the text. *)
Lemma sub_scan_copy ml p t a : forall b s,
  (forall u x v, a = u ++ x :: v ->
     run ml false p (start (last_of b u)) (x :: v ++ s) = None) ->
  sub_scan ml p t b 0 (a ++ s) = a ++ sub_scan ml p t (last_of b a) 0 s.
Proof.
  induction a as [|x a IH]; intros b s H; [reflexivity|].
  pose proof (H [] x a eq_refl) as H0. cbn [last_of fold_left] in H0.
  cbn [app sub_scan]. rewrite H0. f_equal.
  rewrite IH; [reflexivity|].
  intros u y v E. apply (H (x :: u) y v). rewrite E. reflexivity.
Qed.

Lemma sub_scan_nil ml p t b :
  run ml false p (start b) [] = None -> sub_scan ml p t b 0 [] = [].
Proof. intros H. cbn [sub_scan]. rewrite H. reflexivity. Qed.

Lemma needs_literal c p : needs c (Chars Once (chr c) :: p).
Proof.
  intros ml adv st [|x s] H; cbn [run]; [reflexivity|].
  unfold chr. rewrite H. reflexivity.
Qed.

Lemma needs_bol_literal c p : needs c (Bol :: Chars Once (chr c) :: p).
Proof.
  intros ml adv st s H. cbn [run]. destruct (at_bol ml st); [|reflexivity].
  apply (needs_literal c p ml adv st s H).
Qed.

(** A substitution whose pattern needs a character leaves a text without
    that character as it is. *)
Lemma sub_scan_lacks ml p t c a : needs c p -> lacks c a ->
  forall b, sub_scan ml p t b 0 a = a.
Proof.
  intros N L b. rewrite <- (app_nil_r a) at 1. rewrite sub_scan_copy.
  - rewrite sub_scan_nil; [apply app_nil_r|]. apply N. exact I.
  - intros u x v E. apply N. subst a. apply Forall_app in L as [_ L].
    inversion L; assumption.
Qed.

Lemma re_sub_lacks ml p t c a : needs c p -> lacks c a ->
  bad_reference p t = None -> re_sub ml p t a = Ok a.
Proof.
  intros N L B. rewrite re_sub_returns by exact B. f_equal.
  apply (sub_scan_lacks ml p t c a N L).
Qed.

(** ** Lines that are no list items *)

Lemma scan_lines_other lines : forall sc,
  Forall (fun l => classify l = Other) lines ->
  in_ul sc = false -> in_ol sc = false ->
  scan_lines sc lines = Ok (Scan (result sc ++ lines) false false).
Proof.
  induction lines as [|l lines IH]; intros [r u o] H U O; simpl in U, O; subst.
  - simpl. rewrite app_nil_r. reflexivity.
  - inversion H as [|? ? Hl Hls]; subst. cbn [scan_lines]. unfold scan_line. rewrite Hl.
    cbn [in_ul in_ol append result bind]. rewrite IH; [|exact Hls|reflexivity|reflexivity].
    unfold append. cbn [result]. rewrite <- app_assoc. reflexivity.
Qed.

Lemma list_lines_other lines :
  Forall (fun l => classify l = Other) lines -> list_lines lines = Ok lines.
Proof.
  intros H. unfold list_lines. rewrite scan_lines_other by (exact H || reflexivity).
  reflexivity.
Qed.

Lemma lists_other content :
  Forall (fun l => classify l = Other) (split LF content) -> lists content = Ok content.
Proof.
  intros H. unfold lists. rewrite list_lines_other by exact H. cbn [bind].
  rewrite join_split. reflexivity.
Qed.

Lemma plain_text_passes content :
  plain content ->
  Forall (fun l => classify l = Other) (split LF content) ->
  convert_markdown_to_html content = Ok (wrap_paragraphs content).
Proof.
  intros (Ht & Hh & Hs & Hl) Ho.
  unfold convert_markdown_to_html, code_blocks, fenced_dart, fenced_tagged, fenced_plain,
    inline_code, headers, emphasis, links.
  rewrite (re_sub_lacks true fence_dart pre_dart BTICK content)
    by (apply needs_literal || assumption || reflexivity). cbn [bind].
  rewrite (re_sub_lacks true fence_tagged pre_tagged BTICK content)
    by (apply needs_literal || assumption || reflexivity). cbn [bind].
  rewrite (re_sub_lacks true fence_plain pre_dart BTICK content)
    by (apply needs_literal || assumption || reflexivity). cbn [bind].
  rewrite (re_sub_lacks false inline_span code_element BTICK content)
    by (apply needs_literal || assumption || reflexivity). cbn [bind].
  rewrite (re_sub_lacks true (header_line "#") (header_element "h1") "#" content)
    by (apply needs_bol_literal || assumption || reflexivity). cbn [bind].
  rewrite (re_sub_lacks true (header_line "##") (header_element "h2") "#" content)
    by (apply needs_bol_literal || assumption || reflexivity). cbn [bind].
  rewrite (re_sub_lacks true (header_line "###") (header_element "h3") "#" content)
    by (apply needs_bol_literal || assumption || reflexivity). cbn [bind].
  rewrite (re_sub_lacks true (header_line "####") (header_element "h4") "#" content)
    by (apply needs_bol_literal || assumption || reflexivity). cbn [bind].
  rewrite lists_other by exact Ho. cbn [bind].
  rewrite (re_sub_lacks false bold_span strong_element "*" content)
    by (apply needs_literal || assumption || reflexivity). cbn [bind].
  rewrite (re_sub_lacks false italic_span em_element "*" content)
    by (apply needs_literal || assumption || reflexivity). cbn [bind].
  rewrite (re_sub_lacks false link_span anchor_element "[" content)
    by (apply needs_literal || assumption || reflexivity). cbn [bind].
  reflexivity.
Qed.

(** ** The paragraph pass, line by line *)

Lemma truthy_strip s : truthy (strip s) = has_text s.
Proof.
  destruct (has_text s) eqn:H.
  - apply strip_text, H.
  - rewrite strip_blank by exact H. reflexivity.
Qed.

Lemma wrap_line_cases line :
  wrap_line line
  = if has_text line && negb (startswith (txt "<") line)
    then txt "<p>" ++ line ++ txt "</p>" else line.
Proof.
  unfold wrap_line. rewrite truthy_strip.
  destruct (startswith (txt "<") line) eqn:S.
  - rewrite andb_false_r. reflexivity.
  - assert (B : str_eqb line (txt "<br>") = false).
    { destruct line as [|x line]; [reflexivity|].
      cbn [txt list_ascii_of_string startswith str_eqb] in *.
      rewrite andb_true_r in S. rewrite chr_eqb_sym, S. reflexivity. }
    rewrite B, !andb_true_r. reflexivity.
Qed.

(** ** The list scanner *)

Lemma classify_bullet item : classify (txt "- " ++ item) = Bullet.
Proof.
  unfold classify.
  rewrite (proj2 (bullet_marker_match (txt "- " ++ item))) by (exists item; reflexivity).
  reflexivity.
Qed.

Lemma scan_line_flags sc line :
  exists sc', scan_line sc line = Ok sc'
    /\ in_ul sc' = match classify line with Bullet => true | _ => false end
    /\ in_ol sc' = match classify line with Numbered => true | _ => false end.
Proof.
  unfold scan_line. destruct (classify line).
  - eexists. split; [reflexivity|].
    destruct sc as [r [] []]; split; reflexivity.
  - rewrite re_sub_returns by reflexivity. eexists. split; [reflexivity|].
    destruct sc as [r [] []]; split; reflexivity.
  - eexists. split; [reflexivity|].
    destruct sc as [r [] []]; split; reflexivity.
Qed.

Lemma scan_bullets items : forall sc,
  in_ul sc = true -> in_ol sc = false ->
  scan_lines sc (map (fun i => txt "- " ++ i) items)
  = Ok (Scan (result sc ++ map li items) true false).
Proof.
  induction items as [|i items IH]; intros [r u o] U O; simpl in U, O; subst.
  - simpl. rewrite app_nil_r. reflexivity.
  - cbn [map scan_lines]. unfold scan_line. rewrite classify_bullet.
    cbn [in_ul in_ol negb bind]. rewrite IH by reflexivity.
    unfold append. cbn [result]. rewrite <- app_assoc. reflexivity.
Qed.

Lemma while_run c l tail :
  forallb c l = true ->
  match tail with [] => True | x :: _ => c x = false end ->
  while c (l ++ tail) = l /\ after c (l ++ tail) = tail.
Proof.
  intros Hl Ht. destruct tail as [|x tail].
  - rewrite app_nil_r. clear Ht. induction l as [|y l IH]; simpl; [auto|].
    simpl in Hl. apply andb_prop in Hl as [Hy Hl]. rewrite Hy.
    destruct (IH Hl) as [-> ->]. auto.
  - apply while_stops; assumption.
Qed.

(** A repetition of one or more, followed by something that cannot begin
    inside the repeated class, takes exactly the run in front of it. *)
Lemma plus_run ml adv c p st body tail :
  (forall st x s, c x = true -> run ml adv p st (x :: s) = None) ->
  body <> [] -> forallb c body = true ->
  match tail with [] => True | x :: _ => c x = false end ->
  run ml adv (Chars Plus c :: p) st (body ++ tail) = run ml adv p (takes body st) tail.
Proof.
  intros Hk Hb Hc Ht. destruct body as [|y body]; [congruence|].
  simpl in Hc. apply andb_prop in Hc as [Hy Hc].
  cbn [app run]. rewrite Hy, greedy_whole_run by exact Hk.
  destruct (while_run c body tail Hc Ht) as [-> ->]. reflexivity.
Qed.

Lemma caps_take x st : caps (take x st) = caps st.
Proof. reflexivity. Qed.

(** A group keeps the text taken between its two ends. *)
Lemma caps_group g body st :
  caps (close_group g (takes body (open_group g st))) = (g, body) :: caps st.
Proof.
  unfold close_group. rewrite takes_opened, takes_caps.
  cbn [open_group opened caps map fst snd lookup]. rewrite Nat.eqb_refl.
  cbn [caps]. rewrite app_nil_r, rev_involutive. reflexivity.
Qed.

Lemma len_group g body st :
  len (close_group g (takes body (open_group g st))) = len st + List.length body.
Proof. rewrite len_close_group, takes_len. reflexivity. Qed.

Lemma last_of_some x u : exists y, last_of (Some x) u = Some y.
Proof.
  revert x. induction u as [|z u IH]; intros x; [exists x; reflexivity|].
  rewrite last_of_cons. apply IH.
Qed.

(** Without [re.MULTILINE] a pattern anchored by [^] matches at the start of
    the text only. *)
Lemma bol_after_start adv p x s :
  run false adv (Bol :: p) (start (Some x)) s = None.
Proof. reflexivity. Qed.

Lemma sub_scan_anchored p t item : forall x,
  sub_scan false (Bol :: p) t (Some x) 0 item = item.
Proof.
  intros x. rewrite <- (app_nil_r item) at 1. rewrite sub_scan_copy.
  - destruct (last_of_some x item) as [y ->]. rewrite sub_scan_nil by reflexivity.
    apply app_nil_r.
  - intros u z v _. destruct (last_of_some x u) as [y ->]. reflexivity.
Qed.

Lemma bol_at_start ml adv p s :
  run ml adv (Bol :: p) (start None) s = run ml adv p (start None) s.
Proof. reflexivity. Qed.

Lemma numbered_marker_run ds c item :
  marker_ok (ds, c, item) ->
  exists st,
    run false false numbered_marker (start None) (numbered_line (ds, c, item)) = Some (st, item)
    /\ 0 < len st /\ prev st = Some " "%char.
Proof.
  intros (Hds & Dds & Hc). unfold numbered_marker, numbered_line.
  cbn [app lit txt list_ascii_of_string map]. rewrite bol_at_start.
  rewrite plus_run; [|intros st0 x0 s0 Hx0; cbn [run];
                      destruct (digit_is_no_marker _ Hx0) as [-> _]; reflexivity
                    |exact Hds|exact Dds|reflexivity].
  cbn [run]. change (chr BSLASH BSLASH) with true. cbv iota.
  assert (Ec : dot false c = true)
    by (unfold dot; simpl; apply negb_true_iff, chr_eqb_neq, Hc).
  rewrite Ec. change (chr " " " "%char) with true. cbv iota. cbn [andb].
  eexists. split; [reflexivity|]. split; [cbn [take len]; lia|reflexivity].
Qed.

(** The marker is cut off and the rest of the line is kept as it is. *)
Lemma cleaned_line ds c item :
  marker_ok (ds, c, item) ->
  re_sub false numbered_marker [] (numbered_line (ds, c, item)) = Ok item.
Proof.
  intros H. destruct (numbered_marker_run ds c item H) as (st & R & L & P).
  rewrite re_sub_returns by reflexivity. f_equal.
  rewrite (sub_scan_hit _ _ _ _ _ _ _ R L), P.
  cbn [expand app]. apply (sub_scan_anchored _ [] item " "%char).
Qed.

Lemma classify_numbered_line e : marker_ok e -> classify (numbered_line e) = Numbered.
Proof.
  destruct e as [[ds c] item]. intros (Hds & Dds & Hc).
  apply classify_numbered. exists ds, c, item. auto.
Qed.

Lemma scan_numbered entries : forall sc,
  Forall marker_ok entries -> in_ul sc = false -> in_ol sc = true ->
  scan_lines sc (map numbered_line entries)
  = Ok (Scan (result sc ++ map (fun e => li (item_of e)) entries) false true).
Proof.
  induction entries as [|e entries IH]; intros [r u o] H U O; simpl in U, O; subst.
  - simpl. rewrite app_nil_r. reflexivity.
  - inversion H as [|? ? He Hes]; subst.
    cbn [map scan_lines]. unfold scan_line. rewrite (classify_numbered_line e He).
    cbn [in_ul in_ol negb]. destruct e as [[ds c] item].
    rewrite (cleaned_line ds c item He). cbn [bind].
    rewrite IH by (exact Hes || reflexivity).
    unfold append. cbn [result item_of snd]. rewrite <- app_assoc. reflexivity.
Qed.

Lemma scan_lines_last lines line : forall sc,
  exists sc',
    scan_lines sc (lines ++ [line]) = Ok sc'
    /\ in_ul sc' = is_bullet (classify line)
    /\ in_ol sc' = is_numbered (classify line).
Proof.
  induction lines as [|l lines IH]; intros sc; cbn [app scan_lines].
  - destruct (scan_line_flags sc line) as (sc' & -> & U & O).
    exists sc'. cbn [bind scan_lines]. auto.
  - destruct (scan_line_returns sc l) as [sc1 ->]. cbn [bind]. apply IH.
Qed.

Lemma count_app t a b : count t (a ++ b) = count t a + count t b.
Proof. unfold count. rewrite filter_app, length_app. reflexivity. Qed.

Lemma count_one t x : count t [x] = Nat.b2n (str_eqb t x).
Proof. unfold count. cbn [filter]. destruct (str_eqb t x); reflexivity. Qed.

Lemma no_list_tag_counts line :
  no_list_tag line = true ->
  str_eqb (txt "<ul>") line = false /\ str_eqb (txt "</ul>") line = false
  /\ str_eqb (txt "<ol>") line = false /\ str_eqb (txt "</ol>") line = false.
Proof.
  unfold no_list_tag. intros H.
  repeat (apply andb_prop in H as [H ?]).
  repeat match goal with E : negb _ = true |- _ => apply negb_true_iff in E end.
  auto.
Qed.

(** One line keeps the account of opened and closed lists. *)
Lemma scan_line_balance sc line :
  no_list_tag line = true ->
  exists sc',
    scan_line sc line = Ok sc'
    /\ count (txt "<ul>") (result sc') + count (txt "</ul>") (result sc) + Nat.b2n (in_ul sc)
       = count (txt "</ul>") (result sc') + count (txt "<ul>") (result sc) + Nat.b2n (in_ul sc')
    /\ count (txt "<ol>") (result sc') + count (txt "</ol>") (result sc) + Nat.b2n (in_ol sc)
       = count (txt "</ol>") (result sc') + count (txt "<ol>") (result sc) + Nat.b2n (in_ol sc').
Proof.
  intros H. destruct (no_list_tag_counts line H) as (T1 & T2 & T3 & T4).
  unfold scan_line. destruct (classify line); destruct sc as [r [] []];
    try rewrite re_sub_returns by reflexivity;
    (eexists; split; [reflexivity|]);
    unfold append, set_in_ul, set_in_ol; cbn [result in_ul in_ol negb Nat.b2n];
    rewrite ?count_app, ?count_one, ?T1, ?T2, ?T3, ?T4;
    cbn [Nat.b2n]; split;
    repeat match goal with
    | |- context [str_eqb ?a (li ?b)] => change (str_eqb a (li b)) with false
    | |- context [str_eqb (txt ?a) (txt ?b)] =>
        let v := eval vm_compute in (str_eqb (txt a) (txt b)) in
        change (str_eqb (txt a) (txt b)) with v
    end; cbn [Nat.b2n]; lia.
Qed.

Lemma scan_lines_balance lines : forall sc,
  forallb no_list_tag lines = true ->
  exists sc',
    scan_lines sc lines = Ok sc'
    /\ count (txt "<ul>") (result sc') + count (txt "</ul>") (result sc) + Nat.b2n (in_ul sc)
       = count (txt "</ul>") (result sc') + count (txt "<ul>") (result sc) + Nat.b2n (in_ul sc')
    /\ count (txt "<ol>") (result sc') + count (txt "</ol>") (result sc) + Nat.b2n (in_ol sc)
       = count (txt "</ol>") (result sc') + count (txt "<ol>") (result sc) + Nat.b2n (in_ol sc').
Proof.
  induction lines as [|l lines IH]; intros sc H.
  - exists sc. repeat split; lia.
  - simpl in H. apply andb_prop in H as [Hl H].
    destruct (scan_line_balance sc l Hl) as (sc1 & E1 & U1 & O1).
    destruct (IH sc1 H) as (sc2 & E2 & U2 & O2).
    exists sc2. cbn [scan_lines]. rewrite E1. cbn [bind]. split; [exact E2|]. lia.
Qed.

Lemma list_lines_balance lines :
  forallb no_list_tag lines = true ->
  exists out,
    list_lines lines = Ok out
    /\ count (txt "<ul>") out = count (txt "</ul>") out
    /\ count (txt "<ol>") out = count (txt "</ol>") out.
Proof.
  intros H. destruct (scan_lines_balance lines (Scan [] false false) H) as (sc & E & U & O).
  unfold list_lines. rewrite E. cbn [bind]. eexists. split; [reflexivity|].
  cbn [result in_ul in_ol Nat.b2n count filter List.length] in U, O.
  destruct sc as [r [] []]; unfold append; cbn [result in_ul in_ol Nat.b2n] in *;
    rewrite ?count_app, ?count_one;
    repeat match goal with
    | |- context [str_eqb (txt ?a) (txt ?b)] =>
        let v := eval vm_compute in (str_eqb (txt a) (txt b)) in
        change (str_eqb (txt a) (txt b)) with v
    end; cbn [Nat.b2n]; split; lia.
Qed.

(** ** One step of the matcher at a time *)

Lemma run_once ml adv c p st x s :
  c x = true -> run ml adv (Chars Once c :: p) st (x :: s) = run ml adv p (take x st) s.
Proof. intros H. cbn [run]. rewrite H. reflexivity. Qed.

Lemma run_once_fails ml adv c p st s :
  match s with [] => True | x :: _ => c x = false end ->
  run ml adv (Chars Once c :: p) st s = None.
Proof. destruct s as [|x s]; intros H; cbn [run]; [|rewrite H]; reflexivity. Qed.

Lemma run_open ml adv g p st s :
  run ml adv (Open g :: p) st s = run ml adv p (open_group g st) s.
Proof. reflexivity. Qed.

Lemma run_close ml adv g p st s :
  run ml adv (Close g :: p) st s = run ml adv p (close_group g st) s.
Proof. reflexivity. Qed.

Lemma run_done ml st s : run ml false [] st s = Some (st, s).
Proof. reflexivity. Qed.

Lemma len_take x st : len (take x st) = S (len st).
Proof. reflexivity. Qed.

Lemma prev_take x st : prev (take x st) = Some x.
Proof. reflexivity. Qed.

Lemma sub_scan_prefix ml p t c pre s b :
  needs c p -> lacks c pre ->
  sub_scan ml p t b 0 (pre ++ s) = pre ++ sub_scan ml p t (last_of b pre) 0 s.
Proof.
  intros N L. apply sub_scan_copy. intros u x v E. apply N.
  subst pre. apply Forall_app in L as [_ L]. inversion L; assumption.
Qed.

Lemma sub_scan_miss ml p t b x s :
  run ml false p (start b) (x :: s) = None ->
  sub_scan ml p t b 0 (x :: s) = x :: sub_scan ml p t (Some x) 0 s.
Proof. intros H. cbn [sub_scan]. rewrite H. reflexivity. Qed.

Lemma lacks_none_of c s : lacks c s -> forallb (none_of [c]) s = true.
Proof.
  induction 1 as [|x s Hx _ IH]; [reflexivity|].
  simpl. unfold none_of at 1. simpl. rewrite Hx. exact IH.
Qed.

Lemma lacks_app c a b : lacks c a -> lacks c b -> lacks c (a ++ b).
Proof. intros Ha Hb. apply Forall_app. split; assumption. Qed.

Lemma lacks_cons c x a : chr_eqb x c = false -> lacks c a -> lacks c (x :: a).
Proof. intros Hx Ha. constructor; assumption. Qed.

(** ** One span in a text *)

Lemma close_then_literal_fails ml g d more p st x s :
  none_of (d :: more) x = true ->
  run ml false (Close g :: Chars Once (chr d) :: p) st (x :: s) = None.
Proof.
  intros H. rewrite run_close. apply run_once_fails.
  unfold none_of in H. simpl in H. apply negb_true_iff in H.
  apply orb_false_iff in H as [H _]. exact H.
Qed.

(** A group holding one or more characters outside a set that has [d],
    closed by [d]: the group takes the text up to that [d]. *)
Lemma span_run ml g (d : ascii) more body post p st0 :
  body <> [] -> forallb (none_of (d :: more)) body = true ->
  run ml false
      (Open g :: Chars Plus (none_of (d :: more)) :: Close g :: Chars Once (chr d) :: p)
      st0 (body ++ d :: post)
  = run ml false p (take d (close_group g (takes body (open_group g st0)))) post.
Proof.
  intros Hb Hl. rewrite run_open.
  rewrite plus_run;
    [|intros; eapply close_then_literal_fails; eassumption|exact Hb|exact Hl
     |unfold none_of; simpl; rewrite chr_eqb_refl; reflexivity].
  rewrite run_close, run_once by (unfold chr; apply chr_eqb_refl). reflexivity.
Qed.

(** *** Links *)

Lemma link_span_run b label url post :
  label <> [] -> url <> [] -> lacks "]" label -> lacks ")" url ->
  exists st,
    run false false link_span (start b) (txt "[" ++ label ++ txt "](" ++ url ++ txt ")" ++ post)
    = Some (st, post)
    /\ caps st = [(2, url); (1, label)] /\ 0 < len st.
Proof.
  intros Hl Hu Ll Lu. unfold link_span.
  cbn [lit txt list_ascii_of_string map app].
  rewrite run_once by reflexivity.
  rewrite (span_run false 1 "]" [] label) by (assumption || apply lacks_none_of, Ll).
  rewrite run_once by reflexivity.
  rewrite (span_run false 2 ")" [] url) by (assumption || apply lacks_none_of, Lu).
  rewrite run_done. eexists. split; [reflexivity|].
  rewrite !caps_take, caps_group, !caps_take, caps_group, !caps_take.
  split; [reflexivity|]. rewrite len_take. lia.
Qed.

Lemma links_one pre label url post :
  lacks "[" pre -> lacks "[" post ->
  label <> [] -> url <> [] -> lacks "]" label -> lacks ")" url ->
  links (pre ++ txt "[" ++ label ++ txt "](" ++ url ++ txt ")" ++ post)
  = Ok (pre ++ txt "<a href=" ++ quoted url ++ txt ">" ++ label ++ txt "</a>" ++ post).
Proof.
  intros Lpre Lpost Hl Hu Ll Lu. unfold links.
  rewrite re_sub_returns by reflexivity. f_equal.
  rewrite (sub_scan_prefix false link_span anchor_element "[" pre)
    by (apply needs_literal || assumption).
  f_equal.
  destruct (link_span_run (last_of None pre) label url post Hl Hu Ll Lu) as (st & R & C & L).
  rewrite (sub_scan_hit _ _ _ _ _ _ _ R L).
  rewrite (sub_scan_lacks false link_span anchor_element "[" post)
    by (apply needs_literal || assumption).
  unfold anchor_element. cbn [expand]. rewrite C. cbn [lookup Nat.eqb].
  unfold quoted. cbn [txt list_ascii_of_string app].
  repeat (rewrite <- app_assoc; cbn [app]). reflexivity.
Qed.

(** *** Inline code *)

Lemma inline_span_run b body post :
  body <> [] -> forallb (none_of [BTICK; LF]) body = true ->
  exists st,
    run false false inline_span (start b) (BTICK :: body ++ BTICK :: post) = Some (st, post)
    /\ caps st = [(1, body)] /\ 0 < len st.
Proof.
  intros Hb Hc. unfold inline_span.
  cbn [lit txt list_ascii_of_string map app].
  rewrite run_once by reflexivity.
  rewrite (span_run false 1 BTICK [LF] body) by assumption.
  rewrite run_done. eexists. split; [reflexivity|].
  rewrite !caps_take, caps_group, !caps_take.
  split; [reflexivity|]. rewrite len_take. lia.
Qed.

Lemma inline_code_one pre body post :
  lacks BTICK pre -> lacks BTICK post ->
  body <> [] -> forallb (none_of [BTICK; LF]) body = true ->
  inline_code (pre ++ BTICK :: body ++ BTICK :: post)
  = Ok (pre ++ txt "<code>" ++ body ++ txt "</code>" ++ post).
Proof.
  intros Lpre Lpost Hb Hc. unfold inline_code.
  rewrite re_sub_returns by reflexivity. f_equal.
  rewrite (sub_scan_prefix false inline_span code_element BTICK pre)
    by (apply needs_literal || assumption).
  f_equal.
  destruct (inline_span_run (last_of None pre) body post Hb Hc) as (st & R & C & L).
  rewrite (sub_scan_hit _ _ _ _ _ _ _ R L).
  rewrite (sub_scan_lacks false inline_span code_element BTICK post)
    by (apply needs_literal || assumption).
  unfold code_element. cbn [expand]. rewrite C. cbn [lookup Nat.eqb].
  cbn [txt list_ascii_of_string app].
  repeat (rewrite <- app_assoc; cbn [app]). reflexivity.
Qed.

(** *** Bold and italic *)

Lemma lacks_head c s :
  lacks c s -> match s with [] => True | x :: _ => chr c x = false end.
Proof. destruct 1; [exact I|assumption]. Qed.

Lemma bold_span_run b body post :
  body <> [] -> lacks "*" body ->
  exists st,
    run false false bold_span (start b) (txt "**" ++ body ++ txt "**" ++ post) = Some (st, post)
    /\ caps st = [(1, body)] /\ 0 < len st.
Proof.
  intros Hb Hc. unfold bold_span.
  cbn [lit txt list_ascii_of_string map app].
  rewrite !run_once by reflexivity.
  rewrite (span_run false 1 "*" [] body) by (assumption || apply lacks_none_of, Hc).
  rewrite run_once by reflexivity.
  rewrite run_done. eexists. split; [reflexivity|].
  rewrite !caps_take, caps_group, !caps_take.
  split; [reflexivity|]. rewrite len_take. lia.
Qed.

Lemma italic_span_run b body post :
  body <> [] -> lacks "*" body ->
  exists st,
    run false false italic_span (start b) (txt "*" ++ body ++ txt "*" ++ post) = Some (st, post)
    /\ caps st = [(1, body)] /\ 0 < len st.
Proof.
  intros Hb Hc. unfold italic_span.
  cbn [lit txt list_ascii_of_string map app].
  rewrite !run_once by reflexivity.
  rewrite (span_run false 1 "*" [] body) by (assumption || apply lacks_none_of, Hc).
  rewrite run_done. eexists. split; [reflexivity|].
  rewrite !caps_take, caps_group, !caps_take.
  split; [reflexivity|]. rewrite len_take. lia.
Qed.

(** An asterisk that stands alone is no bold delimiter. *)
Lemma bold_single_star b s :
  lacks "*" s -> run false false bold_span (start b) ("*"%char :: s) = None.
Proof.
  intros H. unfold bold_span. cbn [lit txt list_ascii_of_string map app].
  rewrite run_once by reflexivity. apply run_once_fails, lacks_head, H.
Qed.

Lemma bold_leaves_italic b mid body post :
  lacks "*" mid -> lacks "*" body -> body <> [] -> lacks "*" post ->
  sub_scan false bold_span strong_element b 0 (mid ++ txt "*" ++ body ++ txt "*" ++ post)
  = mid ++ txt "*" ++ body ++ txt "*" ++ post.
Proof.
  intros Lm Lb Hb Lp. cbn [txt list_ascii_of_string app].
  rewrite (sub_scan_prefix false bold_span strong_element "*" mid)
    by (apply needs_literal || assumption).
  f_equal. destruct body as [|y body]; [congruence|]. inversion Lb as [|? ? Hy Lb']; subst.
  rewrite sub_scan_miss.
  2:{ unfold bold_span. cbn [lit txt list_ascii_of_string map app].
      rewrite run_once by reflexivity. apply run_once_fails. exact Hy. }
  f_equal.
  rewrite (sub_scan_prefix false bold_span strong_element "*" (y :: body))
    by (apply needs_literal || assumption).
  f_equal.
  rewrite sub_scan_miss by (apply bold_single_star, Lp).
  f_equal. apply (sub_scan_lacks false bold_span strong_element "*" post);
    [apply needs_literal|exact Lp].
Qed.

Lemma emphasis_bold_then_italic pre bold mid italic post :
  lacks "*" pre -> lacks "*" bold -> lacks "*" mid -> lacks "*" italic -> lacks "*" post ->
  bold <> [] -> italic <> [] ->
  emphasis (pre ++ txt "**" ++ bold ++ txt "**" ++ mid ++ txt "*" ++ italic ++ txt "*" ++ post)
  = Ok (pre ++ txt "<strong>" ++ bold ++ txt "</strong>" ++ mid
        ++ txt "<em>" ++ italic ++ txt "</em>" ++ post).
Proof.
  intros Lpre Lb Lm Li Lpost Hb Hi. unfold emphasis.
  rewrite re_sub_returns by reflexivity. cbn [bind].
  rewrite re_sub_returns by reflexivity. f_equal.
  rewrite (sub_scan_prefix false bold_span strong_element "*" pre)
    by (apply needs_literal || assumption).
  destruct (bold_span_run (last_of None pre) bold
              (mid ++ txt "*" ++ italic ++ txt "*" ++ post) Hb Lb) as (st & R & C & L).
  rewrite (sub_scan_hit _ _ _ _ _ _ _ R L).
  rewrite bold_leaves_italic by assumption.
  unfold strong_element at 1. cbn [expand]. rewrite C. cbn [lookup Nat.eqb].
  assert (E : pre ++ (txt "<strong>" ++ bold ++ txt "</strong>" ++ [])
                ++ mid ++ txt "*" ++ italic ++ txt "*" ++ post
              = (pre ++ txt "<strong>" ++ bold ++ txt "</strong>" ++ mid)
                ++ txt "*" ++ italic ++ txt "*" ++ post).
  { cbn [txt list_ascii_of_string app]. repeat (rewrite <- app_assoc; cbn [app]). reflexivity. }
  rewrite E.
  rewrite (sub_scan_prefix false italic_span em_element "*")
    by (apply needs_literal ||
        (repeat apply lacks_app; try assumption; repeat constructor)).
  destruct (italic_span_run
              (last_of None (pre ++ txt "<strong>" ++ bold ++ txt "</strong>" ++ mid))
              italic post Hi Li) as (st' & R' & C' & L').
  rewrite (sub_scan_hit _ _ _ _ _ _ _ R' L').
  rewrite (sub_scan_lacks false italic_span em_element "*" post)
    by (apply needs_literal || assumption).
  unfold em_element. cbn [expand]. rewrite C'. cbn [lookup Nat.eqb].
  cbn [txt list_ascii_of_string app]. repeat (rewrite <- app_assoc; cbn [app]). reflexivity.
Qed.

(** *** Fenced blocks *)

Lemma lacks_tick_free s : lacks BTICK s -> tick_free s = true.
Proof.
  induction 1 as [|x s Hx _ IH]; [reflexivity|]. simpl. rewrite Hx. exact IH.
Qed.

Lemma tick_free_occurs s : tick_free s = true -> occurs s = false.
Proof.
  intros H. rewrite <- (app_nil_r s). rewrite (proj1 (tick_free_prefix s [] H)). reflexivity.
Qed.

Lemma run_opt_take ml adv c p st x s r :
  c x = true -> run ml adv p (take x st) s = Some r ->
  run ml adv (Chars Opt c :: p) st (x :: s) = Some r.
Proof. intros Hc H. cbn [run]. rewrite Hc, H. reflexivity. Qed.

Lemma run_opt_skip ml adv c p st s :
  match s with [] => True | x :: _ => c x = false end ->
  run ml adv (Chars Opt c :: p) st s = run ml adv p st s.
Proof. destruct s as [|x s]; intros H; cbn [run]; [|rewrite H]; reflexivity. Qed.

Lemma body_to_fence_exact ml adv g st body post :
  tick_free body = true ->
  exists st',
    run ml adv (body_to_fence g) st (body ++ FENCE ++ post) = Some (st', post)
    /\ caps st' = (g, body) :: caps st.
Proof.
  intros H. unfold body_to_fence. cbn [app]. rewrite run_open.
  change (run ml adv (Chars LazyStar any :: Close g :: lit "```") (open_group g st)
            (body ++ FENCE ++ post))
    with (lazy any (run ml adv (Close g :: lit "```")) (open_group g st)
            (body ++ FENCE ++ post)).
  rewrite lazy_body_exact by exact H.
  destruct (closing_fence_some ml adv g (takes body (open_group g st)) post) as (st' & R & C).
  exists st'. split; [exact R|]. rewrite C. apply caps_group.
Qed.

Lemma newline_body_exact ml adv g st body post :
  tick_free body = true ->
  exists st',
    run ml adv (Chars Opt (chr LF) :: body_to_fence g) st (body ++ FENCE ++ post)
    = Some (st', post)
    /\ caps st' = (g, drop_newline body) :: caps st.
Proof.
  intros H. destruct body as [|x body].
  - destruct (body_to_fence_exact ml adv g st [] post eq_refl) as (st' & R & C).
    exists st'. rewrite run_opt_skip by reflexivity. auto.
  - cbn [drop_newline]. destruct (chr_eqb x LF) eqn:E.
    + simpl in H. apply andb_prop in H as [_ H].
      destruct (body_to_fence_exact ml adv g (take x st) body post H) as (st' & R & C).
      exists st'. split; [|exact C].
      apply run_opt_take; [exact E|exact R].
    + destruct (body_to_fence_exact ml adv g st (x :: body) post H) as (st' & R & C).
      exists st'. rewrite run_opt_skip by exact E. auto.
Qed.

Lemma fence_dart_run b body post :
  tick_free body = true ->
  exists st,
    run true false fence_dart (start b) (txt "```dart" ++ body ++ FENCE ++ post)
    = Some (st, post)
    /\ caps st = [(1, drop_newline body)] /\ 0 < len st.
Proof.
  intros H. unfold fence_dart. cbn [lit txt list_ascii_of_string map app].
  rewrite !run_once by reflexivity.
  match goal with |- context [run true false _ ?st0 _] =>
    destruct (newline_body_exact true false 1 st0 body post H) as (st & R & C) end.
  exists st. unfold body_to_fence in R. cbn [lit txt list_ascii_of_string map app] in R.
  split; [exact R|]. split; [exact C|].
  destruct (run_tracks _ _ _ _ _ _ _ R) as (u & _ & L & _).
  rewrite L, !len_take. lia.
Qed.

Lemma code_blocks_dart pre body post :
  lacks BTICK pre -> lacks BTICK body -> lacks BTICK post ->
  code_blocks (pre ++ txt "```dart" ++ body ++ txt "```" ++ post)
  = Ok (pre ++ txt "<pre class=" ++ quoted (txt "language-dart line-numbers")
        ++ txt "><code class=" ++ quoted (txt "language-dart") ++ txt ">"
        ++ drop_newline body ++ txt "</code></pre>" ++ post).
Proof.
  intros Lpre Lb Lpost.
  assert (Ld : lacks BTICK (drop_newline body)).
  { destruct body as [|x body]; [constructor|]. simpl.
    destruct (chr_eqb x LF); [inversion Lb; assumption|exact Lb]. }
  assert (D : fenced_dart (pre ++ txt "```dart" ++ body ++ txt "```" ++ post)
            = Ok (pre ++ txt "<pre class=" ++ quoted (txt "language-dart line-numbers")
                  ++ txt "><code class=" ++ quoted (txt "language-dart") ++ txt ">"
                  ++ drop_newline body ++ txt "</code></pre>" ++ post)).
  { unfold fenced_dart. rewrite re_sub_returns by reflexivity. f_equal.
    rewrite (sub_scan_prefix true fence_dart pre_dart BTICK pre)
      by (apply needs_literal || assumption).
    f_equal.
    destruct (fence_dart_run (last_of None pre) body post (lacks_tick_free _ Lb))
      as (st & R & C & L).
    change (txt "```") with FENCE. rewrite (sub_scan_hit _ _ _ _ _ _ _ R L).
    rewrite (sub_scan_lacks true fence_dart pre_dart BTICK post)
      by (apply needs_literal || assumption).
    unfold pre_dart. cbn [expand]. rewrite C. cbn [lookup Nat.eqb].
    unfold quoted. cbn [txt list_ascii_of_string app].
    repeat (rewrite <- app_assoc; cbn [app]). reflexivity. }
  unfold code_blocks. rewrite D. cbn [bind].
  assert (Lout : lacks BTICK
            (pre ++ txt "<pre class=" ++ quoted (txt "language-dart line-numbers")
             ++ txt "><code class=" ++ quoted (txt "language-dart") ++ txt ">"
             ++ drop_newline body ++ txt "</code></pre>" ++ post)).
  { repeat apply lacks_app; try assumption; repeat constructor. }
  unfold fenced_tagged, fenced_plain.
  rewrite (re_sub_lacks true fence_tagged pre_tagged BTICK _ (needs_literal _ _) Lout eq_refl).
  cbn [bind].
  apply (re_sub_lacks true fence_plain pre_dart BTICK _ (needs_literal _ _) Lout eq_refl).
Qed.

Lemma startswith_split p : forall s, startswith p s = true -> exists r, s = p ++ r.
Proof.
  induction p as [|x p IH]; intros s H; [exists s; reflexivity|].
  destruct s as [|y s]; [discriminate|]. cbn [startswith] in H.
  apply andb_prop in H as [E H]. apply chr_eqb_eq in E. subst y.
  destruct (IH s H) as [r ->]. exists r. reflexivity.
Qed.

(** A pattern that begins with a literal text fails where that text does
    not stand. *)
Lemma literal_miss ml adv l p : forall st s,
  startswith l s = false ->
  run ml adv (map (fun c => Chars Once (chr c)) l ++ p) st s = None.
Proof.
  induction l as [|c l IH]; intros st s H; [discriminate|].
  cbn [map app]. destruct s as [|x s]; [reflexivity|].
  cbn [startswith] in H. cbn [run]. unfold chr at 1. rewrite chr_eqb_sym.
  destruct (chr_eqb c x); [|reflexivity]. apply IH. exact H.
Qed.

(** A character foreign to [p] ends every attempt to read [p]. *)
Lemma startswith_stop p y : forall a r,
  existsb (chr_eqb y) p = false -> startswith p (a ++ y :: r) = startswith p a.
Proof.
  induction p as [|x p IH]; intros a r H; [reflexivity|].
  simpl in H. apply orb_false_iff in H as [Hx H].
  destruct a as [|z a]; cbn [app startswith].
  - rewrite chr_eqb_sym, Hx. reflexivity.
  - rewrite IH by exact H. reflexivity.
Qed.

(** A greedy repetition keeps its longest run when the rest of the pattern
    succeeds behind it. *)
Lemma greedy_first R c (k : mstate -> str -> option R) l tail res : forall st,
  forallb c l = true ->
  match tail with [] => True | x :: _ => c x = false end ->
  k (takes l st) tail = Some res ->
  greedy c k st (l ++ tail) = Some res.
Proof.
  induction l as [|y l IH]; intros st Hl Ht Hk.
  - cbn [app]. destruct tail as [|x tail]; cbn [greedy]; [exact Hk|].
    rewrite Ht. exact Hk.
  - simpl in Hl. apply andb_prop in Hl as [Hy Hl].
    cbn [app greedy]. rewrite Hy, (IH (take y st) Hl Ht Hk). reflexivity.
Qed.

Lemma fence_dart_alone ml adv st s :
  occurs (skipn 3 s) = false -> run ml adv fence_dart st s = None.
Proof.
  intros H. destruct (startswith (txt "```dart") s) eqn:S.
  - destruct (startswith_split _ _ S) as [r ->].
    change (skipn 3 (txt "```dart" ++ r)) with (txt "dart" ++ r) in H.
    rewrite (proj1 (tick_free_prefix (txt "dart") r eq_refl)) in H.
    unfold fence_dart. cbn [lit txt list_ascii_of_string map app].
    rewrite !run_once by reflexivity.
    apply (newline_body_none ml adv 1 _ r H).
  - unfold fence_dart, lit at 1. apply literal_miss, S.
Qed.

Lemma fence_tagged_run b tag body post :
  forallb alpha tag = true -> tick_free body = true ->
  exists st,
    run true false fence_tagged (start b) (FENCE ++ tag ++ LF :: body ++ FENCE ++ post)
    = Some (st, post)
    /\ caps st = [(2, body); (1, tag)] /\ 0 < len st.
Proof.
  intros Ha Hb. rewrite fence_tagged_unfold.
  set (st0 := open_group 1 (take BTICK (take BTICK (take BTICK (start b))))).
  pose proof (lazy_body_exact true false 2 body post
                (open_group 2 (take LF (close_group 1 (takes tag st0)))) Hb) as Lz.
  destruct (closing_fence_some true false 2
              (takes body (open_group 2 (take LF (close_group 1 (takes tag st0))))) post)
    as (st & R & C).
  exists st. split; [|split].
  - apply greedy_first; [exact Ha|reflexivity|].
    rewrite after_tag_newline, Lz, R. reflexivity.
  - rewrite C, caps_group, caps_take. unfold st0. rewrite caps_group. reflexivity.
  - destruct (run_tracks _ _ _ _ _ _ _ R) as (u & _ & L & _).
    rewrite L, takes_len. cbn [open_group len take]. lia.
Qed.

Lemma startswith_behind p q s : startswith (p ++ q) (p ++ s) = startswith q s.
Proof.
  induction p as [|x p IH]; [reflexivity|].
  cbn [app startswith]. rewrite chr_eqb_refl. exact IH.
Qed.

Lemma alpha_lacks_tick tag : forallb alpha tag = true -> lacks BTICK tag.
Proof.
  induction tag as [|x tag IH]; intros H; [constructor|].
  simpl in H. apply andb_prop in H as [Hx H].
  constructor; [apply alpha_is_no_tick, Hx|apply IH, H].
Qed.

(** The first substitution passes over a fence whose tag does not begin
    with [dart]. *)
Lemma dart_pass_skips pre tag body post :
  lacks BTICK pre -> forallb alpha tag = true -> startswith (txt "dart") tag = false ->
  lacks BTICK body -> lacks BTICK post ->
  forall b,
    sub_scan true fence_dart pre_dart b 0 (pre ++ FENCE ++ tag ++ LF :: body ++ FENCE ++ post)
    = pre ++ FENCE ++ tag ++ LF :: body ++ FENCE ++ post.
Proof.
  intros Lpre Ha Hd Lb Lpost b.
  assert (LT : lacks BTICK (tag ++ LF :: body)).
  { apply lacks_app; [apply alpha_lacks_tick, Ha|constructor; [reflexivity|exact Lb]]. }
  assert (E : tag ++ LF :: body ++ FENCE ++ post = (tag ++ LF :: body) ++ FENCE ++ post)
    by (rewrite <- app_assoc; reflexivity).
  rewrite (sub_scan_prefix true fence_dart pre_dart BTICK pre)
    by (apply needs_literal || assumption).
  f_equal.
  change (FENCE ++ tag ++ LF :: body ++ FENCE ++ post)
    with (BTICK :: BTICK :: BTICK :: tag ++ LF :: body ++ FENCE ++ post).
  rewrite sub_scan_miss.
  2:{ unfold fence_dart, lit at 1. apply literal_miss.
      change (BTICK :: BTICK :: BTICK :: tag ++ LF :: body ++ FENCE ++ post)
        with (FENCE ++ tag ++ LF :: body ++ FENCE ++ post).
      change (txt "```dart") with (FENCE ++ txt "dart").
      rewrite startswith_behind, startswith_stop by reflexivity. exact Hd. }
  f_equal. rewrite E.
  assert (LTF : forall r, lacks BTICK r ->
            match (tag ++ LF :: body) ++ FENCE ++ r with
            | [] => True | x :: _ => chr BTICK x = false end).
  { intros r _. destruct tag as [|t tag]; [reflexivity|].
    inversion LT; assumption. }
  rewrite sub_scan_miss.
  2:{ unfold fence_dart. cbn [lit txt list_ascii_of_string map app].
      rewrite !run_once by reflexivity. apply run_once_fails, (LTF post Lpost). }
  f_equal.
  rewrite sub_scan_miss.
  2:{ unfold fence_dart. cbn [lit txt list_ascii_of_string map app].
      rewrite !run_once by reflexivity. apply run_once_fails, (LTF post Lpost). }
  f_equal.
  rewrite (sub_scan_prefix true fence_dart pre_dart BTICK (tag ++ LF :: body))
    by (apply needs_literal || assumption).
  f_equal.
  change (FENCE ++ post) with (BTICK :: BTICK :: BTICK :: post).
  rewrite sub_scan_miss
    by (apply fence_dart_alone; cbn [skipn]; apply tick_free_occurs, lacks_tick_free, Lpost).
  f_equal.
  rewrite sub_scan_miss.
  2:{ unfold fence_dart. cbn [lit txt list_ascii_of_string map app].
      rewrite !run_once by reflexivity. apply run_once_fails, lacks_head, Lpost. }
  f_equal.
  rewrite sub_scan_miss.
  2:{ unfold fence_dart. cbn [lit txt list_ascii_of_string map app].
      rewrite !run_once by reflexivity. apply run_once_fails, lacks_head, Lpost. }
  f_equal.
  apply (sub_scan_lacks true fence_dart pre_dart BTICK post (needs_literal _ _) Lpost).
Qed.

Lemma code_blocks_tagged pre tag body post :
  lacks BTICK pre -> forallb alpha tag = true -> startswith (txt "dart") tag = false ->
  lacks BTICK body -> lacks BTICK post ->
  code_blocks (pre ++ txt "```" ++ tag ++ LF :: body ++ txt "```" ++ post)
  = Ok (pre ++ txt "<pre class=" ++ quoted (txt "language-" ++ tag ++ txt " line-numbers")
        ++ txt "><code class=" ++ quoted (txt "language-" ++ tag) ++ txt ">"
        ++ body ++ txt "</code></pre>" ++ post).
Proof.
  intros Lpre Ha Hd Lb Lpost. change (txt "```") with FENCE.
  unfold code_blocks, fenced_dart. rewrite re_sub_returns by reflexivity.
  rewrite dart_pass_skips by assumption. cbn [bind].
  assert (T : fenced_tagged (pre ++ FENCE ++ tag ++ LF :: body ++ FENCE ++ post)
            = Ok (pre ++ txt "<pre class="
                  ++ quoted (txt "language-" ++ tag ++ txt " line-numbers")
                  ++ txt "><code class=" ++ quoted (txt "language-" ++ tag) ++ txt ">"
                  ++ body ++ txt "</code></pre>" ++ post)).
  { unfold fenced_tagged. rewrite re_sub_returns by reflexivity. f_equal.
    rewrite (sub_scan_prefix true fence_tagged pre_tagged BTICK pre)
      by (apply needs_literal || assumption).
    f_equal.
    destruct (fence_tagged_run (last_of None pre) tag body post Ha (lacks_tick_free _ Lb))
      as (st & R & C & L).
    rewrite (sub_scan_hit _ _ _ _ _ _ _ R L).
    rewrite (sub_scan_lacks true fence_tagged pre_tagged BTICK post)
      by (apply needs_literal || assumption).
    unfold pre_tagged. cbn [expand]. rewrite C. cbn [lookup Nat.eqb].
    unfold quoted. cbn [txt list_ascii_of_string app].
    repeat (rewrite <- app_assoc; cbn [app]). reflexivity. }
  rewrite T. cbn [bind]. exact (third_fence_pass_idle _ _ T).
Qed.

(** ** Headers, line by line *)

Lemma literal_hit ml adv l p s : forall st,
  run ml adv (map (fun c => Chars Once (chr c)) l ++ p) st (l ++ s) = run ml adv p (takes l st) s.
Proof.
  induction l as [|c l IH]; intros st; [reflexivity|].
  cbn [map app]. rewrite run_once by (unfold chr; apply chr_eqb_refl). apply IH.
Qed.

Lemma after_prefix_some p s r : after_prefix p s = Some r -> s = p ++ r.
Proof.
  unfold after_prefix. destruct (startswith p s) eqn:S; [|discriminate].
  intros H. injection H as <-. destruct (startswith_split _ _ S) as [r ->].
  rewrite skipn_app, skipn_all, Nat.sub_diag. reflexivity.
Qed.

Lemma one_line_dot t : one_line t -> forallb (dot false) t = true.
Proof.
  induction 1 as [|x t Hx _ IH]; [reflexivity|].
  simpl. unfold dot at 1. simpl. rewrite Hx. exact IH.
Qed.

Lemma mid_line_miss p x s :
  chr_eqb x LF = false -> run true false (Bol :: p) (start (Some x)) s = None.
Proof. intros H. cbn [run at_bol start prev]. rewrite H. reflexivity. Qed.

Section HeaderPass.

Variables (marks tag : string).
Hypothesis marks_hash : exists m, txt marks = "#"%char :: m.
Hypothesis marks_line : existsb (chr_eqb LF) (txt marks ++ txt " ") = false.

Let P : regex := header_line marks.
Let T : template := header_element tag.

Lemma header_needs_hash : needs "#" P.
Proof.
  destruct marks_hash as [m E]. unfold P, header_line, lit. rewrite E.
  apply needs_bol_literal.
Qed.

Lemma header_shape :
  P = Bol :: map (fun c => Chars Once (chr c)) (txt marks ++ txt " ")
             ++ [Open 1; Chars Plus (dot false); Close 1; Eol].
Proof. unfold P, header_line, lit. rewrite map_app, <- app_assoc. reflexivity. Qed.

(** At the start of a line that is a heading the pattern takes the whole
    line. *)
Lemma header_hit b x text tail :
  at_bol true (start b) = true -> one_line (x :: text) ->
  match tail with [] => True | y :: _ => y = LF end ->
  exists st,
    run true false P (start b) ((txt marks ++ txt " ") ++ (x :: text) ++ tail) = Some (st, tail)
    /\ caps st = [(1, x :: text)] /\ 0 < len st.
Proof.
  intros B L Ht. rewrite header_shape. cbn [run]. rewrite B.
  rewrite literal_hit, run_open.
  rewrite plus_run.
  - rewrite run_close. cbn [run].
    assert (E : at_eol true tail = true)
      by (destruct tail as [|y tail]; [reflexivity|subst y; reflexivity]).
    rewrite E. eexists. split; [reflexivity|].
    split; [rewrite caps_group, takes_caps; reflexivity|]. rewrite len_group. simpl. lia.
  - intros st0 y s Hy. rewrite run_close. cbn [run at_eol].
    unfold dot in Hy. simpl in Hy. apply negb_true_iff in Hy. rewrite Hy. reflexivity.
  - discriminate.
  - apply one_line_dot, L.
  - destruct tail as [|y tail]; [exact I|subst y; reflexivity].
Qed.

(** At the start of a line that is no heading the pattern fails. *)
Lemma header_miss b line tail :
  one_line line ->
  match tail with [] => True | y :: _ => y = LF end ->
  (forall x text, after_prefix (txt marks ++ txt " ") line <> Some (x :: text)) ->
  run true false P (start b) (line ++ tail) = None.
Proof.
  intros L Ht N. rewrite header_shape. cbn [run]. destruct (at_bol true (start b)); [|reflexivity].
  destruct (startswith (txt marks ++ txt " ") (line ++ tail)) eqn:S.
  - assert (S' : startswith (txt marks ++ txt " ") line = true).
    { destruct tail as [|y tail]; [rewrite app_nil_r in S; exact S|]. subst y.
      rewrite startswith_stop in S by exact marks_line. exact S. }
    destruct (startswith_split _ _ S') as [r E].
    destruct r as [|x text].
    + subst line. rewrite <- app_assoc. rewrite literal_hit, run_open. cbn [app run].
      destruct tail as [|y tail]; [reflexivity|]. subst y. reflexivity.
    + exfalso. apply (N x text). unfold after_prefix. rewrite S', E.
      rewrite skipn_app, skipn_all, Nat.sub_diag. reflexivity.
  - apply literal_miss, S.
Qed.

Lemma header_tail b tail :
  match tail with [] => True | y :: _ => y = LF end ->
  sub_scan true P T b 0 tail
  = match tail with [] => [] | y :: rest => y :: sub_scan true P T (Some y) 0 rest end.
Proof.
  intros Ht. destruct tail as [|y rest].
  - apply sub_scan_nil. apply header_needs_hash. exact I.
  - subst y. apply sub_scan_miss. apply header_needs_hash. reflexivity.
Qed.

Lemma last_of_in b u : u <> [] -> exists z, last_of b u = Some z /\ In z u.
Proof.
  revert b. induction u as [|x u IH]; intros b H; [congruence|].
  rewrite last_of_cons. destruct u as [|y u].
  - exists x. split; [reflexivity|left; reflexivity].
  - destruct (IH (Some x)) as (z & E & I); [discriminate|].
    exists z. split; [exact E|right; exact I].
Qed.

(** One line of the text under one header substitution. *)
Lemma header_line_scan b line tail :
  at_bol true (start b) = true -> one_line line ->
  match tail with [] => True | y :: _ => y = LF end ->
  sub_scan true P T b 0 (line ++ tail)
  = heading marks tag line
    ++ match tail with [] => [] | y :: rest => y :: sub_scan true P T (Some y) 0 rest end.
Proof.
  intros B L Ht. unfold heading.
  destruct (after_prefix (txt marks ++ txt " ") line) as [[|x text]|] eqn:A.
  - rewrite sub_scan_copy; [f_equal; apply header_tail, Ht|].
    intros u y v E. destruct u as [|z u].
    + cbn [app] in E. rewrite app_comm_cons, <- E. apply header_miss; try assumption.
      intros x text. rewrite A. discriminate.
    + destruct (last_of_in b (z :: u)) as (w & -> & I); [discriminate|].
      apply mid_line_miss. unfold one_line in L. rewrite Forall_forall in L.
      apply L. rewrite E. apply in_or_app. left. exact I.
  - apply after_prefix_some in A. subst line.
    assert (L' : one_line (x :: text)) by (apply Forall_app in L as [_ L]; exact L).
    rewrite <- app_assoc.
    destruct (header_hit b x text tail B L' Ht) as (st & R & C & Hlen).
    rewrite (sub_scan_hit _ _ _ _ _ _ _ R Hlen), header_tail by exact Ht.
    unfold T, header_element. cbn [expand]. rewrite C. cbn [lookup Nat.eqb].
    rewrite <- !app_assoc. reflexivity.
  - rewrite sub_scan_copy; [f_equal; apply header_tail, Ht|].
    intros u y v E. destruct u as [|z u].
    + cbn [app] in E. rewrite app_comm_cons, <- E. apply header_miss; try assumption.
      intros x text. rewrite A. discriminate.
    + destruct (last_of_in b (z :: u)) as (w & -> & I); [discriminate|].
      apply mid_line_miss. unfold one_line in L. rewrite Forall_forall in L.
      apply L. rewrite E. apply in_or_app. left. exact I.
Qed.

(** One header substitution rewrites the lines one by one. *)
Lemma header_pass lines : forall b,
  at_bol true (start b) = true -> Forall one_line lines ->
  sub_scan true P T b 0 (join [LF] lines) = join [LF] (map (heading marks tag) lines).
Proof.
  induction lines as [|l lines IH]; intros b B H.
  - apply sub_scan_nil. apply header_needs_hash. exact I.
  - inversion H as [|? ? Hl Hls]; subst. destruct lines as [|l2 lines].
    + cbn [join map]. rewrite <- (app_nil_r l) at 1.
      rewrite header_line_scan by (assumption || exact I). apply app_nil_r.
    + change (join [LF] (l :: l2 :: lines)) with (l ++ LF :: join [LF] (l2 :: lines)).
      rewrite header_line_scan by (assumption || reflexivity).
      rewrite IH by (reflexivity || assumption). reflexivity.
Qed.

End HeaderPass.

Lemma heading_one_line marks tag line :
  one_line (txt tag) -> one_line line -> one_line (heading marks tag line).
Proof.
  intros Ht L. unfold heading.
  destruct (after_prefix (txt marks ++ txt " ") line) as [[|x text]|] eqn:A; try exact L.
  apply after_prefix_some in A. subst line. apply Forall_app in L as [_ L].
  repeat apply one_line_app; try assumption; repeat constructor.
Qed.

Lemma heading_markup marks tag line :
  startswith (txt "<") line = true ->
  (exists m, txt marks = "#"%char :: m) ->
  heading marks tag line = line.
Proof.
  intros H [m E]. unfold heading, after_prefix. rewrite E.
  destruct line as [|y line]; [reflexivity|].
  cbn [txt list_ascii_of_string app startswith] in *.
  rewrite andb_true_r in H. apply chr_eqb_eq in H. subst y.
  reflexivity.
Qed.

Lemma heading_chain line :
  heading "####" "h4" (heading "###" "h3" (heading "##" "h2" (heading "#" "h1" line)))
  = heading_of line.
Proof.
  unfold heading_of.
  unfold heading at 4. change (txt "#" ++ txt " ") with (txt "# ").
  destruct (after_prefix (txt "# ") line) as [[|x text]|];
    try (rewrite !heading_markup by (reflexivity || (eexists; reflexivity)); reflexivity);
    (unfold heading at 3; change (txt "##" ++ txt " ") with (txt "## ");
     destruct (after_prefix (txt "## ") line) as [[|x2 text2]|];
     try (rewrite !heading_markup by (reflexivity || (eexists; reflexivity)); reflexivity);
     (unfold heading at 2; change (txt "###" ++ txt " ") with (txt "### ");
      destruct (after_prefix (txt "### ") line) as [[|x3 text3]|];
      try (rewrite !heading_markup by (reflexivity || (eexists; reflexivity)); reflexivity);
      (unfold heading; change (txt "####" ++ txt " ") with (txt "#### ");
       destruct (after_prefix (txt "#### ") line) as [[|x4 text4]|]; reflexivity))).
Qed.

Lemma headers_lines content :
  headers content = Ok (join [LF] (map heading_of (split LF content))).
Proof.
  unfold headers. repeat (rewrite re_sub_returns by reflexivity; cbn [bind]). f_equal.
  rewrite <- (join_split content) at 1.
  pose proof (split_lines content) as L0.
  assert (L1 : Forall one_line (map (heading "#" "h1") (split LF content))).
  { apply Forall_map. eapply Forall_impl; [|exact L0].
    intros l. apply heading_one_line. repeat constructor. }
  assert (L2 : Forall one_line (map (heading "##" "h2") (map (heading "#" "h1") (split LF content)))).
  { apply Forall_map. eapply Forall_impl; [|exact L1].
    intros l. apply heading_one_line. repeat constructor. }
  assert (L3 : Forall one_line
            (map (heading "###" "h3")
               (map (heading "##" "h2") (map (heading "#" "h1") (split LF content))))).
  { apply Forall_map. eapply Forall_impl; [|exact L2].
    intros l. apply heading_one_line. repeat constructor. }
  rewrite (header_pass "#" "h1") by (reflexivity || assumption || (eexists; reflexivity)).
  rewrite (header_pass "##" "h2") by (reflexivity || assumption || (eexists; reflexivity)).
  rewrite (header_pass "###" "h3") by (reflexivity || assumption || (eexists; reflexivity)).
  rewrite (header_pass "####" "h4") by (reflexivity || assumption || (eexists; reflexivity)).
  rewrite !map_map. f_equal. apply map_ext. intros l. apply heading_chain.
Qed.

(** ** convert_file *)

Lemma convert_total content : exists html, convert_markdown_to_html content = Ok html.
Proof.
  unfold convert_markdown_to_html, code_blocks, fenced_dart, fenced_tagged, fenced_plain,
    inline_code, headers, lists, list_lines, emphasis, links.
  repeat (rewrite re_sub_returns by reflexivity; cbn [bind]).
  match goal with |- context [scan_lines ?sc ?ls] =>
    destruct (scan_lines_returns ls sc) as [sc' ->] end.
  cbn [bind]. eexists. reflexivity.
Qed.

Section FileProperties.

Variable read_text : str -> io str.
Variable open_write : str -> io unit.
Variable write_text : str -> str -> io unit.
Variable print_out : str -> io unit.
Variable print_err : str -> io unit.
Variable error_text : nat -> str.

Let run_file :=
  convert_file read_text open_write write_text print_out print_err error_text.

Ltac file_unfold :=
  unfold run_file, convert_file, convert_body, use_template, basic_html, exit_after,
    except_not_found, transform, read_file, open_file, write_file, print_line, complain,
    perform, and_then, pass.

Ltac file_step :=
  match goal with
  | |- context [match read_text ?p with _ => _ end] => destruct (read_text p) eqn:?
  | |- context [match convert_markdown_to_html ?c with _ => _ end] =>
      destruct (convert_markdown_to_html c) eqn:?
  | |- context [is_set ?o] => destruct (is_set o) eqn:?
  | |- context [match open_write ?p with _ => _ end] => destruct (open_write p) eqn:?
  | |- context [match write_text ?p ?t with _ => _ end] => destruct (write_text p t) eqn:?
  | |- context [match print_out ?t with _ => _ end] => destruct (print_out t) eqn:?
  | |- context [match print_err ?t with _ => _ end] => destruct (print_err t) eqn:?
  end.

Ltac file_cases := file_unfold; repeat (cbn [andb]; file_step); cbn [andb fst snd app].

(** No file but the output file is opened or written.  It is written once
    at most, unless the confirmation of the template branch raises
    [FileNotFoundError]: then the basic HTML is written over it. *)
Lemma file_written input_file output_file template_file title :
  (forall ev, In ev (fst (run_file input_file output_file template_file title)) ->
     is_opened ev || is_written ev = true ->
     is_set output_file = true
     /\ (ev = Opened (path_of output_file)
         \/ exists text, ev = Written (path_of output_file) text))
  /\ List.length (filter is_written (fst (run_file input_file output_file template_file title)))
     <= 2
  /\ (print_out (converted_using input_file (path_of output_file) (path_of template_file))
      <> FileNotFound ->
      List.length (filter is_written (fst (run_file input_file output_file template_file title)))
      <= 1).
Proof.
  file_cases;
    (split;
     [ intros ev He W; cbn [In] in He;
       repeat (destruct He as [<-|He]; [try discriminate W|]); try contradiction;
       (split; [reflexivity || assumption|]);
       first [left; reflexivity | right; eexists; reflexivity]
     | split;
       [ cbn [filter is_written List.length]; lia
       | intros N; first [cbn [filter is_written List.length]; lia
                         | exfalso; apply N; reflexivity] ] ]).
Qed.

(** The three ways the function ends. *)
Lemma file_ending input_file output_file template_file title :
  let '(log, e) := run_file input_file output_file template_file title in
  (e = Returned /\ exists text, last log (Complained []) = Printed text)
  \/ (e = Exited 1
      /\ exists text,
           last log (Printed []) = Complained text
           /\ (text = not_found_text input_file \/ exists x, text = failure_text x))
  \/ (exists text,
        (text = not_found_text input_file \/ exists x, text = failure_text x)
        /\ ((e = NotFoundRaised /\ print_err text = FileNotFound)
            \/ exists x, e = Raised x /\ print_err text = Failed x)).
Proof.
  file_cases;
    first
      [ left; split; [reflexivity|eexists; reflexivity]
      | right; left; split; [reflexivity|];
        eexists; split; [reflexivity|left; reflexivity]
      | right; left; split; [reflexivity|];
        eexists; split; [reflexivity|right; eexists; reflexivity]
      | right; right; exists (not_found_text input_file); split; [left; reflexivity|];
        first [ left; split; [reflexivity|assumption]
              | right; eexists; split; [reflexivity|eassumption] ]
      | right; right; eexists; split; [right; eexists; reflexivity|];
        first [ left; split; [reflexivity|eassumption]
              | right; eexists; split; [reflexivity|eassumption] ] ].
Qed.

(** When no write and no print to the standard output raises, a run that
    does not return has opened no file and printed nothing but
    complaints. *)
Lemma file_quiet_failure input_file output_file template_file title :
  (forall path text, write_text path text = Done tt) ->
  (forall text, print_out text = Done tt) ->
  snd (run_file input_file output_file template_file title) <> Returned ->
  forallb is_complaint (fst (run_file input_file output_file template_file title)) = true.
Proof.
  intros Hw Hp.
  file_cases; intros N; try reflexivity; try (exfalso; apply N; reflexivity);
    match goal with
    | H : write_text _ _ = _ |- _ => rewrite Hw in H; discriminate H
    | H : print_out _ = _ |- _ => rewrite Hp in H; discriminate H
    end.
Qed.

(** Without an output path the template and the title play no part. *)
Lemma file_no_output input_file output_file template_file title title' :
  is_set output_file = false ->
  run_file input_file output_file template_file title
  = run_file input_file None None title'.
Proof.
  intros H. file_unfold. rewrite H, andb_false_r. reflexivity.
Qed.

(** A template that is not found costs a warning and nothing else. *)
Lemma file_template_missing input_file content output_file template_file title :
  read_text input_file = Done content ->
  is_set output_file = true -> is_set template_file = true ->
  read_text (path_of template_file) = FileNotFound ->
  print_err (warning_text template_file) = Done tt ->
  run_file input_file output_file template_file title
  = (template_warning template_file :: fst (run_file input_file output_file None title),
     snd (run_file input_file output_file None title)).
Proof.
  intros Hi Ho Ht Hm Hp. file_unfold. rewrite Hi.
  destruct (convert_total content) as [html ->].
  rewrite Ho, Ht. cbn [andb is_set]. rewrite Hm, Hp.
  repeat (cbn [andb]; file_step); reflexivity.
Qed.

(** When the output path cannot be opened because a directory is missing,
    the complaints name the template and the input file. *)
Lemma file_output_not_found input_file content output_file template_file template title :
  read_text input_file = Done content ->
  is_set output_file = true -> is_set template_file = true ->
  read_text (path_of template_file) = Done template ->
  open_write (path_of output_file) = FileNotFound ->
  print_err (warning_text template_file) = Done tt ->
  print_err (not_found_text input_file) = Done tt ->
  run_file input_file output_file template_file title
  = ([template_warning template_file; Complained (not_found_text input_file)], Exited 1).
Proof.
  intros Hi Ho Ht Hr Hw Hp Hq. file_unfold. rewrite Hi.
  destruct (convert_total content) as [html ->].
  rewrite Ho, Ht. cbn [andb]. rewrite Hr, Hw, Hp, Hq. reflexivity.
Qed.

(** When every operation on the files and the streams goes through, a
    missing template apart, the function returns: the transform is never
    the cause of a failure. *)
Lemma file_returns input_file content output_file template_file title :
  read_text input_file = Done content ->
  (forall e, read_text (path_of template_file) <> Failed e) ->
  (is_set output_file = true -> open_write (path_of output_file) = Done tt) ->
  (forall text, write_text (path_of output_file) text = Done tt) ->
  (forall text, print_out text = Done tt) ->
  print_err (warning_text template_file) = Done tt ->
  snd (run_file input_file output_file template_file title) = Returned.
Proof.
  intros Hi Ht Ho Hw Hp Hq. file_unfold. rewrite Hi.
  destruct (convert_total content) as [html ->].
  destruct (is_set output_file) eqn:O.
  - rewrite (Ho eq_refl). destruct (is_set template_file); cbn [andb].
    + destruct (read_text (path_of template_file)) eqn:R.
      * rewrite Hw, Hp. reflexivity.
      * rewrite Hq, Hw, Hp. reflexivity.
      * exfalso. apply (Ht e). reflexivity.
    + rewrite Hw, Hp. reflexivity.
  - rewrite andb_false_r, Hp. reflexivity.
Qed.


(** The confirmation that raises after the file was written: the file
    holds the whole text, and the program ends with status 1 all the
    same. *)
Lemma file_print_fails input_file content html_content output_file e :
  read_text input_file = Done content ->
  convert_markdown_to_html content = Ok html_content ->
  is_set output_file = true ->
  open_write (path_of output_file) = Done tt ->
  write_text (path_of output_file) html_content = Done tt ->
  print_out (converted input_file (path_of output_file)) = Failed e ->
  print_err (failure_text e) = Done tt ->
  forall title,
  run_file input_file output_file None title
  = ([Opened (path_of output_file); Written (path_of output_file) html_content;
      Complained (failure_text e)], Exited 1).
Proof.
  intros Hi Hc Ho Hw Hf Hp Hq title. file_unfold. rewrite Hi, Hc, Ho.
  cbn [is_set andb]. rewrite Hw, Hf, Hp, Hq. reflexivity.
Qed.

End FileProperties.

(** * The code beyond the specification *)

(** ** The stages, one construct at a time *)

(** X1: the header stage rewrites the lines of a text one by one, each to the
    heading it stands for: one to four [#], a space and at least one more
    character give the element of that level; a line with five [#], or with
    nothing behind the space, stays as it is. *)
Theorem headers_line_by_line : forall content,
  headers content = Ok (join [LF] (map heading_of (split LF content)))
  /\ (forall x text,
        heading_of (txt "# " ++ x :: text) = txt "<h1>" ++ (x :: text) ++ txt "</h1>"
        /\ heading_of (txt "## " ++ x :: text) = txt "<h2>" ++ (x :: text) ++ txt "</h2>"
        /\ heading_of (txt "### " ++ x :: text) = txt "<h3>" ++ (x :: text) ++ txt "</h3>"
        /\ heading_of (txt "#### " ++ x :: text) = txt "<h4>" ++ (x :: text) ++ txt "</h4>")
  /\ (forall rest, heading_of (txt "#####" ++ rest) = txt "#####" ++ rest)
  /\ heading_of (txt "## ") = txt "## ".
Proof.
  intros content. split; [apply headers_lines|].
  split; [intros x text; repeat split; reflexivity|].
  split; [intros rest; reflexivity|reflexivity].
Qed.

(** X2: a text without a backtick, [#], [*] or [[], none of whose lines is a
    list item, goes through every rewriting stage unchanged: the converter
    returns what the paragraph pass makes of it. *)
Theorem plain_text_is_wrapped : forall content,
  plain content ->
  Forall (fun l => classify l = Other) (split LF content) ->
  convert_markdown_to_html content = Ok (wrap_paragraphs content).
Proof. exact plain_text_passes. Qed.

Lemma plain_text_is_wrapped_witness :
  plain (txt "hello" ++ [LF; LF] ++ txt "2 worlds")
  /\ Forall (fun l => classify l = Other) (split LF (txt "hello" ++ [LF; LF] ++ txt "2 worlds"))
  /\ convert_markdown_to_html (txt "hello" ++ [LF; LF] ++ txt "2 worlds")
     = Ok (txt "<p>hello</p>" ++ [LF; LF] ++ txt "<p>2 worlds</p>").
Proof.
  assert (P : plain (txt "hello" ++ [LF; LF] ++ txt "2 worlds"))
    by (repeat split; repeat constructor).
  assert (O : Forall (fun l => classify l = Other)
                (split LF (txt "hello" ++ [LF; LF] ++ txt "2 worlds")))
    by (repeat constructor).
  split; [exact P|]. split; [exact O|].
  exact (plain_text_is_wrapped (txt "hello" ++ [LF; LF] ++ txt "2 worlds") P O).
Defined.

(** X3: after each line the flags of the list scanner tell the kind of that
    line and nothing else: [in_ul] after a bullet item, [in_ol] after a
    numbered item, neither after another line; they are never both set. *)
Theorem list_flags_follow_last_line : forall lines line,
  exists sc,
    scan_lines (Scan [] false false) (lines ++ [line]) = Ok sc
    /\ in_ul sc = is_bullet (classify line)
    /\ in_ol sc = is_numbered (classify line)
    /\ in_ul sc && in_ol sc = false.
Proof.
  intros lines line.
  destruct (scan_lines_last lines line (Scan [] false false)) as (sc & E & U & O).
  exists sc. split; [exact E|]. split; [exact U|]. split; [exact O|].
  rewrite U, O. destruct (classify line); reflexivity.
Qed.

(** X4: a run of bullet lines alone gives one opening tag, the items in
    their order, each without its two-character marker, and one closing
    tag. *)
Theorem bullet_run : forall item items,
  list_lines (map (fun i => txt "- " ++ i) (item :: items))
  = Ok (txt "<ul>" :: map li (item :: items) ++ [txt "</ul>"]).
Proof.
  intros item items. unfold list_lines. cbn [map scan_lines].
  unfold scan_line. rewrite classify_bullet. cbn [in_ul in_ol negb bind].
  rewrite scan_bullets by reflexivity. reflexivity.
Qed.

(** X5: a run of numbered lines alone (digits, a backslash, one character, a
    space, the text) gives one opening tag, the texts in their order, each
    with its marker cut off and otherwise as written, and one closing tag. *)
Theorem numbered_run : forall e entries,
  Forall marker_ok (e :: entries) ->
  list_lines (map numbered_line (e :: entries))
  = Ok (txt "<ol>" :: map (fun e => li (item_of e)) (e :: entries) ++ [txt "</ol>"]).
Proof.
  intros e entries H. inversion H as [|? ? He Hes]; subst.
  unfold list_lines. cbn [map scan_lines].
  unfold scan_line. rewrite (classify_numbered_line e He). cbn [in_ul in_ol negb].
  destruct e as [[ds c] item]. rewrite (cleaned_line ds c item He). cbn [bind].
  rewrite scan_numbered by (exact Hes || reflexivity). reflexivity.
Qed.

Lemma numbered_run_witness :
  Forall marker_ok [(txt "1", "."%char, txt "one"); (txt "12", "x"%char, txt "3\. two")]
  /\ list_lines [txt "1\. one"; txt "12\x 3\. two"]
     = Ok [txt "<ol>"; txt "<li>one</li>"; txt "<li>3\. two</li>"; txt "</ol>"].
Proof.
  assert (M : Forall marker_ok
                [(txt "1", "."%char, txt "one"); (txt "12", "x"%char, txt "3\. two")]).
  { repeat constructor; discriminate. }
  split; [exact M|].
  exact (numbered_run (txt "1", "."%char, txt "one")
           [(txt "12", "x"%char, txt "3\. two")] M).
Defined.

(** X6: the list stage returns a text none of whose lines is a list item
    exactly as it got it. *)
Theorem lists_without_items : forall content,
  Forall (fun l => classify l = Other) (split LF content) -> lists content = Ok content.
Proof. exact lists_other. Qed.

Lemma lists_without_items_witness :
  Forall (fun l => classify l = Other) (split LF (txt "-a" ++ [LF] ++ txt "1. b" ++ [LF]))
  /\ lists (txt "-a" ++ [LF] ++ txt "1. b" ++ [LF]) = Ok (txt "-a" ++ [LF] ++ txt "1. b" ++ [LF]).
Proof.
  assert (O : Forall (fun l => classify l = Other)
                (split LF (txt "-a" ++ [LF] ++ txt "1. b" ++ [LF])))
    by (repeat constructor).
  split; [exact O|].
  exact (lists_without_items (txt "-a" ++ [LF] ++ txt "1. b" ++ [LF]) O).
Defined.

(** X7: when no line of the input is itself one of the four list tags, the
    list scanner closes every list it opens: its output has as many closing
    as opening tags of each kind. *)
Theorem list_tags_balanced : forall lines,
  forallb no_list_tag lines = true ->
  exists out,
    list_lines lines = Ok out
    /\ count (txt "<ul>") out = count (txt "</ul>") out
    /\ count (txt "<ol>") out = count (txt "</ol>") out.
Proof. exact list_lines_balance. Qed.

Lemma list_tags_balanced_witness :
  forallb no_list_tag [txt "- a"; txt "1\. b"; txt "- c"; txt "d"; txt "- e"] = true
  /\ exists out,
       list_lines [txt "- a"; txt "1\. b"; txt "- c"; txt "d"; txt "- e"] = Ok out
       /\ count (txt "<ul>") out = count (txt "</ul>") out
       /\ count (txt "<ol>") out = count (txt "</ol>") out.
Proof.
  split; [reflexivity|].
  apply (list_tags_balanced [txt "- a"; txt "1\. b"; txt "- c"; txt "d"; txt "- e"]).
  reflexivity.
Defined.

(** X8: the paragraph pass wraps a line exactly when the line has a
    character that is not whitespace and does not begin with [<]; the test
    against the line [<br>] never decides. *)
Theorem wrap_line_by_cases : forall line,
  wrap_line line
  = if has_text line && negb (startswith (txt "<") line)
    then txt "<p>" ++ line ++ txt "</p>" else line.
Proof. exact wrap_line_cases. Qed.

(** X9: a link between texts without [[] is rewritten to an anchor; the
    label and the address are inserted as written, without escaping. *)
Theorem link_is_rewritten : forall pre label url post,
  lacks "[" pre -> lacks "[" post ->
  label <> [] -> url <> [] -> lacks "]" label -> lacks ")" url ->
  links (pre ++ txt "[" ++ label ++ txt "](" ++ url ++ txt ")" ++ post)
  = Ok (pre ++ txt "<a href=" ++ quoted url ++ txt ">" ++ label ++ txt "</a>" ++ post).
Proof. exact links_one. Qed.

Lemma link_is_rewritten_witness :
  lacks "[" (txt "see ") /\ lacks "[" (txt ".")
  /\ txt "<b>" <> [] /\ DQ :: txt "x" <> []
  /\ lacks "]" (txt "<b>") /\ lacks ")" (DQ :: txt "x")
  /\ links (txt "see [<b>](" ++ DQ :: txt "x).")
     = Ok (txt "see <a href=" ++ quoted (DQ :: txt "x") ++ txt "><b></a>.").
Proof.
  assert (A : lacks "[" (txt "see ")) by (repeat constructor).
  assert (B : lacks "[" (txt ".")) by (repeat constructor).
  assert (C : txt "<b>" <> []) by discriminate.
  assert (D : DQ :: txt "x" <> []) by discriminate.
  assert (E : lacks "]" (txt "<b>")) by (repeat constructor).
  assert (F : lacks ")" (DQ :: txt "x")) by (repeat constructor).
  repeat (split; [assumption|]).
  exact (link_is_rewritten (txt "see ") (txt "<b>") (DQ :: txt "x") (txt ".") A B C D E F).
Defined.

(** X10: an inline span between texts without a backtick, whose body is not
    empty and has neither a backtick nor a newline, becomes a [code] element
    with the body as written. *)
Theorem inline_code_is_rewritten : forall pre body post,
  lacks BTICK pre -> lacks BTICK post ->
  body <> [] -> forallb (none_of [BTICK; LF]) body = true ->
  inline_code (pre ++ BTICK :: body ++ BTICK :: post)
  = Ok (pre ++ txt "<code>" ++ body ++ txt "</code>" ++ post).
Proof. exact inline_code_one. Qed.

Lemma inline_code_is_rewritten_witness :
  lacks BTICK (txt "a ") /\ lacks BTICK (txt " b")
  /\ txt "x<y" <> [] /\ forallb (none_of [BTICK; LF]) (txt "x<y") = true
  /\ inline_code (txt "a `x<y` b") = Ok (txt "a <code>x<y</code> b").
Proof.
  assert (A : lacks BTICK (txt "a ")) by (repeat constructor).
  assert (B : lacks BTICK (txt " b")) by (repeat constructor).
  assert (C : txt "x<y" <> []) by discriminate.
  repeat (split; [assumption || reflexivity|]).
  exact (inline_code_is_rewritten (txt "a ") (txt "x<y") (txt " b") A B C eq_refl).
Defined.

(** X11: a bold span followed by an italic span, in a text with no other
    asterisk, gives a [strong] and an [em] element: the bold pass does not
    take the single asterisks, and the italic pass finds the bold
    delimiters gone. *)
Theorem bold_then_italic : forall pre bold mid italic post,
  lacks "*" pre -> lacks "*" bold -> lacks "*" mid -> lacks "*" italic -> lacks "*" post ->
  bold <> [] -> italic <> [] ->
  emphasis (pre ++ txt "**" ++ bold ++ txt "**" ++ mid ++ txt "*" ++ italic ++ txt "*" ++ post)
  = Ok (pre ++ txt "<strong>" ++ bold ++ txt "</strong>" ++ mid
        ++ txt "<em>" ++ italic ++ txt "</em>" ++ post).
Proof. exact emphasis_bold_then_italic. Qed.

Lemma bold_then_italic_witness :
  lacks "*" [] /\ lacks "*" (txt "bold") /\ lacks "*" (txt " and ")
  /\ lacks "*" (txt "italic") /\ lacks "*" []
  /\ txt "bold" <> [] /\ txt "italic" <> []
  /\ emphasis (txt "**bold** and *italic*")
     = Ok (txt "<strong>bold</strong> and <em>italic</em>").
Proof.
  assert (A : lacks "*" []) by constructor.
  assert (B : lacks "*" (txt "bold")) by (repeat constructor).
  assert (C : lacks "*" (txt " and ")) by (repeat constructor).
  assert (D : lacks "*" (txt "italic")) by (repeat constructor).
  assert (E : txt "bold" <> []) by discriminate.
  assert (F : txt "italic" <> []) by discriminate.
  repeat (split; [assumption|]).
  exact (bold_then_italic [] (txt "bold") (txt " and ") (txt "italic") [] A B C D A E F).
Defined.

(** X12: in a text whose only backticks are those of the two fences of one
    block (none before the block, none in its body, none after it), a block
    opened by three backticks and [dart] becomes a [pre] and [code] pair of
    class [dart] whose body is everything up to the closing fence, less one
    leading newline, as written; what follows [dart] on the opening line is
    part of that body, and the text around the block stays. *)
Theorem dart_fence_block : forall pre body post,
  lacks BTICK pre -> lacks BTICK body -> lacks BTICK post ->
  code_blocks (pre ++ txt "```dart" ++ body ++ txt "```" ++ post)
  = Ok (pre ++ txt "<pre class=" ++ quoted (txt "language-dart line-numbers")
        ++ txt "><code class=" ++ quoted (txt "language-dart") ++ txt ">"
        ++ drop_newline body ++ txt "</code></pre>" ++ post).
Proof. exact code_blocks_dart. Qed.

Lemma dart_fence_block_witness :
  lacks BTICK [] /\ lacks BTICK (txt "s<T>" ++ [LF] ++ txt "x" ++ [LF]) /\ lacks BTICK []
  /\ code_blocks (txt "```darts<T>" ++ [LF] ++ txt "x" ++ [LF] ++ txt "```")
     = Ok (txt "<pre class=" ++ quoted (txt "language-dart line-numbers")
           ++ txt "><code class=" ++ quoted (txt "language-dart") ++ txt ">s<T>"
           ++ [LF] ++ txt "x" ++ [LF] ++ txt "</code></pre>").
Proof.
  assert (A : lacks BTICK []) by constructor.
  assert (B : lacks BTICK (txt "s<T>" ++ [LF] ++ txt "x" ++ [LF])) by (repeat constructor).
  repeat (split; [assumption|]).
  exact (dart_fence_block [] (txt "s<T>" ++ [LF] ++ txt "x" ++ [LF]) [] A B A).
Defined.

(** X13: in a text whose only backticks are those of the two fences of one
    block (none before the block, none in its body, none after it), a block
    opened by three backticks, a tag of letters that does not begin with
    [dart] (the empty tag too) and a newline becomes a [pre] and [code] pair
    with that tag as class suffix and the body as written; the text around
    the block stays. *)
Theorem tagged_fence_block : forall pre tag body post,
  lacks BTICK pre -> forallb alpha tag = true -> startswith (txt "dart") tag = false ->
  lacks BTICK body -> lacks BTICK post ->
  code_blocks (pre ++ txt "```" ++ tag ++ LF :: body ++ txt "```" ++ post)
  = Ok (pre ++ txt "<pre class=" ++ quoted (txt "language-" ++ tag ++ txt " line-numbers")
        ++ txt "><code class=" ++ quoted (txt "language-" ++ tag) ++ txt ">"
        ++ body ++ txt "</code></pre>" ++ post).
Proof. exact code_blocks_tagged. Qed.

Lemma tagged_fence_block_witness :
  lacks BTICK (txt "a") /\ forallb alpha (txt "Dart") = true
  /\ startswith (txt "dart") (txt "Dart") = false
  /\ lacks BTICK (txt "x<y" ++ [LF]) /\ lacks BTICK (txt "b")
  /\ code_blocks (txt "a```Dart" ++ [LF] ++ txt "x<y" ++ [LF] ++ txt "```b")
     = Ok (txt "a<pre class=" ++ quoted (txt "language-Dart line-numbers")
           ++ txt "><code class=" ++ quoted (txt "language-Dart") ++ txt ">x<y"
           ++ [LF] ++ txt "</code></pre>b").
Proof.
  assert (A : lacks BTICK (txt "a")) by (repeat constructor).
  assert (B : lacks BTICK (txt "x<y" ++ [LF])) by (repeat constructor).
  assert (C : lacks BTICK (txt "b")) by (repeat constructor).
  split; [exact A|]. split; [reflexivity|]. split; [reflexivity|].
  split; [exact B|]. split; [exact C|].
  exact (tagged_fence_block (txt "a") (txt "Dart") (txt "x<y" ++ [LF]) (txt "b")
           A eq_refl eq_refl B C).
Defined.

(** X14: the third substitution of the code-block stage never changes the
    text: the stage is the first two substitutions. *)
Theorem third_substitution_is_idle : forall content,
  code_blocks content = (content <- fenced_dart content ;; fenced_tagged content).
Proof.
  intros content. unfold code_blocks.
  destruct (fenced_dart content) as [c1|g]; [|reflexivity]. cbn [bind].
  destruct (fenced_tagged c1) as [c2|g] eqn:T; [|reflexivity]. cbn [bind].
  exact (third_fence_pass_idle _ _ T).
Qed.

(** X15: a template without an opening brace is written as it is: the title
    and the converted text are dropped. *)
Theorem template_without_placeholders : forall template title html_content,
  brace_free template -> final_html template title html_content = template.
Proof.
  intros template title html_content H. unfold final_html.
  assert (R : forall old' new, replace (LBRACE :: old') new template = template).
  { intros old' new. change (replace (LBRACE :: old') new template)
      with (replace_from (LBRACE :: old') new 0 template).
    rewrite <- (app_nil_r template) at 1. rewrite replace_from_miss by exact H.
    apply app_nil_r. }
  change TITLE with (LBRACE :: txt "{TITLE}}"). rewrite R.
  change CONTENT with (LBRACE :: txt "{CONTENT}}"). apply R.
Qed.

Lemma template_without_placeholders_witness :
  brace_free (txt "<html>TITLE CONTENT}}</html>")
  /\ final_html (txt "<html>TITLE CONTENT}}</html>") (txt "T") (txt "<p>x</p>")
     = txt "<html>TITLE CONTENT}}</html>".
Proof.
  assert (B : brace_free (txt "<html>TITLE CONTENT}}</html>")) by (repeat constructor).
  split; [exact B|].
  exact (template_without_placeholders (txt "<html>TITLE CONTENT}}</html>") (txt "T")
           (txt "<p>x</p>") B).
Defined.

(** ** The whole transform on a heading *)

Lemma classify_markup line : startswith (txt "<") line = true -> classify line = Other.
Proof.
  destruct line as [|x line]; [discriminate|].
  cbn [txt list_ascii_of_string startswith]. rewrite andb_true_r. intros H.
  apply chr_eqb_eq in H. subst x. reflexivity.
Qed.

Lemma markup_line_passes line out :
  one_line line -> one_line out ->
  lacks BTICK line -> lacks "*" out -> lacks "[" out ->
  heading_of line = out -> startswith (txt "<") out = true ->
  convert_markdown_to_html line = Ok out.
Proof.
  intros Ll Lo Lt Ls Lb H M.
  unfold convert_markdown_to_html, code_blocks, fenced_dart, fenced_tagged, fenced_plain,
    inline_code, emphasis, links.
  rewrite (re_sub_lacks true fence_dart pre_dart BTICK line)
    by (apply needs_literal || assumption || reflexivity). cbn [bind].
  rewrite (re_sub_lacks true fence_tagged pre_tagged BTICK line)
    by (apply needs_literal || assumption || reflexivity). cbn [bind].
  rewrite (re_sub_lacks true fence_plain pre_dart BTICK line)
    by (apply needs_literal || assumption || reflexivity). cbn [bind].
  rewrite (re_sub_lacks false inline_span code_element BTICK line)
    by (apply needs_literal || assumption || reflexivity). cbn [bind].
  rewrite headers_lines, (split_one_line line Ll). cbn [map join bind]. rewrite H.
  rewrite lists_other
    by (rewrite (split_one_line out Lo); constructor; [apply classify_markup, M|constructor]).
  cbn [bind].
  rewrite (re_sub_lacks false bold_span strong_element "*" out)
    by (apply needs_literal || assumption || reflexivity). cbn [bind].
  rewrite (re_sub_lacks false italic_span em_element "*" out)
    by (apply needs_literal || assumption || reflexivity). cbn [bind].
  rewrite (re_sub_lacks false link_span anchor_element "[" out)
    by (apply needs_literal || assumption || reflexivity). cbn [bind].
  unfold wrap_paragraphs. rewrite (split_one_line out Lo). cbn [map join].
  rewrite wrap_line_markup by exact M. reflexivity.
Qed.

(** X16: a document that is one heading line, whose text has no backtick,
    asterisk, opening bracket or newline, is converted to the heading
    element alone, with the text as written and no paragraph around it. *)
Theorem heading_document : forall x text,
  one_line (x :: text) -> lacks BTICK (x :: text) ->
  lacks "*" (x :: text) -> lacks "[" (x :: text) ->
  convert_markdown_to_html (txt "# " ++ x :: text)
    = Ok (txt "<h1>" ++ (x :: text) ++ txt "</h1>")
  /\ convert_markdown_to_html (txt "## " ++ x :: text)
    = Ok (txt "<h2>" ++ (x :: text) ++ txt "</h2>")
  /\ convert_markdown_to_html (txt "### " ++ x :: text)
    = Ok (txt "<h3>" ++ (x :: text) ++ txt "</h3>")
  /\ convert_markdown_to_html (txt "#### " ++ x :: text)
    = Ok (txt "<h4>" ++ (x :: text) ++ txt "</h4>").
Proof.
  intros x text Ll Lt Ls Lb.
  repeat split; apply markup_line_passes;
    try reflexivity;
    repeat apply one_line_app; repeat apply lacks_app;
    try assumption; repeat constructor.
Qed.

Lemma heading_document_witness :
  one_line (txt "Title <1>") /\ lacks BTICK (txt "Title <1>")
  /\ lacks "*" (txt "Title <1>") /\ lacks "[" (txt "Title <1>")
  /\ convert_markdown_to_html (txt "### Title <1>") = Ok (txt "<h3>Title <1></h3>").
Proof.
  assert (A : one_line (txt "Title <1>")) by (repeat constructor).
  assert (B : lacks BTICK (txt "Title <1>")) by (repeat constructor).
  assert (C : lacks "*" (txt "Title <1>")) by (repeat constructor).
  assert (D : lacks "[" (txt "Title <1>")) by (repeat constructor).
  repeat (split; [assumption|]).
  exact (proj1 (proj2 (proj2 (heading_document "T"%char (txt "itle <1>") A B C D)))).
Defined.

(** ** convert_file *)

(** X17: whatever the files and the streams do, [convert_file] opens and
    writes no file but the output file.  It writes it twice at most, and
    once at most unless the confirmation of the template branch raises
    [FileNotFoundError]: the inner handler then takes that for a missing
    template, and the basic HTML is written over the text just written. *)
Theorem only_the_output_is_written :
  forall read_text open_write write_text print_out print_err error_text
         input_file output_file template_file title,
  (forall ev,
     In ev (fst (convert_file read_text open_write write_text print_out print_err error_text
                   input_file output_file template_file title)) ->
     is_opened ev || is_written ev = true ->
     is_set output_file = true
     /\ (ev = Opened (path_of output_file)
         \/ exists text, ev = Written (path_of output_file) text))
  /\ List.length
       (filter is_written
          (fst (convert_file read_text open_write write_text print_out print_err error_text
                  input_file output_file template_file title))) <= 2
  /\ (print_out (converted_using input_file (path_of output_file) (path_of template_file))
      <> FileNotFound ->
      List.length
        (filter is_written
           (fst (convert_file read_text open_write write_text print_out print_err error_text
                   input_file output_file template_file title))) <= 1).
Proof. exact file_written. Qed.

Lemma only_the_output_is_written_witness :
  every_line_printed (converted_using (txt "in.md") (txt "out.html") (txt "t.html"))
  <> FileNotFound
  /\ List.length
       (filter is_written
          (fst (convert_file input_and_template every_path_opens every_write_done
                  every_line_printed every_line_printed no_text
                  (txt "in.md") (Some (txt "out.html")) (Some (txt "t.html")) (txt "T"))))
     <= 1.
Proof.
  assert (N : every_line_printed (converted_using (txt "in.md") (txt "out.html") (txt "t.html"))
              <> FileNotFound) by discriminate.
  split; [exact N|].
  exact (proj2 (proj2 (only_the_output_is_written input_and_template every_path_opens
                         every_write_done every_line_printed every_line_printed no_text
                         (txt "in.md") (Some (txt "out.html")) (Some (txt "t.html")) (txt "T")))
           N).
Defined.

(** The second write: the template text is written, its confirmation
    raises [FileNotFoundError], and the basic HTML replaces it. *)
Example written_twice :
  convert_file input_and_template every_path_opens every_write_done
    confirmation_not_found every_line_printed no_text
    (txt "in.md") (Some (txt "out.html")) (Some (txt "t.html")) (txt "T")
  = ([Opened (txt "out.html");
      Written (txt "out.html") (txt "<html>T:<h1>T</h1></html>");
      Complained (txt "Warning: Template file 't.html' not found, using basic HTML");
      Opened (txt "out.html");
      Written (txt "out.html") (txt "<h1>T</h1>");
      Complained (txt "Error: File 'in.md' not found")],
     Exited 1).
Proof. vm_compute. reflexivity. Qed.

(** X18: [convert_file] ends in one of three ways.  It returns, and the
    last thing it did was to print a line to the standard output.  Or it
    ends the program with status 1, and the last thing it did was to print
    one of its two error messages to the standard error.  Or an exception
    leaves it: that of the print of such an error message, and nothing
    else. *)
Theorem ends_printed_or_complaining :
  forall read_text open_write write_text print_out print_err error_text
         input_file output_file template_file title,
  let '(log, e) := convert_file read_text open_write write_text print_out print_err error_text
                     input_file output_file template_file title in
  (e = Returned /\ exists text, last log (Complained []) = Printed text)
  \/ (e = Exited 1
      /\ exists text,
           last log (Printed []) = Complained text
           /\ (text = not_found_text input_file \/ exists x, text = failure_text x))
  \/ (exists text,
        (text = not_found_text input_file \/ exists x, text = failure_text x)
        /\ ((e = NotFoundRaised /\ print_err text = FileNotFound)
            \/ exists x, e = Raised x /\ print_err text = Failed x)).
Proof. exact file_ending. Qed.

(** X19: without an output path (none, or the empty string) the template
    and the title play no part: the call does what the call with the input
    file alone does. *)
Theorem no_output_ignores_template :
  forall read_text open_write write_text print_out print_err error_text
         input_file output_file template_file title title',
  is_set output_file = false ->
  convert_file read_text open_write write_text print_out print_err error_text
    input_file output_file template_file title
  = convert_file read_text open_write write_text print_out print_err error_text
      input_file None None title'.
Proof. exact file_no_output. Qed.

Lemma no_output_ignores_template_witness :
  is_set (Some []) = false
  /\ convert_file input_and_template every_path_opens every_write_done
       every_line_printed every_line_printed no_text
       (txt "in.md") (Some []) (Some (txt "t.html")) (txt "T")
     = ([Printed (txt "<h1>T</h1>")], Returned).
Proof.
  split; [reflexivity|].
  rewrite (no_output_ignores_template input_and_template every_path_opens every_write_done
             every_line_printed every_line_printed no_text
             (txt "in.md") (Some []) (Some (txt "t.html")) (txt "T") [] eq_refl).
  reflexivity.
Defined.

(** X20: when the input is read and both paths are given but the template
    is not found, the call does what the call without a template does,
    after one warning on the standard error (the warning being printed). *)
Theorem missing_template_costs_a_warning :
  forall read_text open_write write_text print_out print_err error_text
         input_file content output_file template_file title,
  read_text input_file = Done content ->
  is_set output_file = true -> is_set template_file = true ->
  read_text (path_of template_file) = FileNotFound ->
  print_err (warning_text template_file) = Done tt ->
  convert_file read_text open_write write_text print_out print_err error_text
    input_file output_file template_file title
  = (template_warning template_file
       :: fst (convert_file read_text open_write write_text print_out print_err error_text
                 input_file output_file None title),
     snd (convert_file read_text open_write write_text print_out print_err error_text
            input_file output_file None title)).
Proof. exact file_template_missing. Qed.

Lemma missing_template_costs_a_warning_witness :
  only_input (txt "in.md") = Done (txt "# T")
  /\ is_set (Some (txt "out.html")) = true /\ is_set (Some (txt "t.html")) = true
  /\ only_input (txt "t.html") = FileNotFound
  /\ every_line_printed (warning_text (Some (txt "t.html"))) = Done tt
  /\ convert_file only_input every_path_opens every_write_done
       every_line_printed every_line_printed no_text
       (txt "in.md") (Some (txt "out.html")) (Some (txt "t.html")) (txt "T")
     = ([Complained (txt "Warning: Template file 't.html' not found, using basic HTML");
         Opened (txt "out.html");
         Written (txt "out.html") (txt "<h1>T</h1>");
         Printed (txt "Converted in.md to out.html")],
        Returned).
Proof.
  repeat (split; [reflexivity|]).
  rewrite (missing_template_costs_a_warning only_input every_path_opens every_write_done
             every_line_printed every_line_printed no_text
             (txt "in.md") (txt "# T") (Some (txt "out.html")) (Some (txt "t.html")) (txt "T")
             eq_refl eq_refl eq_refl eq_refl eq_refl).
  reflexivity.
Defined.

(** X21: when the input and the template are read but the output path
    cannot be opened because it is not found, no file is opened or written
    and the program ends with status 1; the two complaints it prints say
    that the template and the input file were not found. *)
Theorem unwritable_output_blames_other_files :
  forall read_text open_write write_text print_out print_err error_text
         input_file content output_file template_file template title,
  read_text input_file = Done content ->
  is_set output_file = true -> is_set template_file = true ->
  read_text (path_of template_file) = Done template ->
  open_write (path_of output_file) = FileNotFound ->
  print_err (warning_text template_file) = Done tt ->
  print_err (not_found_text input_file) = Done tt ->
  convert_file read_text open_write write_text print_out print_err error_text
    input_file output_file template_file title
  = ([template_warning template_file; Complained (not_found_text input_file)], Exited 1).
Proof. exact file_output_not_found. Qed.

Lemma unwritable_output_blames_other_files_witness :
  input_and_template (txt "in.md") = Done (txt "# T")
  /\ is_set (Some (txt "d/out.html")) = true /\ is_set (Some (txt "t.html")) = true
  /\ input_and_template (txt "t.html") = Done (txt "<html>{{TITLE}}:{{CONTENT}}</html>")
  /\ no_directory (txt "d/out.html") = FileNotFound
  /\ every_line_printed (warning_text (Some (txt "t.html"))) = Done tt
  /\ every_line_printed (not_found_text (txt "in.md")) = Done tt
  /\ convert_file input_and_template no_directory every_write_done
       every_line_printed every_line_printed no_text
       (txt "in.md") (Some (txt "d/out.html")) (Some (txt "t.html")) (txt "T")
     = ([Complained (txt "Warning: Template file 't.html' not found, using basic HTML");
         Complained (txt "Error: File 'in.md' not found")],
        Exited 1).
Proof.
  repeat (split; [reflexivity|]).
  exact (unwritable_output_blames_other_files input_and_template no_directory every_write_done
           every_line_printed every_line_printed no_text
           (txt "in.md") (txt "# T") (Some (txt "d/out.html")) (Some (txt "t.html"))
           (txt "<html>{{TITLE}}:{{CONTENT}}</html>") (txt "T")
           eq_refl eq_refl eq_refl eq_refl eq_refl eq_refl eq_refl).
Defined.

(** X22: when the input is read, reading the template raises nothing but
    "not found", the output path (if one is given) can be opened, and no
    write into it, no print to the standard output and not the warning
    raises, [convert_file] returns: the transform itself never makes it
    fail. *)
Theorem returns_when_files_work :
  forall read_text open_write write_text print_out print_err error_text
         input_file content output_file template_file title,
  read_text input_file = Done content ->
  (forall e, read_text (path_of template_file) <> Failed e) ->
  (is_set output_file = true -> open_write (path_of output_file) = Done tt) ->
  (forall text, write_text (path_of output_file) text = Done tt) ->
  (forall text, print_out text = Done tt) ->
  print_err (warning_text template_file) = Done tt ->
  snd (convert_file read_text open_write write_text print_out print_err error_text
         input_file output_file template_file title)
  = Returned.
Proof. exact file_returns. Qed.

Lemma returns_when_files_work_witness :
  input_and_template (txt "in.md") = Done (txt "# T")
  /\ (forall e, input_and_template (txt "t.html") <> Failed e)
  /\ (is_set (Some (txt "out.html")) = true -> every_path_opens (txt "out.html") = Done tt)
  /\ (forall text, every_write_done (txt "out.html") text = Done tt)
  /\ (forall text, every_line_printed text = Done tt)
  /\ every_line_printed (warning_text (Some (txt "t.html"))) = Done tt
  /\ snd (convert_file input_and_template every_path_opens every_write_done
            every_line_printed every_line_printed no_text
            (txt "in.md") (Some (txt "out.html")) (Some (txt "t.html")) (txt "T"))
     = Returned.
Proof.
  assert (A : forall e, input_and_template (txt "t.html") <> Failed e) by discriminate.
  assert (B : is_set (Some (txt "out.html")) = true -> every_path_opens (txt "out.html") = Done tt)
    by reflexivity.
  assert (C : forall text, every_write_done (txt "out.html") text = Done tt) by reflexivity.
  assert (D : forall text, every_line_printed text = Done tt) by reflexivity.
  split; [reflexivity|]. split; [exact A|]. split; [exact B|]. split; [exact C|].
  split; [exact D|]. split; [reflexivity|].
  exact (returns_when_files_work input_and_template every_path_opens every_write_done
           every_line_printed every_line_printed no_text
           (txt "in.md") (txt "# T") (Some (txt "out.html")) (Some (txt "t.html")) (txt "T")
           eq_refl A B C D eq_refl).
Defined.

(** With the template: the file that is written. *)
Example template_run :
  convert_file input_and_template every_path_opens every_write_done
    every_line_printed every_line_printed no_text
    (txt "in.md") (Some (txt "out.html")) (Some (txt "t.html")) (txt "T")
  = ([Opened (txt "out.html");
      Written (txt "out.html") (txt "<html>T:<h1>T</h1></html>");
      Printed (txt "Converted in.md to out.html using template t.html")],
     Returned).
Proof. vm_compute. reflexivity. Qed.



(** X27: a confirmation that raises after the file was written.  The
    output file holds the whole text, and the program ends with status 1
    all the same, after the message of the exception. *)
Theorem failed_confirmation_after_the_write :
  forall read_text open_write write_text print_out print_err error_text
         input_file content html_content output_file e,
  read_text input_file = Done content ->
  convert_markdown_to_html content = Ok html_content ->
  is_set output_file = true ->
  open_write (path_of output_file) = Done tt ->
  write_text (path_of output_file) html_content = Done tt ->
  print_out (converted input_file (path_of output_file)) = Failed e ->
  print_err (failure_text e) = Done tt ->
  forall title,
  convert_file read_text open_write write_text print_out print_err error_text
    input_file output_file None title
  = ([Opened (path_of output_file); Written (path_of output_file) html_content;
      Complained (failure_text e)], Exited 1).
Proof. exact file_print_fails. Qed.

Lemma failed_confirmation_after_the_write_witness :
  only_input (txt "in.md") = Done (txt "# T")
  /\ convert_markdown_to_html (txt "# T") = Ok (txt "<h1>T</h1>")
  /\ is_set (Some (txt "out.html")) = true
  /\ every_path_opens (txt "out.html") = Done tt
  /\ every_write_done (txt "out.html") (txt "<h1>T</h1>") = Done tt
  /\ broken_pipe (converted (txt "in.md") (txt "out.html")) = Failed (txt "Broken pipe")
  /\ every_line_printed (failure_text (txt "Broken pipe")) = Done tt
  /\ convert_file only_input every_path_opens every_write_done broken_pipe
       every_line_printed no_text (txt "in.md") (Some (txt "out.html")) None (txt "T")
     = ([Opened (txt "out.html"); Written (txt "out.html") (txt "<h1>T</h1>");
         Complained (txt "Error converting file: Broken pipe")],
        Exited 1).
Proof.
  assert (C : convert_markdown_to_html (txt "# T") = Ok (txt "<h1>T</h1>"))
    by (vm_compute; reflexivity).
  split; [reflexivity|]. split; [exact C|]. repeat (split; [reflexivity|]).
  exact (failed_confirmation_after_the_write only_input every_path_opens every_write_done
           broken_pipe every_line_printed no_text
           (txt "in.md") (txt "# T") (txt "<h1>T</h1>") (Some (txt "out.html"))
           (txt "Broken pipe") eq_refl C eq_refl eq_refl eq_refl eq_refl eq_refl (txt "T")).
Defined.

(** X28: when no write and no print to the standard output raises, a run
    that does not return has opened no file, written none and printed
    nothing to the standard output: its effects are complaints alone. *)
Theorem failure_without_trace_when_writes_work :
  forall read_text open_write write_text print_out print_err error_text
         input_file output_file template_file title,
  (forall path text, write_text path text = Done tt) ->
  (forall text, print_out text = Done tt) ->
  snd (convert_file read_text open_write write_text print_out print_err error_text
         input_file output_file template_file title) <> Returned ->
  forallb is_complaint
    (fst (convert_file read_text open_write write_text print_out print_err error_text
            input_file output_file template_file title)) = true.
Proof. exact file_quiet_failure. Qed.

Lemma failure_without_trace_when_writes_work_witness :
  (forall path text, every_write_done path text = Done tt)
  /\ (forall text, every_line_printed text = Done tt)
  /\ snd (convert_file input_and_template no_directory every_write_done
            every_line_printed every_line_printed no_text
            (txt "in.md") (Some (txt "d/out.html")) (Some (txt "t.html")) (txt "T"))
     <> Returned
  /\ forallb is_complaint
       (fst (convert_file input_and_template no_directory every_write_done
               every_line_printed every_line_printed no_text
               (txt "in.md") (Some (txt "d/out.html")) (Some (txt "t.html")) (txt "T")))
     = true.
Proof.
  assert (A : forall path text, every_write_done path text = Done tt) by reflexivity.
  assert (B : forall text, every_line_printed text = Done tt) by reflexivity.
  assert (N : snd (convert_file input_and_template no_directory every_write_done
                     every_line_printed every_line_printed no_text
                     (txt "in.md") (Some (txt "d/out.html")) (Some (txt "t.html")) (txt "T"))
              <> Returned) by (vm_compute; discriminate).
  split; [exact A|]. split; [exact B|]. split; [exact N|].
  exact (failure_without_trace_when_writes_work input_and_template no_directory
           every_write_done every_line_printed every_line_printed no_text
           (txt "in.md") (Some (txt "d/out.html")) (Some (txt "t.html")) (txt "T") A B N).
Defined.

(** ** The whole transform on a list and on a code block *)

Lemma lacks_join c lines :
  chr_eqb LF c = false -> Forall (lacks c) lines -> lacks c (join [LF] lines).
Proof.
  intros Hc. induction 1 as [|l lines Hl Hls IH]; [constructor|].
  destruct lines as [|l2 lines]; [exact Hl|].
  change (join [LF] (l :: l2 :: lines)) with (l ++ LF :: join [LF] (l2 :: lines)).
  apply lacks_app; [exact Hl|]. constructor; [exact Hc|exact IH].
Qed.

Lemma wrap_paragraphs_join lines :
  lines <> [] -> Forall one_line lines ->
  wrap_paragraphs (join [LF] lines) = join [LF] (map wrap_line lines).
Proof. intros N L. unfold wrap_paragraphs. rewrite split_join by assumption. reflexivity. Qed.

(** The stages behind the code-block stage on a text they have nothing to
    rewrite in. *)
Lemma later_stages_pass lines :
  lines <> [] -> Forall one_line lines ->
  lacks BTICK (join [LF] lines) -> lacks "#" (join [LF] lines) ->
  lacks "*" (join [LF] lines) -> lacks "[" (join [LF] lines) ->
  Forall (fun l => classify l = Other) lines ->
  (content <- inline_code (join [LF] lines) ;;
   content <- headers content ;;
   content <- lists content ;;
   content <- emphasis content ;;
   content <- links content ;;
   Ok (wrap_paragraphs content))
  = Ok (join [LF] (map wrap_line lines)).
Proof.
  intros N L Lt Lh Ls Lb O. unfold inline_code, headers, emphasis, links.
  rewrite (re_sub_lacks false inline_span code_element BTICK _ (needs_literal _ _) Lt eq_refl).
  cbn [bind].
  rewrite (re_sub_lacks true (header_line "#") (header_element "h1") "#" _
             (needs_bol_literal _ _) Lh eq_refl). cbn [bind].
  rewrite (re_sub_lacks true (header_line "##") (header_element "h2") "#" _
             (needs_bol_literal _ _) Lh eq_refl). cbn [bind].
  rewrite (re_sub_lacks true (header_line "###") (header_element "h3") "#" _
             (needs_bol_literal _ _) Lh eq_refl). cbn [bind].
  rewrite (re_sub_lacks true (header_line "####") (header_element "h4") "#" _
             (needs_bol_literal _ _) Lh eq_refl). cbn [bind].
  rewrite lists_other by (rewrite split_join by assumption; exact O). cbn [bind].
  rewrite (re_sub_lacks false bold_span strong_element "*" _ (needs_literal _ _) Ls eq_refl).
  cbn [bind].
  rewrite (re_sub_lacks false italic_span em_element "*" _ (needs_literal _ _) Ls eq_refl).
  cbn [bind].
  rewrite (re_sub_lacks false link_span anchor_element "[" _ (needs_literal _ _) Lb eq_refl).
  cbn [bind]. f_equal. apply wrap_paragraphs_join; assumption.
Qed.


(** The list stage brings in no character that its tags do not have. *)
Lemma tag_lacks c tag :
  lacks c (txt "</>uloi") -> incl tag (txt "</>uloi") -> lacks c tag.
Proof.
  intros H I. apply Forall_forall. intros x Hx.
  exact (proj1 (Forall_forall _ _) H x (I x Hx)).
Qed.

Lemma li_lacks c s : lacks c (txt "</>uloi") -> lacks c s -> lacks c (li s).
Proof.
  intros H Hs. unfold li. apply lacks_app.
  - apply (tag_lacks c _ H). intros x Hx. cbn in Hx |- *. intuition.
  - apply lacks_app; [exact Hs|].
    apply (tag_lacks c _ H). intros x Hx. cbn in Hx |- *. intuition.
Qed.

Lemma skipn_lacks c n s : lacks c s -> lacks c (skipn n s).
Proof.
  intros H. revert n. induction H as [|x s Hx Hs IH]; intros [|n]; cbn [skipn];
    try constructor; try assumption. apply IH.
Qed.

Lemma classify_numbered_shape line : classify line = Numbered -> numbered_shape line.
Proof.
  unfold classify. intros K. apply numbered_marker_match.
  destruct (matched (re_match false bullet_marker line)); [discriminate|].
  destruct (matched (re_match false numbered_marker line)); [reflexivity|discriminate].
Qed.

Ltac lines_lack :=
  repeat match goal with
         | |- _ => assumption
         | |- Forall _ (_ ++ _) => apply Forall_app; split
         | |- Forall (lacks _) (_ :: _) => apply Forall_cons
         | |- Forall (lacks _) [] => apply Forall_nil
         | |- lacks _ (li _) => apply li_lacks
         | |- lacks _ (skipn _ _) => apply skipn_lacks
         end.

Lemma scan_line_lacks c sc line :
  lacks c (txt "</>uloi") -> Forall (lacks c) (result sc) -> lacks c line ->
  exists sc', scan_line sc line = Ok sc' /\ Forall (lacks c) (result sc').
Proof.
  intros H R L.
  assert (Tu : lacks c (txt "<ul>"))
    by (apply (tag_lacks c _ H); intros x Hx; cbn in Hx |- *; intuition).
  assert (Tv : lacks c (txt "</ul>"))
    by (apply (tag_lacks c _ H); intros x Hx; cbn in Hx |- *; intuition).
  assert (To : lacks c (txt "<ol>"))
    by (apply (tag_lacks c _ H); intros x Hx; cbn in Hx |- *; intuition).
  assert (Tp : lacks c (txt "</ol>"))
    by (apply (tag_lacks c _ H); intros x Hx; cbn in Hx |- *; intuition).
  unfold scan_line. destruct (classify line) eqn:K.
  - eexists. split; [reflexivity|].
    destruct sc as [r [|] [|]]; cbn [in_ul in_ol negb set_in_ul set_in_ol append result] in *;
      lines_lack.
  - destruct (classify_numbered_shape line K) as (ds & c0 & rest & Hds & Dds & Hc & E).
    subst line.
    assert (Ec : re_sub false numbered_marker [] (ds ++ BSLASH :: c0 :: " "%char :: rest)
                 = Ok rest) by (apply (cleaned_line ds c0 rest); repeat split; assumption).
    assert (Lr : lacks c rest).
    { apply Forall_app in L. destruct L as [_ L].
      inversion L as [|? ? _ L1]; subst. inversion L1 as [|? ? _ L2]; subst.
      inversion L2 as [|? ? _ L3]; subst. exact L3. }
    eexists. split; [rewrite Ec; reflexivity|].
    destruct sc as [r [|] [|]]; cbn [in_ul in_ol negb set_in_ul set_in_ol append result] in *;
      lines_lack.
  - eexists. split; [reflexivity|].
    destruct sc as [r [|] [|]]; cbn [in_ul in_ol negb set_in_ul set_in_ol append result] in *;
      lines_lack.
Qed.

Lemma scan_lines_lacks c lines : forall sc,
  lacks c (txt "</>uloi") -> Forall (lacks c) (result sc) -> Forall (lacks c) lines ->
  exists sc', scan_lines sc lines = Ok sc' /\ Forall (lacks c) (result sc').
Proof.
  induction lines as [|line lines IH]; intros sc H R L.
  - exists sc. split; [reflexivity|exact R].
  - inversion L as [|? ? Ll Ls]; subst.
    destruct (scan_line_lacks c sc line H R Ll) as (sc1 & E1 & R1).
    cbn [scan_lines]. rewrite E1. cbn [bind]. apply IH; assumption.
Qed.

Lemma split_lacks c : forall s, lacks c s -> Forall (lacks c) (split LF s).
Proof.
  intros s H. induction H as [|x s Hx Hs IH]; [repeat constructor|].
  cbn [split]. destruct (chr_eqb x LF).
  - constructor; [constructor|exact IH].
  - destruct (split LF s) as [|l ls]; [repeat constructor; exact Hx|].
    inversion IH as [|? ? Il Ils]; subst.
    constructor; [constructor; assumption|assumption].
Qed.

(** On a text without the characters the other stages react to, only the
    list stage and the paragraph pass act. *)
Lemma plain_text_lists content :
  plain content ->
  exists listed,
    lists content = Ok listed
    /\ convert_markdown_to_html content = Ok (wrap_paragraphs listed).
Proof.
  intros (Ht & Hh & Hs & Hl).
  destruct (scan_lines_lacks "*" (split LF content) (Scan [] false false))
    as (sc & E & Rs); [repeat constructor|constructor|apply split_lacks; exact Hs|].
  destruct (scan_lines_lacks "[" (split LF content) (Scan [] false false))
    as (sc' & E' & Rl); [repeat constructor|constructor|apply split_lacks; exact Hl|].
  rewrite E in E'. injection E' as <-.
  set (out := result (if in_ol (if in_ul sc then append (txt "</ul>") sc else sc)
                      then append (txt "</ol>") (if in_ul sc then append (txt "</ul>") sc else sc)
                      else (if in_ul sc then append (txt "</ul>") sc else sc))).
  assert (L : lists content = Ok (join [LF] out)).
  { unfold lists, list_lines. rewrite E. reflexivity. }
  assert (Os : Forall (lacks "*") out /\ Forall (lacks "[") out).
  { subst out. destruct sc as [r [|] [|]];
      cbn [in_ul in_ol append result] in *; split;
      repeat (apply Forall_app; split); try assumption; repeat constructor. }
  destruct Os as [Os Ol].
  exists (join [LF] out). split; [exact L|].
  unfold convert_markdown_to_html, code_blocks, fenced_dart, fenced_tagged, fenced_plain,
    inline_code, headers, emphasis, links.
  rewrite (re_sub_lacks true fence_dart pre_dart BTICK content)
    by (apply needs_literal || assumption || reflexivity). cbn [bind].
  rewrite (re_sub_lacks true fence_tagged pre_tagged BTICK content)
    by (apply needs_literal || assumption || reflexivity). cbn [bind].
  rewrite (re_sub_lacks true fence_plain pre_dart BTICK content)
    by (apply needs_literal || assumption || reflexivity). cbn [bind].
  rewrite (re_sub_lacks false inline_span code_element BTICK content)
    by (apply needs_literal || assumption || reflexivity). cbn [bind].
  rewrite (re_sub_lacks true (header_line "#") (header_element "h1") "#" content)
    by (apply needs_bol_literal || assumption || reflexivity). cbn [bind].
  rewrite (re_sub_lacks true (header_line "##") (header_element "h2") "#" content)
    by (apply needs_bol_literal || assumption || reflexivity). cbn [bind].
  rewrite (re_sub_lacks true (header_line "###") (header_element "h3") "#" content)
    by (apply needs_bol_literal || assumption || reflexivity). cbn [bind].
  rewrite (re_sub_lacks true (header_line "####") (header_element "h4") "#" content)
    by (apply needs_bol_literal || assumption || reflexivity). cbn [bind].
  rewrite L. cbn [bind].
  assert (Js : lacks "*" (join [LF] out)) by (apply lacks_join; [reflexivity|exact Os]).
  assert (Jl : lacks "[" (join [LF] out)) by (apply lacks_join; [reflexivity|exact Ol]).
  rewrite (re_sub_lacks false bold_span strong_element "*" (join [LF] out))
    by (apply needs_literal || assumption || reflexivity). cbn [bind].
  rewrite (re_sub_lacks false italic_span em_element "*" (join [LF] out))
    by (apply needs_literal || assumption || reflexivity). cbn [bind].
  rewrite (re_sub_lacks false link_span anchor_element "[" (join [LF] out))
    by (apply needs_literal || assumption || reflexivity). cbn [bind].
  reflexivity.
Qed.


Lemma bullet_lines_listed item items :
  list_lines (map (fun i => txt "- " ++ i) (item :: items))
  = Ok (txt "<ul>" :: map li (item :: items) ++ [txt "</ul>"]).
Proof.
  unfold list_lines. cbn [map scan_lines].
  unfold scan_line. rewrite classify_bullet. cbn [in_ul in_ol negb bind].
  rewrite scan_bullets by reflexivity. reflexivity.
Qed.

Lemma bullet_lines_lack c items :
  chr_eqb "-" c = false -> chr_eqb " " c = false -> Forall (lacks c) items ->
  Forall (lacks c) (map (fun i => txt "- " ++ i) items).
Proof.
  intros Hd Hs. induction 1 as [|i items Hi His IH]; cbn [map]; constructor.
  - cbn [txt list_ascii_of_string app]. constructor; [exact Hd|].
    constructor; [exact Hs|exact Hi].
  - exact IH.
Qed.

Lemma wrap_markup_lines lines :
  Forall (fun l => startswith (txt "<") l = true) lines -> map wrap_line lines = lines.
Proof.
  induction 1 as [|l lines Hl Hls IH]; [reflexivity|].
  cbn [map]. rewrite (wrap_line_markup l Hl), IH. reflexivity.
Qed.

Lemma bullet_document item items :
  Forall one_line (item :: items) -> Forall plain (item :: items) ->
  convert_markdown_to_html (join [LF] (map (fun i => txt "- " ++ i) (item :: items)))
  = Ok (join [LF] (txt "<ul>" :: map li (item :: items) ++ [txt "</ul>"])).
Proof.
  intros O P.
  assert (Ob : Forall one_line (map (fun i => txt "- " ++ i) (item :: items))).
  { clear P. induction O as [|i more Hi His IH]; cbn [map]; constructor; [|exact IH].
    apply one_line_app; [repeat constructor|exact Hi]. }
  assert (Nb : map (fun i => txt "- " ++ i) (item :: items) <> []) by discriminate.
  assert (Pb : plain (join [LF] (map (fun i => txt "- " ++ i) (item :: items)))).
  { repeat split; (apply lacks_join; [reflexivity|]);
      (apply bullet_lines_lack; [reflexivity|reflexivity|]);
      (eapply Forall_impl; [|exact P]); intros a (T & H & S & B); assumption. }
  destruct (plain_text_lists _ Pb) as (listed & L & C). rewrite C. f_equal.
  unfold lists in L. rewrite split_join, bullet_lines_listed in L by assumption.
  cbn [bind] in L.
  assert (E : listed = join [LF] (txt "<ul>" :: map li (item :: items) ++ [txt "</ul>"]))
    by exact (f_equal (fun o : outcome str => match o with Ok x => x | _ => listed end)
                (eq_sym L)).
  clear L. subst listed.
  assert (Ol : Forall one_line (map li (item :: items))).
  { clear P Ob Nb Pb C. induction O as [|i more Hi His IH]; cbn [map]; constructor; [|exact IH].
    unfold li. apply one_line_app; [repeat constructor|].
    apply one_line_app; [exact Hi|repeat constructor]. }
  rewrite wrap_paragraphs_join.
  - f_equal. apply wrap_markup_lines. constructor; [reflexivity|].
    apply Forall_app. split; [|repeat constructor].
    apply Forall_forall. intros l Hl. apply in_map_iff in Hl.
    destruct Hl as (i & <- & _). reflexivity.
  - discriminate.
  - constructor; [repeat constructor|].
    apply Forall_app. split; [exact Ol|repeat constructor].
Qed.

(** X23: the later stages do not spare a code block.  In an untagged block
    of two lines of plain text the second line, which stands alone on its
    line in the [pre] element, is wrapped in a paragraph like any other
    line. *)
Theorem paragraphs_inside_code_block : forall l1 l2,
  one_line l1 -> one_line l2 -> plain l1 -> plain l2 ->
  classify l2 = Other -> has_text l2 = true -> startswith (txt "<") l2 = false ->
  convert_markdown_to_html (txt "```" ++ [LF] ++ l1 ++ [LF] ++ l2 ++ [LF] ++ txt "```")
  = Ok (txt "<pre class=" ++ quoted (txt "language- line-numbers")
        ++ txt "><code class=" ++ quoted (txt "language-") ++ txt ">" ++ l1 ++ [LF]
        ++ txt "<p>" ++ l2 ++ txt "</p>" ++ [LF]
        ++ txt "</code></pre>").
Proof.
  intros l1 l2 O1 O2 (T1 & H1 & S1 & B1) (T2 & H2 & S2 & B2) K2 X2 M2.
  set (open_tag := txt "<pre class=" ++ quoted (txt "language- line-numbers")
                   ++ txt "><code class=" ++ quoted (txt "language-") ++ txt ">").
  assert (C : code_blocks (txt "```" ++ [LF] ++ l1 ++ [LF] ++ l2 ++ [LF] ++ txt "```")
              = Ok (join [LF] [open_tag ++ l1; l2; txt "</code></pre>"])).
  { pose proof (code_blocks_tagged [] [] (l1 ++ [LF] ++ l2 ++ [LF]) []) as E.
    cbn [app] in E. rewrite app_nil_r in E.
    replace ((l1 ++ LF :: l2 ++ [LF]) ++ txt "```") with (l1 ++ LF :: l2 ++ LF :: txt "```") in E
      by (rewrite <- !app_assoc; cbn [app]; rewrite <- app_assoc; reflexivity).
    cbn [app]. rewrite E.
    - f_equal. unfold open_tag, quoted. cbn [join txt list_ascii_of_string app].
      repeat (rewrite <- app_assoc; cbn [app]). reflexivity.
    - constructor.
    - reflexivity.
    - reflexivity.
    - apply lacks_app; [exact T1|]. constructor; [reflexivity|].
      apply lacks_app; [exact T2|repeat constructor].
    - constructor. }
  unfold convert_markdown_to_html. rewrite C. cbn [bind].
  rewrite later_stages_pass.
  - f_equal. cbn [map join].
    rewrite (wrap_line_markup (open_tag ++ l1)) by reflexivity.
    rewrite (wrap_line_markup (txt "</code></pre>")) by reflexivity.
    rewrite wrap_line_cases, X2, M2. cbn [andb negb].
    unfold open_tag, quoted. cbn [txt list_ascii_of_string app].
    repeat (rewrite <- app_assoc; cbn [app]). reflexivity.
  - discriminate.
  - subst open_tag.
    constructor; [apply one_line_app; [repeat constructor|exact O1]|].
    constructor; [exact O2|]. repeat constructor.
  - apply lacks_join; [reflexivity|]. subst open_tag.
    constructor; [apply lacks_app; [repeat constructor|exact T1]|].
    constructor; [exact T2|]. repeat constructor.
  - apply lacks_join; [reflexivity|]. subst open_tag.
    constructor; [apply lacks_app; [repeat constructor|exact H1]|].
    constructor; [exact H2|]. repeat constructor.
  - apply lacks_join; [reflexivity|]. subst open_tag.
    constructor; [apply lacks_app; [repeat constructor|exact S1]|].
    constructor; [exact S2|]. repeat constructor.
  - apply lacks_join; [reflexivity|]. subst open_tag.
    constructor; [apply lacks_app; [repeat constructor|exact B1]|].
    constructor; [exact B2|]. repeat constructor.
  - constructor; [|constructor; [exact K2|constructor; [reflexivity|constructor]]].
    apply classify_markup. reflexivity.
Qed.

Lemma paragraphs_inside_code_block_witness :
  one_line (txt "a = 1") /\ one_line (txt "b = 2")
  /\ plain (txt "a = 1") /\ plain (txt "b = 2")
  /\ classify (txt "b = 2") = Other /\ has_text (txt "b = 2") = true
  /\ startswith (txt "<") (txt "b = 2") = false
  /\ convert_markdown_to_html
       (txt "```" ++ [LF] ++ txt "a = 1" ++ [LF] ++ txt "b = 2" ++ [LF] ++ txt "```")
     = Ok (txt "<pre class=" ++ quoted (txt "language- line-numbers")
           ++ txt "><code class=" ++ quoted (txt "language-") ++ txt ">"
           ++ txt "a = 1" ++ [LF]
           ++ txt "<p>" ++ txt "b = 2" ++ txt "</p>" ++ [LF]
           ++ txt "</code></pre>").
Proof.
  assert (O1 : one_line (txt "a = 1")) by (repeat constructor).
  assert (O2 : one_line (txt "b = 2")) by (repeat constructor).
  assert (P1 : plain (txt "a = 1")) by (repeat split; repeat constructor).
  assert (P2 : plain (txt "b = 2")) by (repeat split; repeat constructor).
  repeat (split; [assumption || reflexivity|]).
  exact (paragraphs_inside_code_block (txt "a = 1") (txt "b = 2")
           O1 O2 P1 P2 eq_refl eq_refl eq_refl).
Defined.

(** X24: on a text without backticks, hashes, stars and opening brackets
    only the list stage and the paragraph pass act: the converter returns
    the paragraph pass of what the list stage gives, whatever mix of
    bullet items, numbered items and other lines the text has. *)
Theorem plain_text_is_listed_and_wrapped : forall content,
  plain content ->
  exists listed,
    lists content = Ok listed
    /\ convert_markdown_to_html content = Ok (wrap_paragraphs listed).
Proof. exact plain_text_lists. Qed.

Lemma plain_text_is_listed_and_wrapped_witness :
  plain (txt "intro" ++ [LF] ++ txt "- a" ++ [LF] ++ txt "1\. b")
  /\ exists listed,
       lists (txt "intro" ++ [LF] ++ txt "- a" ++ [LF] ++ txt "1\. b") = Ok listed
       /\ convert_markdown_to_html (txt "intro" ++ [LF] ++ txt "- a" ++ [LF] ++ txt "1\. b")
          = Ok (wrap_paragraphs listed).
Proof.
  assert (P : plain (txt "intro" ++ [LF] ++ txt "- a" ++ [LF] ++ txt "1\. b"))
    by (repeat split; repeat constructor).
  split; [exact P|].
  exact (plain_text_is_listed_and_wrapped
           (txt "intro" ++ [LF] ++ txt "- a" ++ [LF] ++ txt "1\. b") P).
Defined.

(** X25: a document of bullet lines alone, the items plain text, comes out
    as one list: the opening tag, one element for each item, the closing
    tag, each on its own line and none of them wrapped in a paragraph. *)
Theorem bullet_list_document : forall item items,
  Forall one_line (item :: items) -> Forall plain (item :: items) ->
  convert_markdown_to_html (join [LF] (map (fun i => txt "- " ++ i) (item :: items)))
  = Ok (join [LF] (txt "<ul>" :: map li (item :: items) ++ [txt "</ul>"])).
Proof. exact bullet_document. Qed.

Lemma bullet_list_document_witness :
  Forall one_line [txt "one"; txt "two"] /\ Forall plain [txt "one"; txt "two"]
  /\ convert_markdown_to_html (join [LF] (map (fun i => txt "- " ++ i) [txt "one"; txt "two"]))
     = Ok (join [LF] (txt "<ul>" :: map li [txt "one"; txt "two"] ++ [txt "</ul>"])).
Proof.
  assert (O : Forall one_line [txt "one"; txt "two"]) by (repeat constructor).
  assert (P : Forall plain [txt "one"; txt "two"])
    by (repeat constructor).
  split; [exact O|]. split; [exact P|].
  exact (bullet_list_document (txt "one") [txt "two"] O P).
Defined.
